(** * MoESchools: the acquisition, normalisation and reconciliation pipeline

    A shallow embedding of [MoESchools.py] and the properties of its
    pipeline: the record normaliser ([normalize_value], [project_record]),
    the paginated fetcher ([fetch_all_projected_records]), the roll-band
    extractor ([load_roll_data]), the reconciler
    ([match_schools_with_rolls]) and the exporters ([export_csv],
    [export_excel_table]).

    Conventions of the model.
    - A Python [str] is a list of Unicode code points ([list N]).
    - A parsed JSON document is a value of [json]; a Python [dict] read from
      JSON keeps its insertion order and is an association list.
    - A raised exception is the [Raise] outcome; a [while] loop is run
      with fuel, and [OutOfFuel] says that the loop was still running when
      the fuel ran out.  The fuel the fetcher is given is proved sufficient
      for every total that is not infinite.
    - A JSON number is an integer, a finite fraction, or one of the three
      values that are not finite ([Infinity], [-Infinity], [NaN]), which
      [json.loads] accepts and also gives for a number too large for a
      double.  A number in a spreadsheet cell is an integer; converting a
      text can also give an infinity. *)

From Stdlib Require Import ZArith NArith QArith Qround List Ascii String Lia.
From stdpp Require Import base option list gmap sorting.

Close Scope Q_scope.
Local Open Scope Z_scope.
Set Warnings "-register-all".

(* ===================================================================== *)
(** * Text *)
(* ===================================================================== *)

Module Text.

Abbreviation str := (list N).

(** A literal of ASCII characters as a Python string. *)
Definition u (s : string) : str :=
  List.map N_of_ascii (list_ascii_of_string s).

(** The code points [str.strip()] removes (CPython's [Py_UNICODE_ISSPACE]). *)
Definition isspace (c : N) : bool :=
  ((9 <=? c) && (c <=? 13) || (28 <=? c) && (c <=? 32)
   || (c =? 133) || (c =? 160) || (c =? 5760)
   || (8192 <=? c) && (c <=? 8202)
   || (c =? 8232) || (c =? 8233) || (c =? 8239) || (c =? 8287)
   || (c =? 12288))%N.

Fixpoint lstrip (s : str) : str :=
  match s with
  | c :: s' => if isspace c then lstrip s' else s
  | [] => []
  end.

Definition rstrip (s : str) : str := rev (lstrip (rev s)).

(** [s.strip()] *)
Definition strip (s : str) : str := rstrip (lstrip s).

Definition is_ascii_upper (c : N) : bool := ((65 <=? c) && (c <=? 90))%N.
Definition is_ascii_lower (c : N) : bool := ((97 <=? c) && (c <=? 122))%N.

(** What Python takes from the Unicode character database for the code
    points above 127: which of them are alphabetic, and their upper-case
    and lower-case forms (a form may be several code points long). *)
Record unicode_db := {
  db_isalpha : N -> bool;
  db_upper : N -> str;
  db_lower : N -> str
}.

(** A database in which no code point above 127 is a letter. *)
Definition plain_db : unicode_db :=
  {| db_isalpha := fun _ => false;
     db_upper := fun c => [c];
     db_lower := fun c => [c] |}.

Section Unicode.
Context (db : unicode_db).

(** [c.isalpha()] *)
Definition isalpha (c : N) : bool :=
  if (c <? 128)%N then is_ascii_upper c || is_ascii_lower c
  else db_isalpha db c.

Definition upper_char (c : N) : str :=
  if (c <? 128)%N then [if is_ascii_lower c then (c - 32)%N else c]
  else db_upper db c.

Definition lower_char (c : N) : str :=
  if (c <? 128)%N then [if is_ascii_upper c then (c + 32)%N else c]
  else db_lower db c.

(** [s.upper()] and [s.lower()] *)
Definition upper (s : str) : str := List.flat_map upper_char s.
Definition lower (s : str) : str := List.flat_map lower_char s.
End Unicode.

(** [a == b] on strings. *)
Fixpoint str_eqb (a b : str) : bool :=
  match a, b with
  | [], [] => true
  | x :: a', y :: b' => (x =? y)%N && str_eqb a' b'
  | _, _ => false
  end.

(** [len(l) == 0] *)
Definition is_nil {A} (l : list A) : bool :=
  match l with [] => true | _ :: _ => false end.

Fixpoint is_prefix (p s : str) : bool :=
  match p, s with
  | [], _ => true
  | _ :: _, [] => false
  | a :: p', b :: s' => (a =? b)%N && is_prefix p' s'
  end.

(** [p in s] on strings: [p] occurs in [s] as a contiguous run. *)
Fixpoint contains (s p : str) : bool :=
  is_prefix p s ||
  match s with
  | [] => false
  | _ :: s' => contains s' p
  end.

End Text.
Import Text.

(* ===================================================================== *)
(** * Outcomes of a call *)
(* ===================================================================== *)

(** The exceptions the pipeline can meet.  [RuntimeError] is the one the
    program raises itself; its argument is the offset of the failing page
    ([None] for the initial request) or the wrapped cause. *)
Inductive exn : Type :=
| HTTPError
| ConnectionError
| Timeout
| JSONDecodeError
| AttributeError
| TypeError
| ValueError
| KeyError
| OSError
| ImportError
| MergeError                          (* pandas; a kind of ValueError *)
| SourceFailure (offset : option Z)   (* RuntimeError of the fetcher *)
| RollLoadFailure (cause : exn).      (* RuntimeError of load_roll_data *)

Inductive outcome (A : Type) : Type :=
| Ok (a : A)
| Raise (e : exn)
| OutOfFuel.
Arguments Ok {A} a.
Arguments Raise {A} e.
Arguments OutOfFuel {A}.

#[global] Instance outcome_ret : MRet outcome := fun _ a => Ok a.
#[global] Instance outcome_bind : MBind outcome := fun _ _ f m =>
  match m with
  | Ok a => f a
  | Raise e => Raise e
  | OutOfFuel => OutOfFuel
  end.

Definition is_ok {A} (o : outcome A) : bool :=
  match o with Ok _ => true | _ => false end.

Definition raised {A} (o : outcome A) : bool :=
  match o with Raise _ => true | _ => false end.

(** A computation over a state of type [S]: it returns or raises, and
    leaves a state behind in both cases. *)
Definition prog (S A : Type) : Type := S -> outcome A * S.

#[global] Instance prog_ret S : MRet (prog S) := fun _ a st => (Ok a, st).
#[global] Instance prog_bind S : MBind (prog S) := fun _ _ f m st =>
  match m st with
  | (Ok a, st') => f a st'
  | (Raise e, st') => (Raise e, st')
  | (OutOfFuel, st') => (OutOfFuel, st')
  end.

Definition lift {S A} (o : outcome A) : prog S A := fun st => (o, st).
Definition raise {S A} (e : exn) : prog S A := lift (Raise e).

(* ===================================================================== *)
(** * JSON values and the record normaliser *)
(* ===================================================================== *)

(** The floats that are not finite. *)
Inductive nonfinite : Type := PosInf | NegInf | NotANumber.

Inductive json : Type :=
| JNull
| JBool (b : bool)
| JInt (z : Z)
| JFloat (q : Q)
| JNonFinite (x : nonfinite)
| JStr (s : str)
| JList (l : list json)
| JObj (d : list (str * json)).

Abbreviation dict := (list (str * json)).

(** [d.get(k)]: the value bound to [k], if any. *)
Fixpoint dict_lookup (d : dict) (k : str) : option json :=
  match d with
  | [] => None
  | (k', v) :: d' => if str_eqb k' k then Some v else dict_lookup d' k
  end.

(** [d.get(k, dflt)] *)
Definition dict_get (d : dict) (k : str) (dflt : json) : json :=
  default dflt (dict_lookup d k).

(** [d[k] = v]: replaces the value in place, or adds the key at the end. *)
Fixpoint dict_set (d : dict) (k : str) (v : json) : dict :=
  match d with
  | [] => [(k, v)]
  | (k', v') :: d' =>
      if str_eqb k' k then (k', v) :: d' else (k', v') :: dict_set d' k v
  end.

(** Python truthiness, as [not x] and [x or y] use it. *)
Definition truthy (v : json) : bool :=
  match v with
  | JNull => false
  | JBool b => b
  | JInt z => negb (z =? 0)
  | JFloat q => negb (Qeq_bool q (0 # 1))
  | JNonFinite _ => true
  | JStr s => negb (is_nil s)
  | JList l => negb (is_nil l)
  | JObj d => negb (is_nil d)
  end.

Definition py_or (a b : json) : json := if truthy a then a else b.

Definition placeholder : str := u "-".

Definition FIELDS : list str :=
  [ u "School_Id"; u "Org_Name"; u "Telephone"; u "Fax"; u "Email";
    u "Contact1_Name"; u "URL";
    u "Add1_Line1"; u "Add1_Suburb"; u "Add1_City"; u "Add2_Line1";
    u "Add2_Suburb";
    u "Add2_City"; u "Add2_Postal_Code"; u "Authority";
    u "Territorial_Authority";
    u "Regional_Council"; u "General_Electorate";
    u "M" ++ [257%N] ++ u "ori_Electorate"; u "Ward";
    u "Latitude"; u "Longitude"; u "EQi_Index"; u "Roll_Date"; u "Total";
    u "European";
    u "M" ++ [257%N] ++ u "ori"; u "Pacific"; u "Asian"; u "MELAA";
    u "Other"; u "International"; u "Status";
    u "DateSchoolOpened" ].

Definition FIELD_ALIASES : list (str * str) :=
  [ (u "School_Id", u "MoEID") ].

Definition normalize_value (val : json) : json :=
  match val with
  | JNull => JStr placeholder
  | JStr s0 =>
      let s := strip s0 in
      if is_nil s then JStr placeholder else JStr s
  | JList l => if is_nil l then JStr placeholder else val
  | JObj d => if is_nil d then JStr placeholder else val
  | _ => val
  end.

(** The dict comprehension [{f: normalize_value(rec.get(f, None)) for f in
    FIELDS}]: the keys are set one after the other. *)
Definition project_record (rec : dict) : dict :=
  fold_left
    (fun acc f => dict_set acc f (normalize_value (dict_get rec f JNull)))
    FIELDS [].

(* ===================================================================== *)
(** * The paginated fetcher *)
(* ===================================================================== *)

(** What the remote datastore sends back for one request: a JSON body, or a
    failure of the transport ([raise_for_status], a connection error, a
    timeout, a body that is not JSON). *)
Inductive reply : Type :=
| Body (j : json)
| Failed (e : exn).

(** The datastore answers the [n]-th request of a session (counting from 0)
    for a resource at an offset with a limit. *)
Definition server : Type := nat -> str -> Z -> Z -> reply.

(** The observable steps of a fetch: the blocking pauses and the requests. *)
Inductive event : Type :=
| Sleep (pause : Q)
| Request (resource_id : str) (offset limit : Z).

Definition is_request (e : event) : bool :=
  match e with Request _ _ _ => true | Sleep _ => false end.

Definition requests_in (tr : list event) : nat :=
  length (List.filter is_request tr).

(** A computation of the fetcher extends the trace of a session. *)
Abbreviation fetchM := (prog (list event)).

(** [time.sleep(pause)] refuses a negative length. *)
Definition sleep (pause : Q) : fetchM unit := fun tr =>
  if Qle_bool (0 # 1) pause then (Ok tt, tr ++ [Sleep pause])
  else (Raise ValueError, tr).

(** The inner function [fetch_page]. *)
Definition fetch_page (srv : server) (resource_id : str)
    (offset limit : Z) : fetchM json := fun tr =>
  (match srv (requests_in tr) resource_id offset limit with
   | Body j => Ok j
   | Failed e => Raise e
   end, tr ++ [Request resource_id offset limit]).

(** [v.get(...)] needs [v] to be a dict. *)
Definition as_dict (v : json) : outcome dict :=
  match v with
  | JObj d => Ok d
  | _ => Raise AttributeError
  end.

Fixpoint all_dicts (l : list json) : outcome (list dict) :=
  match l with
  | [] => Ok []
  | v :: l' => d ← as_dict v; ds ← all_dicts l'; Ok (d :: ds)
  end.

(** Iterating [records] and calling [project_record] on each element: the
    elements of a list must be dicts; the characters of a text and the keys
    of a dict have no [get]; anything else is not iterable. *)
Definition iter_records (records : json) : outcome (list dict) :=
  match records with
  | JList l => all_dicts l
  | JStr s => if is_nil s then Ok [] else Raise AttributeError
  | JObj d => if is_nil d then Ok [] else Raise AttributeError
  | _ => Raise TypeError
  end.

(** [len(v)] *)
Definition py_len (v : json) : outcome Z :=
  match v with
  | JList l => Ok (Z.of_nat (length l))
  | JStr s => Ok (Z.of_nat (length s))
  | JObj d => Ok (Z.of_nat (length d))
  | _ => Raise TypeError
  end.

(** [fetched < total] for an integer [fetched]; Python compares an integer
    with a fraction exactly; every integer is below the positive infinity
    and none is below the negative one or below a NaN. *)
Definition int_lt (fetched : Z) (total : json) : outcome bool :=
  match total with
  | JInt t => Ok (fetched <? t)
  | JBool b => Ok (fetched <? (if b then 1 else 0))
  | JFloat q => Ok (negb (Qle_bool q (inject_Z fetched)))
  | JNonFinite PosInf => Ok true
  | JNonFinite _ => Ok false
  | _ => Raise TypeError
  end.

(** An upper bound on the iterations the loop can still make.  An
    infinite total gives none: the model then follows the loop for
    [patience] turns more. *)
Definition remaining (patience : nat) (total : json) (fetched : Z) : nat :=
  match total with
  | JInt t => Z.to_nat (t - fetched)
  | JBool b => Z.to_nat ((if b then 1 else 0) - fetched)
  | JFloat q => Z.to_nat (Qceiling q - fetched)
  | JNonFinite PosInf => patience
  | _ => 0%nat
  end.

(** The variables the loop updates. *)
Record progress : Type := mkProgress {
  fetched : Z;
  offset : Z;
  projected : list dict
}.

Section Fetcher.
Context (srv : server) (resource_id : str) (limit_per_page : Z) (pause : Q).

(** One turn of [while fetched < total]: the test and, when it holds, the
    body.  [inl] is the state at the end of the body; [inr] is the list
    the function goes on to return, because the test failed or the body
    reached [break]. *)
Definition fetch_turn (total : json) (st : progress)
    : fetchM (progress + list dict) :=
  more ← lift (int_lt (fetched st) total);
  if more : bool then
    sleep pause;;
    page ← fetch_page srv resource_id (offset st) limit_per_page;
    page_d ← lift (as_dict page);
    if negb (truthy (dict_get page_d (u "success") JNull))
    then raise (SourceFailure (Some (offset st)))
    else
      result_obj ← lift (as_dict (dict_get page_d (u "result") (JObj [])));
      let page_records :=
        py_or (dict_get result_obj (u "records") (JList [])) (JList []) in
      if negb (truthy page_records) then mret (inr (projected st))
      else
        recs ← lift (iter_records page_records);
        n ← lift (py_len page_records);
        mret (inl {| fetched := fetched st + n;
                     offset := offset st + n;
                     projected :=
                       projected st ++ List.map project_record recs |})
  else mret (inr (projected st)).

(** The loop, run for at most [fuel] turns. *)
Fixpoint fetch_loop (fuel : nat) (total : json) (st : progress)
    : fetchM (list dict) :=
  match fuel with
  | O => lift OutOfFuel
  | S fuel' =>
      next ← fetch_turn total st;
      match next with
      | inl st' => fetch_loop fuel' total st'
      | inr result => mret result
      end
  end.

(** The function.  Its loop has no bound of its own: it is run with the
    fuel that the total read from the first response affords, which is
    [patience] when that total is infinite. *)
Definition fetch_all_projected_records (patience : nat)
    : fetchM (list dict) :=
  first ← fetch_page srv resource_id 0 limit_per_page;
  first_d ← lift (as_dict first);
  if negb (truthy (dict_get first_d (u "success") JNull))
  then raise (SourceFailure None)
  else
    result ← lift (as_dict (dict_get first_d (u "result") (JObj [])));
    let total :=
      py_or (dict_get result (u "total") JNull)
            (dict_get result (u "records_total") JNull) in
    let records :=
      py_or (dict_get result (u "records") (JList [])) (JList []) in
    recs ← lift (iter_records records);
    let projected := List.map project_record recs in
    n ← lift (py_len records);
    let total := match total with JNull => JInt n | _ => total end in
    let fetched := n in
    let offset := fetched in
    fetch_loop (S (remaining patience total fetched)) total
      {| fetched := fetched; offset := offset; projected := projected |}.
End Fetcher.

(* ===================================================================== *)
(** * Tables *)
(* ===================================================================== *)

(** A cell of a pandas column: an integer, an infinity (which the numeric
    conversion of a text can give), a text, or the missing value.  The
    model does not follow the dtype of a column: it is exact for integers
    that every numeric dtype holds, those of magnitude at most [2 ^ 53]. *)
Inductive cell : Type :=
| CInt (z : Z)
| CInf (negative : bool)
| CStr (s : str)
| CNaN.

(** Equality of cells as the keys of a merge compare: two missing values
    are the same key. *)
Definition cell_eqb (a b : cell) : bool :=
  match a, b with
  | CInt x, CInt y => x =? y
  | CInf a, CInf b => Bool.eqb a b
  | CStr x, CStr y => str_eqb x y
  | CNaN, CNaN => true
  | _, _ => false
  end.

(** A [DataFrame]: the column labels and the rows, each row holding one cell
    per column.  The frames the pipeline builds ([read_excel] renames
    repeated headers, the registry frame is built over [FIELDS]) label
    every column differently. *)
Record DataFrame : Type := mkDataFrame {
  columns : list str;
  rows : list (list cell)
}.

(** [df.empty]: one of the two axes has length 0. *)
Definition df_empty (df : DataFrame) : bool :=
  is_nil (columns df) || is_nil (rows df).

(** The positions of the columns that carry a label. *)
Definition positions (cols : list str) (label : str) : list nat :=
  List.map fst
    (List.filter (fun ic => str_eqb (snd ic) label)
       (combine (seq 0 (length cols)) cols)).

Definition cell_at (r : list cell) (i : nat) : cell := nth i r CNaN.

(** [df[labels]]: the columns carrying the labels, in the order asked for;
    a label no column carries ([None] among them) is a [KeyError]. *)
Fixpoint locate (cols : list str) (labels : list (option str))
    : outcome (list nat) :=
  match labels with
  | [] => Ok []
  | None :: _ => Raise KeyError
  | Some l :: labels' =>
      match positions cols l with
      | [] => Raise KeyError
      | ps => rest ← locate cols labels'; Ok (ps ++ rest)
      end
  end.

Definition take_columns (df : DataFrame) (idx : list nat) : DataFrame :=
  {| columns := List.map (fun i => nth i (columns df) []) idx;
     rows := List.map (fun r => List.map (cell_at r) idx) (rows df) |}.

Definition select (df : DataFrame) (labels : list (option str))
    : outcome DataFrame :=
  idx ← locate (columns df) labels; Ok (take_columns df idx).

(** [df.rename(columns={old: new})] *)
Definition rename_column (old : option str) (new : str) (df : DataFrame)
    : DataFrame :=
  {| columns :=
       List.map
         (fun c =>
            match old with
            | Some o => if str_eqb c o then new else c
            | None => c
            end)
         (columns df);
     rows := rows df |}.

(** [df[label]] as a Series: the one column with that label.  With a
    repeated label pandas hands back a frame instead, which
    [pd.to_numeric] and [merge] refuse. *)
Definition column_index (df : DataFrame) (label : str) : outcome nat :=
  match positions (columns df) label with
  | [] => Raise KeyError
  | [i] => Ok i
  | _ => Raise TypeError
  end.

Definition series (df : DataFrame) (i : nat) : list cell :=
  List.map (fun r => cell_at r i) (rows df).

(** [df[label] = values] for the column at position [i]. *)
Definition set_series (df : DataFrame) (i : nat) (f : cell -> cell)
    : DataFrame :=
  {| columns := columns df;
     rows := List.map (fun r => <[i := f (cell_at r i)]> r) (rows df) |}.

Definition is_nan (c : cell) : bool :=
  match c with CNaN => true | _ => false end.

(** [df.dropna(subset=[label])] for the column at position [i]. *)
Definition dropna (df : DataFrame) (i : nat) : DataFrame :=
  {| columns := columns df;
     rows := List.filter (fun r => negb (is_nan (cell_at r i))) (rows df) |}.

(** The 64-bit integer that the cast to [int] leaves for an integer
    outside the 64-bit range: it wraps around. *)
Definition wrap64 (z : Z) : Z := (z + 2 ^ 63) mod 2 ^ 64 - 2 ^ 63.

(** [astype(int)] on one cell of a numeric column: the missing value and
    the infinities are refused.  (A numeric column holds no text.) *)
Definition number_as_int (c : cell) : outcome Z :=
  match c with
  | CInt z => Ok (wrap64 z)
  | _ => Raise ValueError
  end.

(** [df[label] = df[label].astype(int)] for the numeric column at position
    [i]. *)
Fixpoint cast_rows (i : nat) (rs : list (list cell))
    : outcome (list (list cell)) :=
  match rs with
  | [] => Ok []
  | r :: rs' =>
      z ← number_as_int (cell_at r i);
      rest ← cast_rows i rs';
      Ok (<[i := CInt z]> r :: rest)
  end.

Definition astype_int_column (df : DataFrame) (i : nat) : outcome DataFrame :=
  rs ← cast_rows i (rows df);
  Ok {| columns := columns df; rows := rs |}.

(** Events sent to the logger by the roll loader and the reconciler, with
    the values their messages interpolate. *)
Inductive log_record : Type :=
| LoadingRollData (year : Z)
| LoadedSheet (nrows ncols : nat)
| IdentifiedIdColumn (col : option str)
| ExtractingBand (start_idx end_idx : nat) (year_level_columns : Z)
| BandNotFound
| LoadedSchools (n : nat)
| Matching (schools rolls : nat)
| OnlyInRoll (ids : list Z)
| OnlyInApi (ids : list Z)
| MatchCounts (matched unmatched : nat).

Inductive level : Type := DEBUG | INFO | WARNING | ERROR.

Definition level_of (r : log_record) : level :=
  match r with
  | LoadingRollData _ | LoadedSchools _ | Matching _ _ | MatchCounts _ _ => INFO
  | LoadedSheet _ _ | IdentifiedIdColumn _ | ExtractingBand _ _ _ => DEBUG
  | BandNotFound | OnlyInRoll _ | OnlyInApi _ => WARNING
  end.

Abbreviation logM := (prog (list log_record)).

Definition emit (r : log_record) : logM unit := fun lg => (Ok tt, lg ++ [r]).

(* ===================================================================== *)
(** * The roll-band extractor *)
(* ===================================================================== *)

Definition ROLL_DATA_START_COLUMN : str := u "AY".
Definition ROLL_DATA_END_COLUMN : str := u "BM".
Definition ROLL_DATA_START_YEAR : Z := 2010.

(** A workbook: its sheets by name, each parsed with its header row. *)
Abbreviation workbook := (list (str * DataFrame)).

Fixpoint sheet_named (wb : workbook) (name : str) : option DataFrame :=
  match wb with
  | [] => None
  | (n, df) :: wb' => if str_eqb n name then Some df else sheet_named wb' name
  end.

(** [pd.read_excel(roll_file, sheet_name=sheet_name)], where opening the
    file gave [roll_file]. *)
Definition read_excel (roll_file : outcome workbook) (sheet_name : str)
    : outcome DataFrame :=
  wb ← roll_file;
  match sheet_named wb sheet_name with
  | Some df => Ok df
  | None => Raise ValueError
  end.

(** [str(n)] for an integer. *)
Definition str_of_Z (n : Z) : str := u (pretty.pretty n).

(** [all_cols[i:j]] for indices that are not negative. *)
Definition slice {A} (l : list A) (i j : nat) : list A :=
  take (j - i)%nat (drop i l).

(** What [pd.to_numeric] reads from a text that it can read: an integer,
    or an infinity (from [inf], [-inf], [Infinity]). *)
Inductive number : Type :=
| Finite (z : Z)
| Infinite (negative : bool).

Section Extractor.
Context (db : unicode_db).
(** [pd.to_numeric] on a text: the number it reads, if it reads one. *)
Context (to_numeric_text : str -> option number).

(** [pd.to_numeric(..., errors='coerce')] on one cell. *)
Definition to_numeric (c : cell) : cell :=
  match c with
  | CStr s =>
      match to_numeric_text s with
      | Some (Finite z) => CInt z
      | Some (Infinite negative) => CInf negative
      | None => CNaN
      end
  | _ => c
  end.

Definition names_school_id (col : str) : bool :=
  contains (lower db col) (u "school") && contains (lower db col) (u "id").

(** The first loop of [load_roll_data], with its [break]. *)
Fixpoint find_school_id_col (cols : list str) : option str :=
  match cols with
  | [] => None
  | col :: cols' =>
      if names_school_id col then Some col else find_school_id_col cols'
  end.

Definition col_letter (col : str) : str := List.filter (isalpha db) col.

Definition is_start (col : str) : bool :=
  str_eqb (upper db (col_letter col)) (upper db ROLL_DATA_START_COLUMN).
Definition is_end (col : str) : bool :=
  str_eqb (upper db (col_letter col)) (upper db ROLL_DATA_END_COLUMN).

(** The second loop: [for i, col in enumerate(all_cols)], which assigns
    [start_idx] and [end_idx] at every match. *)
Fixpoint band_loop (i : nat) (cols : list str)
    (start_idx end_idx : option nat) : option nat * option nat :=
  match cols with
  | [] => (start_idx, end_idx)
  | col :: cols' =>
      let start_idx := if is_start col then Some i else start_idx in
      let end_idx := if is_end col then Some i else end_idx in
      band_loop (S i) cols' start_idx end_idx
  end.

(** The identifier column: the first one whose name says so; failing that,
    [df.columns[0]] when the frame is not empty; failing that, [None]. *)
Definition identify_school_id_col (df : DataFrame) : option str :=
  match find_school_id_col (columns df) with
  | None => if negb (df_empty df) then head (columns df) else None
  | Some c => Some c
  end.

(** The body of the [try] block. *)
Definition load_roll_data_body (roll_file : outcome workbook)
    (selected_year : Z) : logM DataFrame :=
  emit (LoadingRollData selected_year);;
  let sheet_name := str_of_Z selected_year in
  df ← lift (read_excel roll_file sheet_name);
  emit (LoadedSheet (length (rows df)) (length (columns df)));;
  let school_id_col := identify_school_id_col df in
  emit (IdentifiedIdColumn school_id_col);;
  let all_cols := columns df in
  cols_to_extract ←
    match band_loop 0 all_cols None None with
    | (Some start_idx, Some end_idx) =>
        let cols :=
          [school_id_col]
            ++ List.map Some (slice all_cols start_idx (end_idx + 1)) in
        emit (ExtractingBand start_idx end_idx (Z.of_nat (length cols) - 1));;
        mret cols
    | _ => emit BandNotFound;; mret [school_id_col]
    end;
  df_roll ← lift (select df cols_to_extract);
  let df_roll := rename_column school_id_col (u "School_Id") df_roll in
  i ← lift (column_index df_roll (u "School_Id"));
  let df_roll := set_series df_roll i to_numeric in
  let df_roll := dropna df_roll i in
  df_roll ← lift (astype_int_column df_roll i);
  emit (LoadedSchools (length (rows df_roll)));;
  mret df_roll.

(** [except Exception as e: raise RuntimeError(...)] *)
Definition load_roll_data (roll_file : outcome workbook)
    (selected_year : Z) : logM DataFrame := fun lg =>
  match load_roll_data_body roll_file selected_year lg with
  | (Raise e, lg') => (Raise (RollLoadFailure e), lg')
  | r => r
  end.
End Extractor.

(* ===================================================================== *)
(** * The reconciler *)
(* ===================================================================== *)

Section Reconciler.
(** Python's [int(s)] on a text: the integer it reads, if it reads one. *)
Context (py_int : str -> option Z).

(** [series.astype(int)] on one cell: a text goes through [int]; a number
    is cast as in a numeric column. *)
Definition cell_as_int (c : cell) : outcome Z :=
  match c with
  | CStr s => match py_int s with Some z => Ok z | None => Raise ValueError end
  | _ => number_as_int c
  end.

Fixpoint astype_int (col : list cell) : outcome (list Z) :=
  match col with
  | [] => Ok []
  | c :: col' => z ← cell_as_int c; zs ← astype_int col'; Ok (z :: zs)
  end.

(** [sorted(ids)] for a set of integers. *)
Definition sorted (ids : gset Z) : list Z := merge_sort Z.le (elements ids).

Definition INDICATOR : str := u "_merge".

(** The labels a merge with an indicator refuses in its frames. *)
Definition RESERVED : list str :=
  [u "_left_indicator"; u "_right_indicator"; INDICATOR].

Definition reserved (c : str) : bool := existsb (str_eqb c) RESERVED.

Definition is_text (c : cell) : bool :=
  match c with CStr _ => true | _ => false end.

Definition is_integer (c : cell) : bool :=
  match c with CInt _ => true | _ => false end.

(** A key column of texts (an object column without an integer in it)
    against a key column of numbers: the merge refuses the pair. *)
Definition text_keys (col : list cell) : bool :=
  existsb is_text col && negb (existsb is_integer col).

Definition number_keys (col : list cell) : bool :=
  negb (is_nil col) && negb (existsb is_text col).

Definition keys_clash (lk rk : list cell) : bool :=
  text_keys lk && number_keys rk || number_keys lk && text_keys rk.

(** Whether the suffixes have made a label of one side equal to an
    earlier label of that side which it did not repeat before. *)
Fixpoint made_duplicates (orig renamed seen_orig seen_renamed : list str)
    : bool :=
  match orig, renamed with
  | o :: orig', r :: renamed' =>
      existsb (str_eqb r) seen_renamed && negb (existsb (str_eqb o) seen_orig)
      || made_duplicates orig' renamed' (o :: seen_orig) (r :: seen_renamed)
  | _, _ => false
  end.
Definition BOTH : cell := CStr (u "both").
Definition LEFT_ONLY : cell := CStr (u "left_only").

(** The label of a column of one side in the merged frame: a label the
    two sides share outside the key takes the side's suffix. *)
Definition suffixed (key : str) (other : list str) (suffix : str)
    (c : str) : str :=
  if negb (str_eqb c key) && existsb (str_eqb c) other then c ++ suffix
  else c.

(** The cells of a row outside position [k]. *)
Definition without {A} (k : nat) (r : list A) : list A :=
  take k r ++ drop (S k) r.

(** The rows one row of the left frame gives: one per row of the right
    frame with the same key, in the right frame's order, or one filled
    with missing values when there is none. *)
Definition join_row (kl kr width : nat) (right_rows : list (list cell))
    (l : list cell) : list (list cell) :=
  match List.filter (fun r => cell_eqb (cell_at r kr) (cell_at l kl))
          right_rows with
  | [] => [l ++ replicate (width - 1) CNaN ++ [LEFT_ONLY]]
  | ms =>
      List.map
        (fun r =>
           l ++ without kr (List.map (cell_at r) (seq 0 width)) ++ [BOTH])
        ms
  end.

(** [left.merge(right, on=key, how='left', indicator=True)]: the keys are
    found and checked against each other, then the labels the indicator
    needs, then the labels the suffixes give. *)
Definition merge_left (left right : DataFrame) (key : str)
    : outcome DataFrame :=
  kl ← column_index left key;
  kr ← column_index right key;
  if keys_clash (series left kl) (series right kr) then Raise ValueError
  else if existsb reserved (columns left ++ columns right)
  then Raise ValueError
  else
    let llabels :=
      List.map (suffixed key (columns right) (u "_x")) (columns left) in
    let rlabels :=
      without kr
        (List.map (suffixed key (columns left) (u "_y")) (columns right)) in
    if made_duplicates (columns left) llabels [] []
       || made_duplicates (without kr (columns right)) rlabels [] []
    then Raise MergeError
    else
      let width := length (columns right) in
      Ok {| columns := llabels ++ rlabels ++ [INDICATOR];
            rows := List.flat_map (join_row kl kr width (rows right))
                      (rows left) |}.

(** [len(df[df[label] == value])] for the column at position [i]. *)
Definition count_where (df : DataFrame) (i : nat) (value : cell) : nat :=
  length (List.filter (fun r => cell_eqb (cell_at r i) value) (rows df)).

(** [df.drop(label, axis=1)] for the column at position [i]. *)
Definition drop_column (df : DataFrame) (i : nat) : DataFrame :=
  {| columns := without i (columns df);
     rows := List.map (without i) (rows df) |}.

Definition match_schools_with_rolls (df_schools df_rolls : DataFrame)
    : logM DataFrame :=
  emit (Matching (length (rows df_schools)) (length (rows df_rolls)));;
  ia ← lift (column_index df_schools (u "School_Id"));
  api_ints ← lift (astype_int (series df_schools ia));
  let api_school_ids : gset Z := list_to_set api_ints in
  ir ← lift (column_index df_rolls (u "School_Id"));
  roll_ints ← lift (astype_int (series df_rolls ir));
  let roll_school_ids : gset Z := list_to_set roll_ints in
  let schools_only_in_roll := roll_school_ids ∖ api_school_ids in
  let schools_only_in_api := api_school_ids ∖ roll_school_ids in
  (if is_nil (elements schools_only_in_roll) then mret tt
   else emit (OnlyInRoll (sorted schools_only_in_roll)));;
  (if is_nil (elements schools_only_in_api) then mret tt
   else emit (OnlyInApi (sorted schools_only_in_api)));;
  df_merged ← lift (merge_left df_schools df_rolls (u "School_Id"));
  im ← lift (column_index df_merged INDICATOR);
  let matched_count := count_where df_merged im BOTH in
  let unmatched_count := count_where df_merged im LEFT_ONLY in
  emit (MatchCounts matched_count unmatched_count);;
  mret (drop_column df_merged im).
End Reconciler.

(* ===================================================================== *)
(** * The exporters *)
(* ===================================================================== *)

(** The nine characters of the class the exporters replace: backslash,
    slash, colon, star, question mark, double quote, the two angle brackets
    and the bar. *)
Definition illegal_char (c : N) : bool :=
  existsb (N.eqb c) [92; 47; 58; 42; 63; 34; 60; 62; 124]%N.

(** [re.sub] of that class by an underscore. *)
Definition re_sub_illegal (s : str) : str :=
  List.map (fun c => if illegal_char c then 95%N else c) s.

(** [a or b] on strings. *)
Definition str_or (a b : str) : str := if is_nil a then b else a.

(** [FIELD_ALIASES.get(col, col)] *)
Fixpoint alias_in (aliases : list (str * str)) (col : str) : str :=
  match aliases with
  | [] => col
  | (k, v) :: aliases' => if str_eqb k col then v else alias_in aliases' col
  end.

Definition alias (col : str) : str := alias_in FIELD_ALIASES col.

(** The calls [export_excel_table] makes inside its [with pd.ExcelWriter]
    block: [df_export.to_excel(writer, index=False, sheet_name=...)],
    [worksheet.freeze_panes(row, col)] and
    [worksheet.add_table(first_row, first_col, last_row, last_col,
    {"header_row": True, ..., "columns": [{"header": h} for h in headers]})]. *)
Inductive sheet_call : Type :=
| to_excel (sheet_name : str) (table : DataFrame)
| freeze_panes (row col : Z)
| add_table (first_row first_col last_row last_col : Z)
    (headers : list str).

(** What an exporter hands to the library that writes the file at a path:
    for the CSV, the frame [to_csv] is called on; for the workbook, the
    calls made on the writer, in the order they are made.  This is a record
    of the requests, not of the workbook: what XlsxWriter does with them
    (the header cells [add_table] writes over those of [to_excel], the
    table it refuses for a range without a data row) is the library's and
    is not modelled. *)
Inductive file_content : Type :=
| CsvFile (table : DataFrame)
| XlsxCalls (calls : list sheet_call).

Inductive export_log : Type :=
| CsvSaved (path : str)
| ExcelSaved (path : str).

Section Exporter.
(** The file system and the two operations the exporters use on it; each
    may fail with an [OSError].  [path_join] is [os.path.join]. *)
Context {FS : Type}.
Context (makedirs : str -> FS -> outcome unit * FS).
Context (write_file : str -> file_content -> FS -> outcome unit * FS).
Context (path_join : str -> str -> str).
(** Whether [import xlsxwriter] succeeds. *)
Context (xlsxwriter_installed : bool).

(** The objects of the Python heap that are frames, the file system and
    the log. *)
Record world : Type := mkWorld {
  frames : gmap positive DataFrame;
  files : FS;
  exported : list export_log
}.

Abbreviation exportM := (prog world).

Definition on_files (f : FS -> outcome unit * FS) : exportM unit := fun w =>
  let '(r, fs') := f (files w) in
  (r, {| frames := frames w; files := fs'; exported := exported w |}).

Definition log_export (r : export_log) : exportM unit := fun w =>
  (Ok tt, {| frames := frames w; files := files w;
             exported := exported w ++ [r] |}).

(** Reading the frame a reference points to. *)
Definition deref (df : positive) : exportM DataFrame := fun w =>
  match frames w !! df with
  | Some d => (Ok d, w)
  | None => (Raise AttributeError, w)
  end.

(** A new frame object. *)
Definition alloc (d : DataFrame) : exportM positive := fun w =>
  let l := fresh (dom (frames w)) in
  (Ok l, {| frames := <[l := d]> (frames w); files := files w;
            exported := exported w |}).

(** [df.copy()] *)
Definition df_copy (df : positive) : exportM positive :=
  d ← deref df; alloc d.

(** [df.rename(columns={col: alias(col) for col in df.columns})], which
    returns a new frame. *)
Definition df_rename_aliases (df : positive) : exportM positive :=
  d ← deref df;
  alloc {| columns := List.map alias (columns d); rows := rows d |}.

Definition export_csv (df : positive) (out_dir base_name : str)
    : exportM str :=
  on_files (makedirs out_dir);;
  let base :=
    str_or (strip (re_sub_illegal base_name)) (u "schools_filtered") in
  let csv_path := path_join out_dir (base ++ u ".csv") in
  df_export ← df_copy df;
  df_export ← df_rename_aliases df_export;
  d ← deref df_export;
  on_files (write_file csv_path (CsvFile d));;
  log_export (CsvSaved csv_path);;
  mret csv_path.

Definition export_excel_table (df : positive) (out_dir base_name : str)
    : exportM str :=
  if negb xlsxwriter_installed then raise ImportError
  else
    on_files (makedirs out_dir);;
    let base :=
      str_or (strip (re_sub_illegal base_name)) (u "schools_filtered") in
    let xlsx_path := path_join out_dir (base ++ u ".xlsx") in
    df_export ← df_copy df;
    df_export ← df_rename_aliases df_export;
    let aliased_fields := List.map alias FIELDS in
    d ← deref df_export;
    let nrows := Z.of_nat (length (rows d)) in
    let ncols := Z.of_nat (length (columns d)) in
    on_files
      (write_file xlsx_path
         (XlsxCalls [to_excel (u "Schools") d;
                     freeze_panes 1 0;
                     add_table 0 0 nrows (ncols - 1) aliased_fields]));;
    log_export (ExcelSaved xlsx_path);;
    mret xlsx_path.
End Exporter.

(* ===================================================================== *)
(** * Vocabulary of the properties *)
(* ===================================================================== *)

(** The values the normaliser replaces: [None], a text that is empty once
    trimmed, an empty list, an empty object. *)
Definition blank (v : json) : bool :=
  match v with
  | JNull => true
  | JStr s => is_nil (strip s)
  | JList l => is_nil l
  | JObj d => is_nil d
  | _ => false
  end.

(** The values that are neither [None], nor a text, nor a list or object. *)
Definition is_scalar (v : json) : bool :=
  match v with
  | JBool _ | JInt _ | JFloat _ | JNonFinite _ => true
  | _ => false
  end.

(** What a value that is kept looks like: a text is trimmed, anything else
    is the value itself. *)
Definition trimmed (v : json) : json :=
  match v with
  | JStr s => JStr (strip s)
  | _ => v
  end.

(** The body of a page response that succeeds, reports [total] and carries
    the batch [recs]. *)
Definition page_result (total : Z) (recs : list dict) : dict :=
  [ (u "total", JInt total); (u "records", JList (List.map JObj recs)) ].

Definition page_fields (total : Z) (recs : list dict) : dict :=
  [ (u "success", JBool true); (u "result", JObj (page_result total recs)) ].

Definition page_body (total : Z) (recs : list dict) : json :=
  JObj (page_fields total recs).






(** The total the fetcher reads from the first reply, when it gets as far
    as reading it. *)
Definition reported_total (r : reply) : option json :=
  match r with
  | Body (JObj d) =>
      match dict_get d (u "result") (JObj []) with
      | JObj res =>
          Some (py_or (dict_get res (u "total") JNull)
                  (dict_get res (u "records_total") JNull))
      | _ => None
      end
  | _ => None
  end.




(** The requests of a trace, in the order they were issued. *)
Definition requests_of (tr : list event) : list event :=
  List.filter is_request tr.

(** A reply whose body is an object with a false or absent [success]. *)
Definition flagged_failure (r : reply) : bool :=
  match r with
  | Body (JObj d) => negb (truthy (dict_get d (u "success") JNull))
  | _ => false
  end.




Section TurnOutcomes.
Context (srv : server) (rid : str) (limit : Z) (pause : Q).

(** The ways one turn of the loop can end: the result it hands over and
    the trace it leaves. *)
Inductive turn_outcome (total : json) (st : progress) (tr : list event)
    : outcome (progress + list dict) -> list event -> Prop :=
| turn_exit :
    int_lt (fetched st) total = Ok false ->
    turn_outcome total st tr (Ok (inr (projected st))) tr
| turn_no_request e :
    turn_outcome total st tr (Raise e) tr
| turn_flagged :
    int_lt (fetched st) total = Ok true ->
    flagged_failure (srv (requests_in tr) rid (offset st) limit) = true ->
    turn_outcome total st tr (Raise (SourceFailure (Some (offset st))))
      (tr ++ [Sleep pause; Request rid (offset st) limit])
| turn_raises e :
    int_lt (fetched st) total = Ok true ->
    flagged_failure (srv (requests_in tr) rid (offset st) limit) = false ->
    turn_outcome total st tr (Raise e) (tr ++ [Sleep pause; Request rid (offset st) limit])
| turn_break :
    int_lt (fetched st) total = Ok true ->
    flagged_failure (srv (requests_in tr) rid (offset st) limit) = false ->
    turn_outcome total st tr (Ok (inr (projected st)))
      (tr ++ [Sleep pause; Request rid (offset st) limit])
| turn_more recs :
    int_lt (fetched st) total = Ok true ->
    flagged_failure (srv (requests_in tr) rid (offset st) limit) = false ->
    recs <> [] ->
    turn_outcome total st tr
      (Ok (inl {| fetched := fetched st + Z.of_nat (length recs);
                  offset := offset st + Z.of_nat (length recs);
                  projected :=
                    projected st ++ List.map project_record recs |}))
      (tr ++ [Sleep pause; Request rid (offset st) limit]).

End TurnOutcomes.

(** No request of the trace was answered with a flagged failure. *)
Definition answered_well (srv : server) (tr : list event) : Prop :=
  forall k rid off lim,
    nth_error (requests_of tr) k = Some (Request rid off lim) ->
    flagged_failure (srv k rid off lim) = false.

(** The strings of a list differ from one another. *)
Fixpoint distinct (l : list str) : bool :=
  match l with
  | [] => true
  | x :: l' => negb (existsb (str_eqb x) l') && distinct l'
  end.

(** The base name both exporters give their file. *)
Definition sanitized_base (base_name : str) : str :=
  str_or (strip (re_sub_illegal base_name)) (u "schools_filtered").

(** C6 as the specification words its last scenario, for one base name: a
    name made of illegal characters only falls back to the default. *)
Definition falls_back_when_illegal (base_name : str) : Prop :=
  forallb illegal_char base_name = true ->
  sanitized_base base_name = u "schools_filtered".

Section ExporterVocabulary.
Context {FS : Type}.

(** A computation that leaves every frame object that exists as it is. *)
Definition keeps_frames {A} (m : prog (@world FS) A) : Prop :=
  forall w l d,
    frames w !! l = Some d -> frames (snd (m w)) !! l = Some d.

End ExporterVocabulary.

(** A file system for examples: the files written so far, most recent
    first; nothing fails. *)
Definition toy_makedirs (dir : str) (fs : list (str * file_content))
    : outcome unit * list (str * file_content) := (Ok tt, fs).

Definition toy_write_file (path : str) (c : file_content)
    (fs : list (str * file_content))
    : outcome unit * list (str * file_content) := (Ok tt, (path, c) :: fs).

Definition toy_path_join (dir name : str) : str := dir ++ u "/" ++ name.

(** The position of the first, and of the last, element a test accepts. *)
Fixpoint first_index {A} (f : A -> bool) (l : list A) : option nat :=
  match l with
  | [] => None
  | x :: l' => if f x then Some 0%nat else option_map S (first_index f l')
  end.

Fixpoint last_index {A} (f : A -> bool) (l : list A) : option nat :=
  match l with
  | [] => None
  | x :: l' =>
      match last_index f l' with
      | Some j => Some (S j)
      | None => if f x then Some 0%nat else None
      end
  end.

(** An integer that every numeric dtype holds as it is: a double holds it
    exactly and the cast to a 64-bit integer leaves it. *)
Definition safe_int (z : Z) : bool := (- 2 ^ 53 <=? z) && (z <=? 2 ^ 53).

Section ExtractorVocabulary.
Context (db : unicode_db) (to_numeric_text : str -> option number).

(** The band as the specification words it: from the first column whose
    letters are the start label to the first whose letters are the end
    label. *)
Definition band_between_first (cols : list str) : list str :=
  match first_index (is_start db) cols, first_index (is_end db) cols with
  | Some s, Some e => slice cols s (e + 1)
  | _, _ => []
  end.

(** The band between the last column whose letters are the start label and
    the last whose letters are the end label; its positions. *)
Definition band_positions (cols : list str) : list nat :=
  match last_index (is_start db) cols, last_index (is_end db) cols with
  | Some s, Some e => seq s (length (slice cols s (e + 1)))
  | _, _ => []
  end.

Definition band_between_last (cols : list str) : list str :=
  List.map (fun i => nth i cols []) (band_positions cols).

(** The position of a label among the columns. *)
Definition position_of (cols : list str) (c : str) : nat :=
  default 0%nat (first_index (fun x => str_eqb x c) cols).

(** The table extracted from a sheet whose identifier column is [c]: the
    identifier, read as a number, then the cells of the band, for the rows
    whose identifier reads as a number. *)
Definition extracted (sheet : DataFrame) (c : str) : DataFrame :=
  {| columns := u "School_Id" :: band_between_last (columns sheet);
     rows :=
       List.filter (fun r => negb (is_nan (cell_at r 0)))
         (List.map
            (fun r =>
               to_numeric to_numeric_text
                 (cell_at r (position_of (columns sheet) c))
               :: List.map (cell_at r) (band_positions (columns sheet)))
            (rows sheet)) |}.

(** The identifiers of the column [c] of a sheet are plain: each is
    missing or unreadable (its row is then dropped), or reads as a safe
    integer; none reads as an infinity. *)
Definition plain_identifier (v : cell) : bool :=
  match to_numeric to_numeric_text v with
  | CInt z => safe_int z
  | CNaN => true
  | _ => false
  end.

Definition plain_identifiers (sheet : DataFrame) (c : str) : Prop :=
  Forall (fun r =>
            plain_identifier (cell_at r (position_of (columns sheet) c))
            = true)
    (rows sheet).

(** C3 as the specification words it, for one sheet: what is extracted is
    the identifier followed by the band between the first occurrences. *)
Definition extracts_first_band (sheet : DataFrame) (year : Z) : Prop :=
  forall df lg,
    load_roll_data db to_numeric_text (Ok [(str_of_Z year, sheet)]) year []
      = (Ok df, lg) ->
    columns df = u "School_Id" :: band_between_first (columns sheet).

(** C7 as the specification words it, for one sheet: without one of the
    two labels the extractor still returns a table, with the identifier
    column only. *)
Definition degrades_gracefully (sheet : DataFrame) (year : Z) : Prop :=
  (forall col, In col (columns sheet) -> is_start db col = false) \/
  (forall col, In col (columns sheet) -> is_end db col = false) ->
  exists df lg,
    load_roll_data db to_numeric_text (Ok [(str_of_Z year, sheet)]) year []
      = (Ok df, lg) /\
    columns df = [u "School_Id"].

End ExtractorVocabulary.

(** What the extractor logs about the band of a sheet. *)
Definition band_record (db : unicode_db) (cols : list str) : log_record :=
  match last_index (is_start db) cols, last_index (is_end db) cols with
  | Some s, Some e =>
      ExtractingBand s e (Z.of_nat (length (slice cols s (e + 1))))
  | _, _ => BandNotFound
  end.

(** The sheet of the specification's example, with any rows. *)
Definition example_sheet (rows0 : list (list cell)) : DataFrame :=
  {| columns := [u "SchoolID"; u "AX"; u "AY"; u "AZ"; u "BM"; u "BN"];
     rows := rows0 |}.

(** A sheet in which the start label comes back after the end label, as
    when a workbook repeats a header and [read_excel] numbers the copy. *)
Definition repeated_label_sheet : DataFrame :=
  {| columns := [u "SchoolID"; u "AY"; u "AZ"; u "BM"; u "AY.1"];
     rows := [[CInt 1; CInt 5; CInt 6; CInt 7; CInt 8]] |}.

(** A sheet with a header row and no data, whose headers do not name the
    identifier. *)
Definition header_only_sheet : DataFrame :=
  {| columns := [u "Name"; u "Roll"]; rows := [] |}.

(** A table keyed for the reconciler: its one [School_Id] column, at
    position [i], holds the safe integers [ids], and no label of it is one
    the indicator of the merge reserves. *)
Definition keyed (df : DataFrame) (i : nat) (ids : list Z) : Prop :=
  column_index df (u "School_Id") = Ok i /\
  existsb reserved (columns df) = false /\
  series df i = List.map CInt ids /\
  Forall (fun z => safe_int z = true) ids.

(** The suffixes [_x] and [_y], given to the labels the two tables share
    outside the identifier, make a label of one table equal to another
    label of that table. *)
Definition suffixes_clash (registry rolls : DataFrame) (ir : nat) : bool :=
  made_duplicates (columns registry)
    (List.map (suffixed (u "School_Id") (columns rolls) (u "_x"))
       (columns registry)) [] []
  || made_duplicates (without ir (columns rolls))
       (without ir
          (List.map (suffixed (u "School_Id") (columns registry) (u "_y"))
             (columns rolls))) [] [].

Section ReconcilerVocabulary.
Context (registry rolls : DataFrame) (ia ir : nat).

(** The rows of the roll table with a given identifier, in table order. *)
Definition matching_rolls (key : cell) : list (list cell) :=
  List.filter (fun r => cell_eqb (cell_at r ir) key) (rows rolls).

(** The cells of a roll row outside the identifier. *)
Definition roll_cells (r : list cell) : list cell :=
  without ir (List.map (cell_at r) (seq 0 (length (columns rolls)))).

(** The empty marker for every roll column. *)
Definition no_roll_cells : list cell :=
  replicate (length (columns rolls) - 1) CNaN.

(** What one registry row becomes. *)
Definition joined (l : list cell) : list (list cell) :=
  match matching_rolls (cell_at l ia) with
  | [] => [l ++ no_roll_cells]
  | ms => List.map (fun r => l ++ roll_cells r) ms
  end.

(** What is attached to a registry row when at most one roll row has its
    identifier. *)
Definition attached (l : list cell) : list cell :=
  match matching_rolls (cell_at l ia) with
  | [] => no_roll_cells
  | r :: _ => roll_cells r
  end.

(** The reconciled table. *)
Definition reconciled : DataFrame :=
  {| columns :=
       List.map (suffixed (u "School_Id") (columns rolls) (u "_x"))
         (columns registry)
       ++ without ir
            (List.map (suffixed (u "School_Id") (columns registry) (u "_y"))
               (columns rolls));
     rows := List.flat_map joined (rows registry) |}.

End ReconcilerVocabulary.

(** The warnings about the two differences: none for an empty one. *)
Definition mismatch_report (only_roll only_api : list Z) : list log_record :=
  (if is_nil only_roll then [] else [OnlyInRoll only_roll])
  ++ (if is_nil only_api then [] else [OnlyInApi only_api]).

(** C2 as the specification words it, for one pair of tables: the output,
    cut to the registry's columns, is the registry, row for row. *)
Definition joins_each_row_once (py_int : str -> option Z)
    (registry rolls : DataFrame) : Prop :=
  forall df lg,
    match_schools_with_rolls py_int registry rolls [] = (Ok df, lg) ->
    List.map (take (length (columns registry))) (rows df) = rows registry.

(** The tables of the specification's scenario: identifiers 1, 2, 3 in the
    registry and 2, 3, 4 in the roll table. *)
Definition scenario_registry : DataFrame :=
  {| columns := [u "School_Id"; u "Org_Name"];
     rows := [[CInt 1; CStr (u "a")]; [CInt 2; CStr (u "b")];
              [CInt 3; CStr (u "c")]] |}.

Definition scenario_rolls : DataFrame :=
  {| columns := [u "School_Id"; u "AY"];
     rows := [[CInt 2; CInt 20]; [CInt 3; CInt 30]; [CInt 4; CInt 40]] |}.

(** A roll table in which the identifier 2 comes twice. *)
Definition repeated_rolls : DataFrame :=
  {| columns := [u "School_Id"; u "AY"];
     rows := [[CInt 2; CInt 20]; [CInt 3; CInt 30]; [CInt 2; CInt 21]] |}.

(* ===================================================================== *)
(** * The year list and the logger *)
(* ===================================================================== *)

(** [list(range(a, b))] *)
Definition py_range (a b : Z) : list Z :=
  List.map (fun i => a + Z.of_nat i) (seq 0 (Z.to_nat (b - a))).

(** What [get_available_years] sends to the logger. *)
Inductive years_log : Type :=
| AvailableYears (years : list Z).

(** [get_available_years], where [datetime.now().year] gave
    [current_year]. *)
Definition get_available_years (current_year : Z) : prog (list years_log) (list Z) :=
  fun lg =>
    let years := py_range ROLL_DATA_START_YEAR (current_year + 1) in
    (Ok years, lg ++ [AvailableYears years]).

(* ===================================================================== *)
(** * Vocabulary of the further properties *)
(* ===================================================================== *)

(** The trace of a fetch that asks for the first page and then, after a
    pause each time, for the pages at the offsets [offs]. *)
Definition paced (rid : str) (limit : Z) (pause : Q) (offs : list Z)
    : list event :=
  Request rid 0 limit
  :: List.flat_map (fun off => [Sleep pause; Request rid off limit]) offs.


(** A reply that is a failure of the transport. *)
Definition transport_failure (r : reply) : option exn :=
  match r with
  | Failed e => Some e
  | Body _ => None
  end.

(** No request of the trace met a failure of the transport. *)
Definition all_delivered (srv : server) (tr : list event) : Prop :=
  forall k rid off lim,
    nth_error (requests_of tr) k = Some (Request rid off lim) ->
    transport_failure (srv k rid off lim) = None.

(** The identifiers of the registry, one per row, that no row of the roll
    table carries. *)
Definition without_roll (api_ids roll_ids : list Z) : list Z :=
  List.filter (fun z => negb (existsb (Z.eqb z) roll_ids)) api_ids.

(** A table under the headers it is exported with. *)
Definition aliased (d : DataFrame) : DataFrame :=
  {| columns := List.map alias (columns d); rows := rows d |}.

(* ===================================================================== *)
(** * The logger and its text widget *)
(* ===================================================================== *)

(** [logging.DEBUG], [INFO], [WARNING] and [ERROR] as numbers and names. *)
Definition levelno (l : level) : Z :=
  match l with DEBUG => 10 | INFO => 20 | WARNING => 30 | ERROR => 40 end.

Definition levelname (l : level) : str :=
  match l with
  | DEBUG => u "DEBUG"
  | INFO => u "INFO"
  | WARNING => u "WARNING"
  | ERROR => u "ERROR"
  end.

(** A log record: its time as the date format prints it, its level and its
    message. *)
Record LogRecord : Type := mkLogRecord {
  asctime : str;
  record_level : level;
  message : str
}.

(** The formatter of [make_logger]: time, level name, level number in
    brackets, message, with bars between. *)
Definition format (record : LogRecord) : str :=
  asctime record ++ u " | " ++ levelname (record_level record) ++ u " ("
  ++ str_of_Z (levelno (record_level record)) ++ u ") | " ++ message record.

(** A Tk text widget: whether it takes edits, its text, and the index
    [see] was last asked to bring into view. *)
Inductive widget_state : Type := normal | disabled.

Record ScrolledText : Type := mkScrolledText {
  state : widget_state;
  text : str;
  seen : option nat
}.

Definition configure (s : widget_state) (t : ScrolledText) : ScrolledText :=
  {| state := s; text := text t; seen := seen t |}.

(** [insert(tk.END, chars)]: a disabled widget ignores it. *)
Definition insert_end (chars : str) (t : ScrolledText) : ScrolledText :=
  match state t with
  | normal => {| state := normal; text := text t ++ chars; seen := seen t |}
  | disabled => t
  end.

(** [see(tk.END)] *)
Definition see_end (t : ScrolledText) : ScrolledText :=
  {| state := state t; text := text t; seen := Some (length (text t)) |}.

(** A [TextHandler]: its level and the widget it writes to.  Every handler
    the program makes carries the formatter above. *)
Record TextHandler : Type := mkTextHandler {
  handler_level : Z;
  widget : positive
}.

Definition handler_eqb (a b : TextHandler) : bool :=
  (handler_level a =? handler_level b) && Pos.eqb (widget a) (widget b).

(** [TextHandler.emit] *)
Definition TextHandler_emit (th : TextHandler) (record : LogRecord)
    (widgets : gmap positive ScrolledText) : gmap positive ScrolledText :=
  let msg := format record in
  alter
    (fun t =>
       configure disabled
         (see_end (insert_end (msg ++ [10%N]) (configure normal t))))
    (widget th) widgets.

(** The logger named app, which [logging.getLogger] hands back at every
    call, and the widgets. *)
Record logging_state : Type := mkLogging {
  logger_level : Z;
  handlers : list TextHandler;
  widgets : gmap positive ScrolledText
}.

(** [logger.removeHandler(h)]: the first occurrence goes, if there is
    one. *)
Fixpoint removeHandler (h : TextHandler) (hs : list TextHandler)
    : list TextHandler :=
  match hs with
  | [] => []
  | x :: hs' => if handler_eqb x h then hs' else x :: removeHandler h hs'
  end.

(** [logger.addHandler(h)]: a handler is not added twice. *)
Definition addHandler (h : TextHandler) (hs : list TextHandler)
    : list TextHandler :=
  if existsb (handler_eqb h) hs then hs else hs ++ [h].

Definition level_map : list (str * level) :=
  [ (u "INFO", INFO); (u "WARNING", WARNING); (u "ERROR", ERROR);
    (u "DEBUG", DEBUG) ].

(** [level_map.get(level_name, logging.INFO)] *)
Fixpoint level_map_get (m : list (str * level)) (level_name : str)
    (default : level) : level :=
  match m with
  | [] => default
  | (k, v) :: m' =>
      if str_eqb k level_name then v else level_map_get m' level_name default
  end.

Definition make_logger (text_widget : positive) (level_name : str)
    (st : logging_state) : logging_state :=
  let hs :=
    fold_left (fun hs h => removeHandler h hs) (handlers st) (handlers st) in
  let th :=
    {| handler_level := levelno (level_map_get level_map level_name INFO);
       widget := text_widget |} in
  {| logger_level := levelno DEBUG;
     handlers := addHandler th hs;
     widgets := widgets st |}.

(** [logger.debug], [info], [warning] and [error]: a record the logger's
    level lets through goes to every handler whose level lets it
    through. *)
Definition log (record : LogRecord) (st : logging_state) : logging_state :=
  if logger_level st <=? levelno (record_level record) then
    {| logger_level := logger_level st;
       handlers := handlers st;
       widgets :=
         fold_left
           (fun ws h =>
              if handler_level h <=? levelno (record_level record)
              then TextHandler_emit h record ws else ws)
           (handlers st) (widgets st) |}
  else st.

(* ===================================================================== *)
(** * The generate action: the files it checks and the errors it shows *)
(* ===================================================================== *)

(** The files [on_generate] looks for before it starts, for the two
    export choices. *)
Definition files_to_check (path_join : str -> str -> str)
    (out_dir base_name : str) (var_csv var_excel : bool) : list str :=
  let base :=
    str_or (strip (re_sub_illegal base_name)) (u "schools_filtered") in
  (if var_csv then [path_join out_dir (base ++ u ".csv")] else [])
  ++ (if var_excel then [path_join out_dir (base ++ u ".xlsx")] else []).

(** The dialogs of the [except] clauses of [on_generate]. *)
Inductive dialog : Type :=
| HttpErrorDialog
| ConnectionErrorDialog
| TimeoutErrorDialog
| DependencyErrorDialog
| ErrorDialog.

(** The [except] clauses, in their order: the text of the status label
    and the dialog shown. *)
Definition on_generate_except (e : exn) : str * dialog :=
  match e with
  | HTTPError => (u "Error.", HttpErrorDialog)
  | ConnectionError => (u "Error.", ConnectionErrorDialog)
  | Timeout => (u "Error.", TimeoutErrorDialog)
  | ImportError => (u "Dependency error.", DependencyErrorDialog)
  | _ => (u "Error.", ErrorDialog)
  end.

(* ===================================================================== *)
(** * The year list of the window *)
(* ===================================================================== *)

(** A combobox: the values it offers and the one it shows. *)
Record Combobox : Type := mkCombobox {
  values : list str;
  current : str
}.

(** [sep.join(parts)] *)
Fixpoint join (sep : str) (parts : list str) : str :=
  match parts with
  | [] => []
  | [p] => p
  | p :: parts' => p ++ sep ++ join sep parts'
  end.

(** [str(years)] for a list of integers. *)
Definition repr_list (years : list Z) : str :=
  u "[" ++ join (u ", ") (List.map str_of_Z years) ++ u "]".

(** The record the logger makes of what [get_available_years] sends it,
    at the time [now]. *)
Definition years_record (now : str) (r : years_log) : LogRecord :=
  match r with
  | AvailableYears years =>
      {| asctime := now; record_level := DEBUG;
         message := u "Available roll data years: " ++ repr_list years |}
  end.

(** [update_year_combobox], where the clock gave [current_year]: the
    handler is made anew at level INFO, the years are listed, and the
    combobox is filled and set to the last of them.  The second component
    tells whether the error dialog was shown. *)
Definition update_year_combobox (txt_logs : positive) (current_year : Z)
    (now : str) (cbo_roll_year : Combobox) (st : logging_state)
    : Combobox * bool * logging_state :=
  let logger := make_logger txt_logs (u "INFO") st in
  let '(r, sent) := get_available_years current_year [] in
  let logger := fold_left (fun s x => log (years_record now x) s) sent logger in
  match r with
  | Ok years =>
      let year_strs := List.map str_of_Z years in
      let cbo := {| values := year_strs; current := current cbo_roll_year |} in
      let cbo :=
        if is_nil year_strs then cbo
        else {| values := values cbo; current := List.last year_strs [] |} in
      (cbo, false, logger)
  | _ => (cbo_roll_year, true, logger)
  end.

(* ===================================================================== *)
(** * Properties of the record normaliser *)
(* ===================================================================== *)

Section StripFacts.

Lemma lstrip_fixed (s : str) :
  (forall c t, s = c :: t -> isspace c = false) -> lstrip s = s.
Proof.
  destruct s as [|c t]; [reflexivity|].
  intros H. simpl. now rewrite (H c t eq_refl).
Qed.

Lemma lstrip_head (s : str) c t : lstrip s = c :: t -> isspace c = false.
Proof.
  induction s as [|a s IH]; simpl; [discriminate|].
  destruct (isspace a) eqn:Ha; [exact IH|].
  intros [= <- _]. exact Ha.
Qed.

Lemma lstrip_suffix (s : str) : exists ws, s = ws ++ lstrip s.
Proof.
  induction s as [|a s [ws IH]]; simpl.
  - now exists [].
  - destruct (isspace a).
    + exists (a :: ws). simpl. now f_equal.
    + now exists [].
Qed.

Lemma strip_head (s : str) c t : strip s = c :: t -> isspace c = false.
Proof.
  unfold strip, rstrip. intros H.
  destruct (lstrip_suffix (rev (lstrip s))) as [ws Hws].
  apply (f_equal (@rev N)) in Hws.
  rewrite rev_involutive, rev_app_distr, H in Hws. simpl in Hws.
  now apply lstrip_head in Hws.
Qed.

Lemma strip_last (s : str) c t : strip s = t ++ [c] -> isspace c = false.
Proof.
  unfold strip, rstrip. intros H.
  apply (f_equal (@rev N)) in H.
  rewrite rev_involutive, rev_app_distr in H. simpl in H.
  now apply lstrip_head in H.
Qed.

(** Trimming a trimmed text changes nothing. *)
Lemma strip_idempotent (s : str) : strip (strip s) = strip s.
Proof.
  assert (Hl : lstrip (strip s) = strip s).
  { apply lstrip_fixed. intros c t. apply strip_head. }
  unfold strip at 1. rewrite Hl. unfold rstrip.
  rewrite lstrip_fixed; [apply rev_involutive|].
  intros c t Hc. apply (strip_last s c (rev t)).
  apply (f_equal (@rev N)) in Hc. rewrite rev_involutive in Hc.
  now rewrite Hc.
Qed.

End StripFacts.

Lemma str_eqb_eq (a b : str) : str_eqb a b = true <-> a = b.
Proof.
  revert b. induction a as [|x a IH]; intros [|y b]; simpl;
    try (split; (reflexivity || discriminate)).
  rewrite andb_true_iff, N.eqb_eq, IH. split.
  - now intros [-> ->].
  - now intros [= -> ->].
Qed.

Lemma str_eqb_refl (a : str) : str_eqb a a = true.
Proof. now apply str_eqb_eq. Qed.

Lemma str_eqb_neq (a b : str) : str_eqb a b = false <-> a <> b.
Proof.
  rewrite <- str_eqb_eq. destruct (str_eqb a b); split; congruence.
Qed.

Lemma existsb_str_eqb (k : str) (l : list str) :
  existsb (str_eqb k) l = true <-> In k l.
Proof.
  rewrite List.existsb_exists. split.
  - intros (x & Hx & E). apply str_eqb_eq in E. now subst.
  - intros H. exists k. split; [assumption|apply str_eqb_refl].
Qed.

Lemma distinct_NoDup (l : list str) : distinct l = true -> List.NoDup l.
Proof.
  induction l as [|x l IH]; simpl; [constructor|].
  rewrite andb_true_iff, negb_true_iff. intros [Hx Hl].
  constructor; [|now apply IH].
  intros Hin. apply existsb_str_eqb in Hin. congruence.
Qed.

Lemma normalize_value_cases (v : json) :
  normalize_value v = if blank v then JStr placeholder else trimmed v.
Proof.
  destruct v; reflexivity.
Qed.

Lemma normalize_value_not_blank (v : json) : blank (normalize_value v) = false.
Proof.
  rewrite normalize_value_cases.
  destruct (blank v) eqn:Hb; [reflexivity|].
  destruct v; simpl in *; try reflexivity; try exact Hb.
  now rewrite strip_idempotent.
Qed.

Lemma FIELDS_distinct : distinct FIELDS = true.
Proof. vm_compute. reflexivity. Qed.

Lemma dict_set_fresh (d : dict) (k : str) (v : json) :
  existsb (str_eqb k) (List.map fst d) = false ->
  dict_set d k v = d ++ [(k, v)].
Proof.
  induction d as [|[k' v'] d IH]; simpl; [reflexivity|].
  rewrite orb_false_iff. intros [Hk Hd].
  assert (Hk' : str_eqb k' k = false).
  { apply str_eqb_neq. apply str_eqb_neq in Hk. congruence. }
  rewrite Hk'. f_equal. now apply IH.
Qed.

(** Setting keys that differ from one another and from those already there
    appends them in order. *)
Lemma fold_dict_set (g : str -> json) (keys : list str) :
  forall acc : dict,
    distinct (List.map fst acc ++ keys) = true ->
    fold_left (fun acc f => dict_set acc f (g f)) keys acc =
    acc ++ List.map (fun f => (f, g f)) keys.
Proof.
  induction keys as [|k keys IH]; intros acc Hd; simpl.
  - now rewrite List.app_nil_r.
  - assert (Hk : existsb (str_eqb k) (List.map fst acc) = false).
    { clear IH. induction acc as [|[k' v'] acc IHa]; simpl in *; [reflexivity|].
      apply andb_true_iff in Hd as [Hk' Hd].
      rewrite (IHa Hd), orb_false_r.
      apply negb_true_iff in Hk'. rewrite List.existsb_app in Hk'.
      apply orb_false_iff in Hk' as [_ Hk']. simpl in Hk'.
      apply orb_false_iff in Hk' as [Hk' _].
      apply str_eqb_neq. apply str_eqb_neq in Hk'. congruence. }
    rewrite (dict_set_fresh _ _ _ Hk), IH.
    + now rewrite <- List.app_assoc.
    + rewrite List.map_app, <- List.app_assoc. exact Hd.
Qed.

Lemma map_fst_pair {A B} (g : A -> B) (l : list A) :
  List.map fst (List.map (fun f => (f, g f)) l) = l.
Proof. induction l as [|x l IH]; simpl; [reflexivity|now rewrite IH]. Qed.

(** The comprehension over [FIELDS] sets 34 different keys, so it is the
    list of the fields with their normalised values. *)
Lemma project_record_unfold (rec : dict) :
  project_record rec =
  List.map (fun f => (f, normalize_value (dict_get rec f JNull))) FIELDS.
Proof.
  unfold project_record.
  exact (fold_dict_set (fun f => normalize_value (dict_get rec f JNull))
           FIELDS [] FIELDS_distinct).
Qed.

(** C9: [normalize_value] returns a value that is neither [None], nor a
    text, nor a list or object as it is; this covers the falsy scalars,
    the number 0 and the boolean [False], which never become ["-"]. *)
Theorem normalize_value_keeps_scalars (val : json) :
  is_scalar val = true ->
  normalize_value val = val /\ normalize_value val <> JStr placeholder.
Proof.
  destruct val; simpl; try discriminate; intros _; split;
    (reflexivity || discriminate).
Qed.

Lemma normalize_value_keeps_scalars_witness :
  (truthy (JInt 0) = false /\ normalize_value (JInt 0) = JInt 0) /\
  (truthy (JBool false) = false /\ normalize_value (JBool false) = JBool false).
Proof.
  split; (split; [reflexivity|]).
  - exact (proj1 (normalize_value_keeps_scalars (JInt 0) eq_refl)).
  - exact (proj1 (normalize_value_keeps_scalars (JBool false) eq_refl)).
Defined.

(** C4: for every raw record, [project_record] gives a record whose keys
    are exactly the 34 fields of [FIELDS], each once and in that order; no
    value of it is [None], a text that is empty once trimmed, or an empty
    list or object: such a raw value has become ["-"], a text is trimmed
    and any other value is the raw value unchanged. *)
Theorem project_record_fixed_fields (rec : dict) :
  List.map fst (project_record rec) = FIELDS /\
  length (project_record rec) = 34%nat /\
  List.NoDup (List.map fst (project_record rec)) /\
  forall f v, In (f, v) (project_record rec) ->
    blank v = false /\
    v = (let raw := dict_get rec f JNull in
         if blank raw then JStr placeholder else trimmed raw).
Proof.
  rewrite project_record_unfold.
  assert (Hk : List.map fst
            (List.map (fun f => (f, normalize_value (dict_get rec f JNull)))
               FIELDS) = FIELDS).
  { apply map_fst_pair. }
  split; [exact Hk|]. split; [now rewrite List.length_map|].
  split; [rewrite Hk; exact (distinct_NoDup _ FIELDS_distinct)|].
  intros f v H. apply List.in_map_iff in H as (f' & [= <- <-] & _).
  split; [apply normalize_value_not_blank|apply normalize_value_cases].
Qed.

Lemma project_record_fixed_fields_witness :
  let rec := [(u "Org_Name", JStr (u "  Kea School ")); (u "Fax", JStr (u " "));
              (u "Total", JInt 0); (u "Extra", JInt 1)] in
  In (u "Org_Name", JStr (u "Kea School")) (project_record rec) /\
  In (u "Fax", JStr (u "-")) (project_record rec) /\
  In (u "Total", JInt 0) (project_record rec) /\
  blank (JStr (u "Kea School")) = false.
Proof.
  intros rec.
  assert (H1 : In (u "Org_Name", JStr (u "Kea School")) (project_record rec)).
  { vm_compute. tauto. }
  split; [exact H1|].
  split; [vm_compute; tauto|]. split; [vm_compute; tauto|].
  exact (proj1 (proj2 (proj2 (proj2 (project_record_fixed_fields rec))) _ _ H1)).
Defined.

(* ===================================================================== *)
(** * Properties of the paginated fetcher *)
(* ===================================================================== *)

Section FetcherFacts.
Context (srv : server) (rid : str) (limit : Z) (pause : Q).

Local Abbreviation turn := (fetch_turn srv rid limit pause).
Local Abbreviation loop := (fetch_loop srv rid limit pause).

Ltac run_turn :=
  unfold fetch_turn, mbind, prog_bind, mret, prog_ret, lift, raise, sleep,
    fetch_page.


Lemma all_dicts_length l ds : all_dicts l = Ok ds -> length ds = length l.
Proof.
  revert ds. induction l as [|v l IH]; simpl; intros ds.
  - now intros [= <-].
  - destruct v; simpl; try discriminate.
    destruct (all_dicts l) as [ds'| |]; simpl; try discriminate.
    intros [= <-]. simpl. f_equal. now apply IH.
Qed.

Lemma all_dicts_objects (p : list dict) : all_dicts (List.map JObj p) = Ok p.
Proof.
  induction p as [|d p IH]; simpl; [reflexivity|]. now rewrite IH.
Qed.

(** What a batch that is iterated and counted looks like. *)
Lemma batch_counted v recs n :
  truthy v = true -> iter_records v = Ok recs -> py_len v = Ok n ->
  recs <> [] /\ n = Z.of_nat (length recs).
Proof.
  destruct v as [| | | | |s|l|d]; simpl; try discriminate.
  - destruct s; simpl; discriminate.
  - intros Ht Hr [= <-]. apply all_dicts_length in Hr. rewrite Hr.
    split; [|reflexivity].
    destruct l; [discriminate|]. destruct recs; [discriminate|discriminate].
  - destruct d; simpl; discriminate.
Qed.

Lemma fetch_turn_outcome total st tr :
  turn_outcome srv rid limit pause total st tr
    (fst (turn total st tr)) (snd (turn total st tr)).
Proof.
  run_turn.
  destruct (int_lt (fetched st) total) as [[|]| |] eqn:Hlt; simpl;
    try (constructor; fail).
  2:{ now constructor. }
  2:{ destruct total as [| | | |[| |]| | |]; simpl in Hlt; discriminate. }
  destruct (Qle_bool (0 # 1) pause); simpl; [|constructor].
  replace (requests_in (tr ++ [Sleep pause])) with (requests_in tr)
    by (unfold requests_in; rewrite List.filter_app, List.length_app;
        simpl; lia).
  replace ((tr ++ [Sleep pause]) ++ [Request rid (offset st) limit])
    with (tr ++ [Sleep pause; Request rid (offset st) limit])
    by (now rewrite <- List.app_assoc).
  destruct (srv (requests_in tr) rid (offset st) limit) as [j|e] eqn:Hrep;
    simpl.
  2:{ apply turn_raises; [assumption|now rewrite Hrep]. }
  destruct j as [| | | | | | |d]; simpl;
    try (apply turn_raises; [assumption|now rewrite Hrep]).
  destruct (truthy (dict_get d (u "success") JNull)) eqn:Hs; simpl.
  2:{ apply turn_flagged; [assumption|]. rewrite Hrep. simpl. now rewrite Hs. }
  assert (Hf : flagged_failure (srv (requests_in tr) rid (offset st) limit)
               = false).
  { rewrite Hrep. simpl. now rewrite Hs. }
  destruct (as_dict (dict_get d (u "result") (JObj []))) as [res| |] eqn:Hres;
    simpl; try (now apply turn_raises).
  2:{ destruct (dict_get d (u "result") (JObj [])); discriminate. }
  set (recs := py_or (dict_get res (u "records") (JList [])) (JList [])).
  destruct (truthy recs) eqn:Htr; simpl; [|now apply turn_break].
  destruct (iter_records recs) as [ds| |] eqn:Hit; simpl;
    try (now apply turn_raises).
  2:{ destruct recs as [| | | | |s|l|dd]; simpl in Hit; try discriminate.
      - destruct s; discriminate.
      - exfalso. clear -Hit. induction l as [|v l IH]; simpl in Hit;
          [discriminate|].
        destruct v; simpl in Hit; try discriminate.
        destruct (all_dicts l); simpl in Hit; try discriminate. now apply IH.
      - destruct dd; discriminate. }
  destruct (py_len recs) as [n| |] eqn:Hn; simpl;
    try (now apply turn_raises).
  2:{ destruct recs; discriminate. }
  destruct (batch_counted _ _ _ Htr Hit Hn) as [Hne ->].
  now apply turn_more.
Qed.

Lemma fetch_loop_step fuel total st tr :
  loop (S fuel) total st tr =
  match turn total st tr with
  | (Ok (inl st'), tr') => loop fuel total st' tr'
  | (Ok (inr result), tr') => (Ok result, tr')
  | (Raise e, tr') => (Raise e, tr')
  | (OutOfFuel, tr') => (OutOfFuel, tr')
  end.
Proof.
  cbn [fetch_loop]. unfold mbind, prog_bind.
  destruct (turn total st tr) as [[[st'|res]|e|] tr']; reflexivity.
Qed.


Local Abbreviation fetch_all := (fetch_all_projected_records srv rid limit pause).

Lemma requests_in_app tr tr' :
  requests_in (tr ++ tr') = (requests_in tr + requests_in tr')%nat.
Proof. unfold requests_in. now rewrite List.filter_app, List.length_app. Qed.

(** The first request of a fetch and what follows it. *)
Lemma fetch_all_outcome patience tr :
  let rep := srv (requests_in tr) rid 0 limit in
  let tr1 := tr ++ [Request rid 0 limit] in
  (flagged_failure rep = true /\
   fetch_all patience tr = (Raise (SourceFailure None), tr1)) \/
  (flagged_failure rep = false /\
   ((exists e, fetch_all patience tr = (Raise e, tr1)) \/
    (exists total st,
       (total = JNonFinite PosInf ->
        reported_total rep = Some (JNonFinite PosInf)) /\
       fetch_all patience tr
       = loop (S (remaining patience total (fetched st))) total st tr1))).
Proof.
  intros rep tr1. subst rep tr1.
  unfold fetch_all_projected_records, mbind, prog_bind, mret, prog_ret, lift,
    raise, fetch_page, reported_total.
  destruct (srv (requests_in tr) rid 0 limit) as [j|e]; cbv beta iota;
    [|right; split; [reflexivity|left; eauto]].
  destruct j as [| | | | | | |d]; cbn [as_dict flagged_failure];
    try solve [right; split; [reflexivity|left; eauto]].
  destruct (truthy (dict_get d (u "success") JNull)); cbn [negb];
    [|left; split; reflexivity].
  right; split; [reflexivity|].
  destruct (dict_get d (u "result") (JObj [])) as [| | | | | | |res];
    cbn [as_dict]; try solve [left; eauto].
  cbv zeta.
  set (records := py_or (dict_get res (u "records") (JList [])) (JList [])).
  destruct (iter_records records) as [ds|e|] eqn:Hit; [|left; eauto|].
  2:{ exfalso. destruct records as [| | | | |s0|l0|d0]; simpl in Hit;
        try discriminate.
      - destruct s0; discriminate.
      - clear -Hit. induction l0 as [|v0 l0 IH]; simpl in Hit;
          [discriminate|].
        destruct v0; simpl in Hit; try discriminate.
        destruct (all_dicts l0); simpl in Hit; try discriminate. now apply IH.
      - destruct d0; discriminate. }
  destruct (py_len records) as [n|e|] eqn:Hn;
    [|left; eauto|destruct records; discriminate].
  right. eexists _, (mkProgress n n _). split; [|reflexivity].
  destruct (py_or (dict_get res (u "total") JNull)
              (dict_get res (u "records_total") JNull));
    (discriminate || now intros ->).
Qed.




(** One turn when the count has reached the total: nothing is asked. *)
Lemma fetch_turn_exit total st tr :
  int_lt (fetched st) total = Ok false ->
  turn total st tr = (Ok (inr (projected st)), tr).
Proof. intros Hlt. run_turn. now rewrite Hlt. Qed.

(** The first response of a fetch that carries the batch [first]: the
    total is read and the loop is entered. *)
Lemma fetch_all_first patience d res first :
  srv 0%nat rid 0 limit = Body (JObj d) ->
  truthy (dict_get d (u "success") JNull) = true ->
  dict_get d (u "result") (JObj []) = JObj res ->
  dict_get res (u "records") (JList []) = JList (List.map JObj first) ->
  let n := Z.of_nat (length first) in
  let t0 := py_or (dict_get res (u "total") JNull)
              (dict_get res (u "records_total") JNull) in
  let total := match t0 with JNull => JInt n | _ => t0 end in
  fetch_all patience [] =
  loop (S (remaining patience total n)) total
    {| fetched := n; offset := n;
       projected := List.map project_record first |}
    [Request rid 0 limit].
Proof.
  intros Hsrv Hs Hres Hrec n t0 total. subst n t0 total.
  unfold fetch_all_projected_records, mbind, prog_bind, mret, prog_ret, lift,
    raise, fetch_page.
  change (requests_in []) with 0%nat. rewrite Hsrv.
  cbn [as_dict]. rewrite Hs. cbn [negb]. rewrite Hres. cbn [as_dict].
  cbv zeta. rewrite Hrec.
  assert (Hor : py_or (JList (List.map JObj first)) (JList [])
                = JList (List.map JObj first)) by (now destruct first).
  rewrite Hor. cbn [iter_records]. rewrite all_dicts_objects.
  cbn [py_len]. rewrite List.length_map. reflexivity.
Qed.

End FetcherFacts.





Section Failures.
Context (srv : server) (rid : str) (limit : Z) (pause : Q).

Lemma requests_of_turn tr p off :
  requests_of (tr ++ [Sleep p; Request rid off limit]) =
  requests_of tr ++ [Request rid off limit].
Proof. unfold requests_of. now rewrite List.filter_app. Qed.

Lemma requests_in_length tr : requests_in tr = length (requests_of tr).
Proof. reflexivity. Qed.

(** Where a request sits among those of a trace extended by one turn. *)
Lemma nth_request_turn tr p off k e :
  nth_error (requests_of (tr ++ [Sleep p; Request rid off limit])) k = Some e ->
  nth_error (requests_of tr) k = Some e \/
  (k = requests_in tr /\ e = Request rid off limit).
Proof.
  rewrite requests_of_turn, requests_in_length. intros H.
  destruct (Nat.lt_ge_cases k (length (requests_of tr))) as [Hk|Hk].
  - left. now rewrite List.nth_error_app1 in H.
  - right. rewrite List.nth_error_app2 in H by assumption.
    destruct (k - length (requests_of tr))%nat as [|[|n]] eqn:Hd;
      simpl in H; try discriminate.
    injection H as <-. split; [lia|reflexivity].
Qed.

Lemma answered_well_turn tr p off :
  answered_well srv tr ->
  flagged_failure (srv (requests_in tr) rid off limit) = false ->
  answered_well srv (tr ++ [Sleep p; Request rid off limit]).
Proof.
  intros Hc Hf k rid' o l Hk.
  apply nth_request_turn in Hk as [Hk|[-> [= -> -> ->]]]; eauto.
Qed.

(** A flagged failure met by the loop is the last thing that happens. *)
Lemma fetch_loop_flagged total fuel :
  forall st tr r tr',
    answered_well srv tr ->
    fetch_loop srv rid limit pause fuel total st tr = (r, tr') ->
    forall k rid' off lim,
      nth_error (requests_of tr') k = Some (Request rid' off lim) ->
      flagged_failure (srv k rid' off lim) = true ->
      (requests_in tr <= k)%nat /\
      r = Raise (SourceFailure (Some off)) /\
      length (requests_of tr') = S k.
Proof.
  induction fuel as [|fuel IH]; intros st tr r tr' Hc Hrun k rid' off lim Hk Hf.
  - injection Hrun as <- <-. rewrite (Hc _ _ _ _ Hk) in Hf. discriminate.
  - rewrite fetch_loop_step in Hrun.
    pose proof (fetch_turn_outcome srv rid limit pause total st tr) as Ho.
    destruct (fetch_turn srv rid limit pause total st tr) as [r1 tr1].
    simpl in Ho. inversion Ho; subst.
    + injection Hrun as <- <-. rewrite (Hc _ _ _ _ Hk) in Hf. discriminate.
    + injection Hrun as <- <-. rewrite (Hc _ _ _ _ Hk) in Hf. discriminate.
    + injection Hrun as <- <-.
      apply nth_request_turn in Hk as [Hk|[-> [= -> -> ->]]].
      * rewrite (Hc _ _ _ _ Hk) in Hf. discriminate.
      * rewrite requests_of_turn, List.length_app, requests_in_length.
        simpl. repeat split; [lia|lia].
    + injection Hrun as <- <-.
      pose proof (answered_well_turn tr pause (offset st) Hc H0) as Hc'.
      rewrite (Hc' _ _ _ _ Hk) in Hf. discriminate.
    + injection Hrun as <- <-.
      pose proof (answered_well_turn tr pause (offset st) Hc H0) as Hc'.
      rewrite (Hc' _ _ _ _ Hk) in Hf. discriminate.
    + pose proof (answered_well_turn tr pause (offset st) Hc H0) as Hc'.
      destruct (IH _ _ _ _ Hc' Hrun _ _ _ _ Hk Hf) as (Hle & Hr & Hlen).
      repeat split; try assumption.
      rewrite requests_in_app in Hle. lia.
Qed.

End Failures.

(** C5: when the response to any page request of a fetch, the first or a
    later one, carries a false or absent success flag, the fetch raises
    the fetcher's [RuntimeError]; the caller receives no list of records,
    whatever was fetched before, and no request follows the failing one. *)
Theorem failed_page_aborts_fetch (srv : server) (rid : str) (limit : Z)
    (pause : Q) (patience : nat) (r : outcome (list dict))
    (tr : list event) (k : nat) (rid' : str) (off lim : Z) :
  fetch_all_projected_records srv rid limit pause patience [] = (r, tr) ->
  nth_error (requests_of tr) k = Some (Request rid' off lim) ->
  flagged_failure (srv k rid' off lim) = true ->
  r = Raise (SourceFailure (if (k =? 0)%nat then None else Some off)) /\
  (forall recs, r <> Ok recs) /\
  length (requests_of tr) = S k.
Proof.
  intros Hrun Hk Hf.
  assert (H : r = Raise (SourceFailure (if (k =? 0)%nat then None else Some off))
              /\ length (requests_of tr) = S k).
  { destruct (fetch_all_outcome srv rid limit pause patience [])
      as [[Hfl E]|[Hfl [[e E]|(total & st & _ & E)]]];
      rewrite E in Hrun; change (requests_in []) with 0%nat in Hfl.
    - injection Hrun as <- <-.
      destruct k as [|[|k]]; try discriminate Hk. split; reflexivity.
    - injection Hrun as <- <-.
      destruct k as [|[|k]]; try discriminate Hk.
      injection Hk as <- <- <-. congruence.
    - assert (Hc : answered_well srv ([] ++ [Request rid 0 limit])).
      { intros [|[|n]] rid0 o l Hn; try discriminate Hn.
        now injection Hn as <- <- <-. }
      destruct (fetch_loop_flagged srv rid limit pause total _ _ _ _ _ Hc Hrun
                  _ _ _ _ Hk Hf) as (Hle & -> & Hlen).
      split; [|assumption].
      destruct k; [unfold requests_in in Hle; simpl in Hle; lia|reflexivity]. }
  destruct H as [-> Hlen]. repeat split; [discriminate|assumption].
Qed.

Lemma failed_page_aborts_fetch_witness :
  let r1 := [(u "School_Id", JInt 1)] in
  let srv : server := fun n _ _ _ =>
    match n with
    | O => Body (page_body 5 [r1])
    | _ => Body (JObj [(u "success", JBool false)])
    end in
  fetch_all_projected_records srv (u "r") 1000 (1 # 5) 0 [] =
    (Raise (SourceFailure (Some 1)),
     [Request (u "r") 0 1000; Sleep (1 # 5); Request (u "r") 1 1000]).
Proof.
  intros r1 srv.
  destruct (fetch_all_projected_records srv (u "r") 1000 (1 # 5) 0 [])
    as [r tr] eqn:E.
  assert (Htr : tr = [Request (u "r") 0 1000; Sleep (1 # 5);
                      Request (u "r") 1 1000]).
  { apply (f_equal snd) in E. simpl in E. rewrite <- E. vm_compute.
    reflexivity. }
  subst tr.
  destruct (failed_page_aborts_fetch srv (u "r") 1000 (1 # 5) 0 r _
              1%nat (u "r") 1 1000 E eq_refl eq_refl) as (-> & _ & _).
  reflexivity.
Defined.

Section Sessions.
Context (srv : server) (rid : str) (limit : Z) (pause : Q).

Lemma page_fields_success T p :
  truthy (dict_get (page_fields T p) (u "success") JNull) = true.
Proof. reflexivity. Qed.

Lemma page_fields_result T p :
  dict_get (page_fields T p) (u "result") (JObj []) = JObj (page_result T p).
Proof. reflexivity. Qed.

Lemma page_result_records T p :
  dict_get (page_result T p) (u "records") (JList []) =
  JList (List.map JObj p).
Proof. reflexivity. Qed.

Lemma page_result_total T p :
  dict_get (page_result T p) (u "total") JNull = JInt T.
Proof. reflexivity. Qed.

Lemma page_result_records_total T p :
  dict_get (page_result T p) (u "records_total") JNull = JNull.
Proof. reflexivity. Qed.

Lemma py_or_batch (l : list json) : py_or (JList l) (JList []) = JList l.
Proof. destruct l; reflexivity. Qed.










End Sessions.






(* ===================================================================== *)
(** * Properties of the exporters *)
(* ===================================================================== *)

Section SanitizeFacts.

Lemma illegal_not_space (c : N) : illegal_char c = true -> isspace c = false.
Proof.
  unfold illegal_char. simpl. intros H.
  repeat (apply orb_true_iff in H as [H|H];
          [apply N.eqb_eq in H; subst; reflexivity|]).
  discriminate.
Qed.

Lemma replaced_space (c : N) :
  isspace (if illegal_char c then 95%N else c) = isspace c.
Proof.
  destruct (illegal_char c) eqn:E; [|reflexivity].
  now rewrite (illegal_not_space c E).
Qed.

Lemma replaced_legal (c : N) :
  illegal_char (if illegal_char c then 95%N else c) = false.
Proof. destruct (illegal_char c) eqn:E; [reflexivity|exact E]. Qed.

Lemma lstrip_spaces (s : str) : forallb isspace s = true -> lstrip s = [].
Proof.
  induction s as [|c s IH]; simpl; [reflexivity|].
  rewrite andb_true_iff. intros [-> Hs]. now apply IH.
Qed.

Lemma strip_spaces (s : str) : forallb isspace s = true -> strip s = [].
Proof.
  intros H. unfold strip, rstrip. now rewrite (lstrip_spaces s H).
Qed.

Lemma lstrip_Forall (P : N -> Prop) (s : str) :
  Forall P s -> Forall P (lstrip s).
Proof.
  induction 1 as [|c s Hc Hs IH]; simpl; [constructor|].
  destruct (isspace c); [assumption|now constructor].
Qed.

Lemma strip_Forall (P : N -> Prop) (s : str) :
  Forall P s -> Forall P (strip s).
Proof.
  intros H. unfold strip, rstrip.
  apply List.Forall_rev, lstrip_Forall, List.Forall_rev, lstrip_Forall, H.
Qed.

(** A text that neither starts nor ends with a space is already trimmed. *)
Lemma strip_fixed (s : str) :
  (forall c t, s = c :: t -> isspace c = false) ->
  (forall c t, s = t ++ [c] -> isspace c = false) ->
  strip s = s.
Proof.
  intros Hh Hl. unfold strip, rstrip.
  rewrite (lstrip_fixed s Hh), lstrip_fixed; [apply List.rev_involutive|].
  intros c t Hc. apply (Hl c (rev t)).
  apply (f_equal (@rev N)) in Hc. rewrite List.rev_involutive in Hc.
  now rewrite Hc.
Qed.

Lemma strip_underscores (n : nat) :
  strip (List.repeat 95%N n) = List.repeat 95%N n.
Proof.
  apply strip_fixed.
  - intros c t H. destruct n; simpl in H; [discriminate|].
    now injection H as <- _.
  - intros c t H.
    assert (Hin : In c (List.repeat 95%N n)) by (rewrite H; apply List.in_app_iff; right; now left).
    apply List.repeat_spec in Hin. now subst.
Qed.

Lemma re_sub_all_illegal (s : str) :
  forallb illegal_char s = true ->
  re_sub_illegal s = List.repeat 95%N (length s).
Proof.
  induction s as [|c s IH]; simpl; [reflexivity|].
  rewrite andb_true_iff. intros [-> Hs]. f_equal. now apply IH.
Qed.

Lemma re_sub_spaces (s : str) :
  forallb isspace (re_sub_illegal s) = forallb isspace s.
Proof.
  induction s as [|c s IH]; simpl; [reflexivity|].
  now rewrite replaced_space, IH.
Qed.

Lemma re_sub_legal (s : str) :
  Forall (fun c => illegal_char c = false) (re_sub_illegal s).
Proof.
  induction s as [|c s IH]; simpl; constructor;
    [apply replaced_legal|assumption].
Qed.

End SanitizeFacts.

Section ExporterFacts.
Context {FS : Type}.
Context (makedirs : str -> FS -> outcome unit * FS).
Context (write_file : str -> file_content -> FS -> outcome unit * FS).
Context (path_join : str -> str -> str).
Context (xlsxwriter_installed : bool).

Local Abbreviation exportM := (prog (@world FS)).

Lemma keeps_ret {A} (a : A) : keeps_frames (mret a : exportM A).
Proof. intros w l d H. exact H. Qed.

Lemma keeps_raise {A} (e : exn) : keeps_frames (raise e : exportM A).
Proof. intros w l d H. exact H. Qed.

Lemma keeps_bind {A B} (m : exportM A) (f : A -> exportM B) :
  keeps_frames m -> (forall a, keeps_frames (f a)) -> keeps_frames (m ≫= f).
Proof.
  intros Hm Hf w l d H. unfold mbind, prog_bind.
  specialize (Hm w l d H).
  destruct (m w) as [[a|e|] w']; simpl in *; try assumption.
  now apply Hf.
Qed.

Lemma keeps_on_files (f : FS -> outcome unit * FS) : keeps_frames (on_files f).
Proof.
  intros w l d H. unfold on_files. now destruct (f (files w)).
Qed.

Lemma keeps_log (r : export_log) : keeps_frames (@log_export FS r).
Proof. intros w l d H. exact H. Qed.

Lemma keeps_deref (df : positive) : keeps_frames (@deref FS df).
Proof.
  intros w l d H. unfold deref. now destruct (frames w !! df).
Qed.

(** A new object never takes the place of an existing one. *)
Lemma keeps_alloc (d0 : DataFrame) : keeps_frames (@alloc FS d0).
Proof.
  intros w l d H. unfold alloc. simpl.
  rewrite lookup_insert_ne; [assumption|].
  intros <-.
  pose proof (is_fresh (dom (frames w))) as Hfresh.
  apply Hfresh, elem_of_dom. now exists d.
Qed.

Lemma keeps_copy (df : positive) : keeps_frames (@df_copy FS df).
Proof.
  apply keeps_bind; [apply keeps_deref|]. intros d. apply keeps_alloc.
Qed.

Lemma keeps_rename (df : positive) : keeps_frames (@df_rename_aliases FS df).
Proof.
  apply keeps_bind; [apply keeps_deref|]. intros d. apply keeps_alloc.
Qed.

Lemma export_csv_keeps df out_dir base_name :
  keeps_frames (export_csv makedirs write_file path_join df out_dir base_name).
Proof.
  unfold export_csv.
  repeat (apply keeps_bind; [|intros ?]);
    auto using keeps_on_files, keeps_copy, keeps_rename, keeps_deref,
      keeps_log, keeps_ret, keeps_alloc.
Qed.

Lemma export_excel_table_keeps df out_dir base_name :
  keeps_frames
    (export_excel_table makedirs write_file path_join xlsxwriter_installed
       df out_dir base_name).
Proof.
  unfold export_excel_table.
  destruct xlsxwriter_installed; simpl; [|apply keeps_raise].
  repeat (apply keeps_bind; [|intros ?]);
    auto using keeps_on_files, keeps_copy, keeps_rename, keeps_deref,
      keeps_log, keeps_ret, keeps_alloc.
Qed.

(** A computation that returns, when it returns, the value [a]. *)
Lemma bind_returns {A B} (m : exportM A) (f : A -> exportM B) (b : B) w :
  (forall a w', fst (f a w') = Ok b \/ forall b', fst (f a w') <> Ok b') ->
  fst ((m ≫= f) w) = Ok b \/ forall b', fst ((m ≫= f) w) <> Ok b'.
Proof.
  intros Hf. unfold mbind, prog_bind.
  destruct (m w) as [[a|e|] w']; simpl; try (right; discriminate).
  apply Hf.
Qed.

Lemma export_csv_path df out_dir base_name w p :
  fst (export_csv makedirs write_file path_join df out_dir base_name w) = Ok p ->
  p = path_join out_dir (sanitized_base base_name ++ u ".csv").
Proof.
  intros H.
  assert (Hp : fst (export_csv makedirs write_file path_join df out_dir
                      base_name w)
               = Ok (path_join out_dir (sanitized_base base_name ++ u ".csv"))
               \/ forall b', fst (export_csv makedirs write_file path_join df
                                    out_dir base_name w) <> Ok b').
  { unfold export_csv.
    repeat (apply bind_returns; intros ? ?). left. reflexivity. }
  destruct Hp as [Hp|Hp]; [congruence|]. now apply Hp in H.
Qed.

Lemma export_excel_table_path df out_dir base_name w p :
  fst (export_excel_table makedirs write_file path_join xlsxwriter_installed
         df out_dir base_name w) = Ok p ->
  p = path_join out_dir (sanitized_base base_name ++ u ".xlsx").
Proof.
  intros H.
  assert (Hp : fst (export_excel_table makedirs write_file path_join
                      xlsxwriter_installed df out_dir base_name w)
               = Ok (path_join out_dir (sanitized_base base_name ++ u ".xlsx"))
               \/ forall b', fst (export_excel_table makedirs write_file
                                    path_join xlsxwriter_installed df out_dir
                                    base_name w) <> Ok b').
  { unfold export_excel_table.
    destruct xlsxwriter_installed; simpl; [|right; discriminate].
    repeat (apply bind_returns; intros ? ?). left. reflexivity. }
  destruct Hp as [Hp|Hp]; [congruence|]. now apply Hp in H.
Qed.

End ExporterFacts.

(** C6 as worded fails: a base name made of two illegal characters becomes
    two underscores; it does not fall back to the default name. *)
Lemma illegal_name_does_not_fall_back : ~ falls_back_when_illegal (u "*?").
Proof.
  intros H. specialize (H eq_refl). vm_compute in H. discriminate.
Qed.

(** C6, amended: both exporters name their file after the same sanitised
    base name, in which each of the nine characters is replaced by an
    underscore and the white space around is trimmed; no illegal character
    is left in it, and sanitising [My:Export*2025] gives [My_Export_2025].
    The fallback to [schools_filtered] is for a base name that is empty or
    white space only; a base name made of illegal characters only, and not
    empty, becomes as many underscores. *)
Theorem sanitized_base_name {FS : Type}
    (makedirs : str -> FS -> outcome unit * FS)
    (write_file : str -> file_content -> FS -> outcome unit * FS)
    (path_join : str -> str -> str) (xlsxwriter_installed : bool)
    (df : positive) (out_dir base_name : str) (w : @world FS) :
  let base := sanitized_base base_name in
  (forall p,
     fst (export_csv makedirs write_file path_join df out_dir base_name w)
       = Ok p ->
     p = path_join out_dir (base ++ u ".csv")) /\
  (forall p,
     fst (export_excel_table makedirs write_file path_join
            xlsxwriter_installed df out_dir base_name w) = Ok p ->
     p = path_join out_dir (base ++ u ".xlsx")) /\
  Forall (fun c => illegal_char c = false) base /\
  (strip (re_sub_illegal base_name) <> [] ->
   base = strip (List.map (fun c => if illegal_char c then 95%N else c)
                   base_name)) /\
  (base_name <> [] -> forallb illegal_char base_name = true ->
   base = List.repeat 95%N (length base_name)) /\
  (forallb isspace base_name = true -> base = u "schools_filtered") /\
  sanitized_base (u "My:Export*2025") = u "My_Export_2025".
Proof.
  intros base. subst base.
  split; [intros p; apply export_csv_path|].
  split; [intros p; apply export_excel_table_path|].
  split.
  { unfold sanitized_base, str_or.
    destruct (is_nil (strip (re_sub_illegal base_name))).
    - unfold u. simpl. repeat (constructor; [reflexivity|]). constructor.
    - apply strip_Forall, re_sub_legal. }
  split.
  { intros Hne. unfold sanitized_base, str_or.
    fold (re_sub_illegal base_name).
    destruct (strip (re_sub_illegal base_name)); [congruence|reflexivity]. }
  split.
  { intros Hne Hill. unfold sanitized_base, str_or.
    rewrite (re_sub_all_illegal base_name Hill), strip_underscores.
    destruct base_name; [congruence|reflexivity]. }
  split.
  { intros Hsp. unfold sanitized_base, str_or.
    rewrite strip_spaces; [reflexivity|]. now rewrite re_sub_spaces. }
  vm_compute. reflexivity.
Qed.

Lemma sanitized_base_name_witness :
  sanitized_base (u "*?") = u "__" /\
  sanitized_base (u "  ") = u "schools_filtered" /\
  sanitized_base (u " a/b ") = u "a_b".
Proof.
  pose (w := {| frames := ∅; files := @nil (str * file_content);
                exported := [] |}).
  destruct (sanitized_base_name toy_makedirs toy_write_file toy_path_join true
              1%positive (u "out") (u "*?") w)
    as (_ & _ & _ & _ & Hill & _).
  destruct (sanitized_base_name toy_makedirs toy_write_file toy_path_join true
              1%positive (u "out") (u "  ") w)
    as (_ & _ & _ & _ & _ & Hsp & _).
  destruct (sanitized_base_name toy_makedirs toy_write_file toy_path_join true
              1%positive (u "out") (u " a/b ") w)
    as (_ & _ & _ & Hgen & _).
  split; [|split].
  - apply Hill; [discriminate|reflexivity].
  - apply Hsp. reflexivity.
  - rewrite Hgen; [vm_compute; reflexivity|vm_compute; discriminate].
Defined.

(** C10: [export_csv] and [export_excel_table] leave the table they are
    given as it was: after the call, whether it returned or raised, the
    frame object holds the same column names and the same cells.  The
    aliases are applied to a copy. *)
Theorem exporters_do_not_mutate_table {FS : Type}
    (makedirs : str -> FS -> outcome unit * FS)
    (write_file : str -> file_content -> FS -> outcome unit * FS)
    (path_join : str -> str -> str) (xlsxwriter_installed : bool)
    (df : positive) (d : DataFrame) (out_dir base_name : str)
    (w : @world FS) :
  frames w !! df = Some d ->
  frames (snd (export_csv makedirs write_file path_join df out_dir
                 base_name w)) !! df = Some d /\
  frames (snd (export_excel_table makedirs write_file path_join
                 xlsxwriter_installed df out_dir base_name w)) !! df = Some d.
Proof.
  intros H. split.
  - now apply export_csv_keeps.
  - now apply export_excel_table_keeps.
Qed.

Lemma exporters_do_not_mutate_table_witness :
  let d := {| columns := [u "School_Id"; u "AY"];
              rows := [[CInt 1; CInt 20]] |} in
  let w := {| frames := {[ 1%positive := d ]};
              files := @nil (str * file_content); exported := [] |} in
  let w' := snd (export_csv toy_makedirs toy_write_file toy_path_join
                   1%positive (u "out") (u "x") w) in
  frames w' !! 1%positive = Some d /\
  files w' = [(u "out/x.csv",
               CsvFile {| columns := [u "MoEID"; u "AY"];
                          rows := [[CInt 1; CInt 20]] |})].
Proof.
  intros d w w'. split.
  - apply (exporters_do_not_mutate_table toy_makedirs toy_write_file
             toy_path_join true 1%positive d (u "out") (u "x") w).
    vm_compute. reflexivity.
  - vm_compute. reflexivity.
Defined.

(* ===================================================================== *)
(** * Properties of the roll-band extractor *)
(* ===================================================================== *)

Section IndexFacts.
Context {A : Type} (f : A -> bool).

(** [last_index] is the position of the last element the test accepts. *)
Lemma last_index_spec (l : list A) (j : nat) :
  last_index f l = Some j ->
  (exists x, nth_error l j = Some x /\ f x = true) /\
  (forall k x, (j < k)%nat -> nth_error l k = Some x -> f x = false).
Proof.
  revert j. induction l as [|a l IH]; simpl; intros j; [discriminate|].
  destruct (last_index f l) as [j'|] eqn:E.
  - intros [= <-]. destruct (IH j' eq_refl) as [Hx Hlast]. split.
    + exact Hx.
    + intros [|k] x Hk; [lia|]. simpl. apply Hlast. lia.
  - destruct (f a) eqn:Ha; [|discriminate]. intros [= <-]. split.
    + exists a. now split.
    + intros [|k] x Hk; [lia|]. simpl. intros Hn.
      clear -E Hn. revert k Hn.
      induction l as [|b l IHl]; intros k Hn; [now destruct k|].
      simpl in E. destruct (last_index f l); [discriminate|].
      destruct (f b) eqn:Hb; [discriminate|].
      destruct k; simpl in Hn; [now injection Hn as <-|].
      now apply (IHl eq_refl k).
Qed.

Lemma last_index_none (l : list A) :
  (forall x, In x l -> f x = false) -> last_index f l = None.
Proof.
  induction l as [|a l IH]; simpl; intros H; [reflexivity|].
  rewrite IH by (intros x Hx; apply H; now right).
  now rewrite (H a (or_introl eq_refl)).
Qed.

Lemma last_index_bound (l : list A) (j : nat) :
  last_index f l = Some j -> (j < length l)%nat.
Proof.
  intros H. destruct (last_index_spec l j H) as [(x & Hx & _) _].
  apply List.nth_error_Some. congruence.
Qed.

End IndexFacts.

Lemma wrap64_safe (z : Z) : safe_int z = true -> wrap64 z = z.
Proof.
  unfold safe_int, wrap64. rewrite andb_true_iff, !Z.leb_le.
  change (2 ^ 53) with 9007199254740992.
  change (2 ^ 63) with 9223372036854775808.
  change (2 ^ 64) with 18446744073709551616.
  intros [Hlo Hhi]. rewrite Z.mod_small; lia.
Qed.

Lemma number_as_int_error (c : cell) (e : exn) :
  number_as_int c = Raise e -> e = ValueError.
Proof. destruct c; cbn [number_as_int]; congruence. Qed.

Lemma number_as_int_finishes (c : cell) : number_as_int c <> OutOfFuel.
Proof. destruct c; discriminate. Qed.

Lemma cast_rows_finishes (i : nat) (rs : list (list cell)) :
  cast_rows i rs <> OutOfFuel.
Proof.
  induction rs as [|r rs IH]; cbn [cast_rows]; [discriminate|].
  unfold mbind, outcome_bind.
  pose proof (number_as_int_finishes (cell_at r i)).
  destruct (number_as_int (cell_at r i)); try congruence.
  destruct (cast_rows i rs); (discriminate || congruence).
Qed.

(** One cell that is no finite number is enough for the cast to fail. *)
Lemma cast_rows_rejects (i : nat) (rs : list (list cell)) (r : list cell) :
  In r rs -> (forall z, number_as_int (cell_at r i) <> Ok z) ->
  cast_rows i rs = Raise ValueError.
Proof.
  intros Hin Hc. induction rs as [|x rs IH]; [contradiction|].
  cbn [cast_rows]. unfold mbind, outcome_bind.
  destruct (number_as_int (cell_at x i)) as [z|e|] eqn:Ex.
  - destruct Hin as [->|Hin]; [now elim (Hc z)|]. now rewrite (IH Hin).
  - now rewrite (number_as_int_error _ e Ex).
  - now elim (number_as_int_finishes (cell_at x i)).
Qed.

(** What the cast leaves when it goes through: the rows, with an integer in
    the column. *)
Lemma cast_rows_cells (i : nat) (rs : list (list cell)) :
  forall rs',
    cast_rows i rs = Ok rs' ->
    length rs' = length rs /\
    exists ids, List.map (fun r => cell_at r i) rs' = List.map CInt ids.
Proof.
  induction rs as [|r rs IH]; cbn [cast_rows]; intros rs'.
  - intros [= <-]. split; [reflexivity|now exists []].
  - unfold mbind, outcome_bind.
    destruct (number_as_int (cell_at r i)) as [z|e|] eqn:Ez; try discriminate.
    destruct (cast_rows i rs) as [rest|e|] eqn:Er; try discriminate.
    intros [= <-]. destruct (IH rest eq_refl) as (Hlen & ids & Hids).
    split; [cbn [length]; now rewrite Hlen|].
    exists (z :: ids). cbn [List.map]. rewrite Hids. f_equal.
    unfold cell_at in *. rewrite nth_lookup.
    destruct (decide (i < length r)%nat) as [Hi|Hi].
    + now rewrite list_lookup_insert_eq by exact Hi.
    + rewrite List.nth_overflow in Ez by lia. discriminate.
Qed.

Section ExtractorFacts.
Context (db : unicode_db) (to_numeric_text : str -> option number).

(** The loop without [break] keeps the last match of each label. *)
Lemma band_loop_last (cols : list str) :
  forall i s e,
    band_loop db i cols s e =
    (match last_index (is_start db) cols with
     | Some j => Some (i + j)%nat
     | None => s
     end,
     match last_index (is_end db) cols with
     | Some j => Some (i + j)%nat
     | None => e
     end).
Proof.
  induction cols as [|c cols IH]; intros i s e; simpl; [reflexivity|].
  rewrite IH.
  destruct (last_index (is_start db) cols), (last_index (is_end db) cols),
    (is_start db c), (is_end db c);
    (f_equal; (reflexivity || (f_equal; lia))).
Qed.

Lemma filter_label_absent (l : str) (cols : list str) :
  forall k,
    ~ In l cols ->
    List.filter (fun ic : nat * str => str_eqb (snd ic) l)
      (combine (seq k (length cols)) cols) = [].
Proof.
  induction cols as [|c cols IH]; intros k Hn; simpl; [reflexivity|].
  assert (Hc : str_eqb c l = false).
  { apply str_eqb_neq. intros ->. apply Hn. now left. }
  rewrite Hc. apply IH. intros Hin. apply Hn. now right.
Qed.

Lemma filter_label_once (l : str) (cols : list str) :
  forall k i,
    List.NoDup cols -> nth_error cols i = Some l ->
    List.map fst
      (List.filter (fun ic : nat * str => str_eqb (snd ic) l)
         (combine (seq k (length cols)) cols)) = [(k + i)%nat].
Proof.
  induction cols as [|c cols IH]; intros k i Hnd Hi; [now destruct i|].
  apply List.NoDup_cons_iff in Hnd as [Hc Hnd].
  destruct i as [|i]; simpl in *.
  - injection Hi as ->. rewrite str_eqb_refl. simpl.
    rewrite filter_label_absent by assumption. simpl. f_equal. lia.
  - assert (Hcl : str_eqb c l = false).
    { apply str_eqb_neq. intros ->. apply Hc.
      eapply List.nth_error_In; eassumption. }
    rewrite Hcl, (IH (S k) i Hnd Hi). f_equal. lia.
Qed.

(** With labels that differ, a label sits at one position. *)
Lemma positions_once (cols : list str) (i : nat) (l : str) :
  List.NoDup cols -> nth_error cols i = Some l -> positions cols l = [i].
Proof.
  intros Hnd Hi. unfold positions.
  now rewrite (filter_label_once l cols 0 i Hnd Hi).
Qed.

Lemma positions_head (c : str) (cols : list str) :
  ~ In c cols -> positions (c :: cols) c = [0%nat].
Proof.
  intros Hn. unfold positions. simpl. rewrite str_eqb_refl. simpl.
  now rewrite filter_label_absent.
Qed.

Lemma locate_positions (cols : list str) (idx : list nat) :
  List.NoDup cols ->
  Forall (fun i => (i < length cols)%nat) idx ->
  locate cols (List.map (fun i => Some (nth i cols [])) idx) = Ok idx.
Proof.
  intros Hnd. induction 1 as [|i idx Hi _ IH]; simpl; [reflexivity|].
  rewrite (positions_once cols i (nth i cols []) Hnd)
    by (now apply List.nth_error_nth').
  rewrite IH. reflexivity.
Qed.

Lemma take_nth (l : list str) :
  forall n,
    take n l = List.map (fun i => nth i l []) (seq 0 (length (take n l))).
Proof.
  induction l as [|x l IH]; intros n.
  - now rewrite take_nil.
  - destruct n as [|n]; [reflexivity|].
    cbn [take firstn length seq List.map nth]. f_equal.
    rewrite <- List.seq_shift, List.map_map. apply IH.
Qed.

Lemma nth_drop (l : list str) :
  forall s i, nth i (drop s l) [] = nth (s + i) l [].
Proof.
  induction l as [|x l IH]; intros s i.
  - rewrite drop_nil. now destruct i, s.
  - destruct s as [|s]; [reflexivity|]. apply IH.
Qed.

Lemma seq_from (s n : nat) : seq s n = List.map (Nat.add s) (seq 0 n).
Proof.
  induction s as [|s IH].
  - now rewrite List.map_id.
  - rewrite <- List.seq_shift, IH, List.map_map. reflexivity.
Qed.

(** A slice is made of the columns at successive positions. *)
Lemma slice_nth (cols : list str) (s e : nat) :
  slice cols s e =
  List.map (fun i => nth i cols []) (seq s (length (slice cols s e))).
Proof.
  unfold slice. rewrite (take_nth (drop s cols)) at 1.
  rewrite (seq_from s), List.map_map.
  apply List.map_ext. intros i. apply nth_drop.
Qed.

Lemma slice_bound (cols : list str) (s e : nat) :
  Forall (fun i => (i < length cols)%nat) (seq s (length (slice cols s e))).
Proof.
  apply List.Forall_forall. intros i Hi. apply List.in_seq in Hi.
  unfold slice in Hi. rewrite length_take, length_drop in Hi. lia.
Qed.

Lemma find_school_id_col_In (cols : list str) (c : str) :
  find_school_id_col db cols = Some c -> In c cols.
Proof.
  induction cols as [|x cols IH]; simpl; [discriminate|].
  destruct (names_school_id db x).
  - intros [= ->]. now left.
  - intros H. right. now apply IH.
Qed.

Lemma identify_school_id_col_In (df : DataFrame) (c : str) :
  identify_school_id_col db df = Some c -> In c (columns df).
Proof.
  unfold identify_school_id_col.
  destruct (find_school_id_col db (columns df)) as [c'|] eqn:E.
  - intros [= <-]. now apply find_school_id_col_In.
  - destruct (negb (df_empty df)); [|discriminate].
    destruct (columns df); simpl; [discriminate|].
    intros [= ->]. now left.
Qed.

Lemma first_index_label (cols : list str) (c : str) :
  In c cols ->
  exists j,
    first_index (fun x => str_eqb x c) cols = Some j /\
    nth_error cols j = Some c.
Proof.
  induction cols as [|x cols IH]; simpl; [tauto|].
  destruct (str_eqb x c) eqn:E.
  - intros _. exists 0%nat. apply str_eqb_eq in E. subst. now split.
  - intros [->|Hin]; [rewrite str_eqb_refl in E; discriminate|].
    destruct (IH Hin) as (j & -> & Hj). exists (S j). now split.
Qed.

Lemma position_of_nth (cols : list str) (c : str) :
  In c cols -> nth_error cols (position_of cols c) = Some c.
Proof.
  intros Hin. unfold position_of.
  destruct (first_index_label cols c Hin) as (j & -> & Hj). exact Hj.
Qed.

Lemma located_columns (cols : list str) (c : str) (idx : list nat) :
  List.NoDup cols -> In c cols ->
  Forall (fun i => (i < length cols)%nat) idx ->
  locate cols (Some c :: List.map Some (List.map (fun i => nth i cols []) idx))
  = Ok (position_of cols c :: idx).
Proof.
  intros Hnd Hin Hidx.
  pose proof (position_of_nth cols c Hin) as Hpos.
  assert (Hlt : (position_of cols c < length cols)%nat)
    by (apply List.nth_error_Some; congruence).
  rewrite <- (locate_positions cols (position_of cols c :: idx) Hnd)
    by (now constructor).
  simpl. rewrite List.map_map.
  now rewrite (List.nth_error_nth cols (position_of cols c) [] Hpos).
Qed.

(** Renaming the identifier leaves the other labels of the projection. *)
Lemma rename_band (c : str) (band : list str) :
  ~ In c band ->
  List.map (fun x => if str_eqb x c then u "School_Id" else x) band = band.
Proof.
  induction band as [|x band IH]; simpl; intros Hn; [reflexivity|].
  assert (E : str_eqb x c = false).
  { apply str_eqb_neq. intros ->. apply Hn. now left. }
  rewrite E, IH; [reflexivity|]. intros Hin. apply Hn. now right.
Qed.

(** The projection of a sheet on its identifier column and the columns at
    the positions [idx], as [load_roll_data] finishes it. *)
Lemma projection_finished (sheet : DataFrame) (c : str) (idx : list nat) :
  let band := List.map (fun i => nth i (columns sheet) []) idx in
  In c (columns sheet) -> ~ In c band -> ~ In (u "School_Id") band ->
  let df_roll :=
    rename_column (Some c) (u "School_Id")
      (take_columns sheet (position_of (columns sheet) c :: idx)) in
  column_index df_roll (u "School_Id") = Ok 0%nat /\
  dropna (set_series df_roll 0 (to_numeric to_numeric_text)) 0 =
  {| columns := u "School_Id" :: band;
     rows :=
       List.filter (fun r => negb (is_nan (cell_at r 0)))
         (List.map
            (fun r =>
               to_numeric to_numeric_text
                 (cell_at r (position_of (columns sheet) c))
               :: List.map (cell_at r) idx)
            (rows sheet)) |}.
Proof.
  intros band Hin Hc Hs df_roll.
  assert (Hcols : columns df_roll = u "School_Id" :: band).
  { subst df_roll. unfold rename_column, take_columns. cbn [columns List.map].
    rewrite (List.nth_error_nth _ _ [] (position_of_nth _ c Hin)).
    rewrite str_eqb_refl. f_equal. now apply rename_band. }
  split.
  - unfold column_index. rewrite Hcols. now rewrite positions_head.
  - unfold dropna, set_series. cbn [columns rows]. rewrite Hcols. f_equal.
    subst df_roll. unfold rename_column, take_columns. cbn [rows].
    rewrite List.map_map. reflexivity.
Qed.

(** The table the extractor has before the cast of line 255. *)
Lemma cast_extracted_plain (sheet : DataFrame) (c : str) :
  plain_identifiers to_numeric_text sheet c ->
  astype_int_column (extracted db to_numeric_text sheet c) 0
  = Ok (extracted db to_numeric_text sheet c).
Proof.
  intros Hplain. unfold astype_int_column, extracted, plain_identifiers in *.
  cbn [rows columns].
  set (pos := position_of (columns sheet) c) in *.
  set (band := band_positions db (columns sheet)).
  assert (Hrows :
    cast_rows 0
      (List.filter (fun r => negb (is_nan (cell_at r 0)))
         (List.map
            (fun r => to_numeric to_numeric_text (cell_at r pos)
                      :: List.map (cell_at r) band)
            (rows sheet)))
    = Ok (List.filter (fun r => negb (is_nan (cell_at r 0)))
            (List.map
               (fun r => to_numeric to_numeric_text (cell_at r pos)
                         :: List.map (cell_at r) band)
               (rows sheet)))).
  { induction Hplain as [|r rs Hr _ IH]; [reflexivity|].
    cbn [List.map List.filter]. unfold plain_identifier in Hr.
    change (cell_at (to_numeric to_numeric_text (cell_at r pos)
                     :: List.map (cell_at r) band) 0)
      with (to_numeric to_numeric_text (cell_at r pos)).
    destruct (to_numeric to_numeric_text (cell_at r pos)) as [z|neg|t|];
      try discriminate; cbn [is_nan negb]; [|exact IH].
    cbn [cast_rows]. rewrite IH.
    change (cell_at (CInt z :: List.map (cell_at r) band) 0) with (CInt z).
    cbn [number_as_int]. now rewrite (wrap64_safe z Hr). }
  now rewrite Hrows.
Qed.

Lemma cast_extracted_infinite (sheet : DataFrame) (c : str)
    (r : list cell) (negative : bool) :
  In r (rows sheet) ->
  to_numeric to_numeric_text (cell_at r (position_of (columns sheet) c))
  = CInf negative ->
  astype_int_column (extracted db to_numeric_text sheet c) 0
  = Raise ValueError.
Proof.
  intros Hin Hinf. unfold astype_int_column, extracted. cbn [rows columns].
  rewrite (cast_rows_rejects 0 _
             (CInf negative
              :: List.map (cell_at r) (band_positions db (columns sheet))));
    [reflexivity| |intros z; discriminate].
  apply List.filter_In. split; [|reflexivity].
  apply List.in_map_iff. exists r. now rewrite Hinf.
Qed.

(** What [load_roll_data] does for a sheet whose identifier column is
    found and stays apart from the band: it projects, converts, drops the
    rows without identifier, and casts. *)
Lemma load_roll_data_projected (wb : workbook) (year : Z)
    (sheet : DataFrame) (c : str) :
  sheet_named wb (str_of_Z year) = Some sheet ->
  List.NoDup (columns sheet) ->
  identify_school_id_col db sheet = Some c ->
  ~ In c (band_between_last db (columns sheet)) ->
  ~ In (u "School_Id") (band_between_last db (columns sheet)) ->
  let before :=
    [LoadingRollData year;
     LoadedSheet (length (rows sheet)) (length (columns sheet));
     IdentifiedIdColumn (Some c);
     band_record db (columns sheet)] in
  load_roll_data db to_numeric_text (Ok wb) year [] =
  match astype_int_column (extracted db to_numeric_text sheet c) 0 with
  | Ok df => (Ok df, before ++ [LoadedSchools (length (rows df))])
  | Raise e => (Raise (RollLoadFailure e), before)
  | OutOfFuel => (OutOfFuel, before)
  end.
Proof.
  intros Hsheet Hnd Hid Hc Hs.
  pose proof (identify_school_id_col_In sheet c Hid) as Hin.
  unfold extracted, band_record.
  unfold band_between_last in Hc, Hs |- *. unfold band_positions in *.
  unfold load_roll_data, load_roll_data_body, read_excel, select,
    mbind, prog_bind, outcome_bind, mret, prog_ret, emit, lift.
  rewrite Hsheet. cbv beta iota zeta. rewrite Hid, band_loop_last.
  destruct (last_index (is_start db) (columns sheet)) as [s|] eqn:Es;
    [destruct (last_index (is_end db) (columns sheet)) as [e|] eqn:Ee|].
  - cbv beta iota. cbn [Nat.add app].
    rewrite (slice_nth (columns sheet) s (e + 1)) at 1.
    rewrite (located_columns _ c _ Hnd Hin (slice_bound _ s (e + 1))).
    destruct (projection_finished sheet c
                (seq s (length (slice (columns sheet) s (e + 1)))) Hin Hc Hs)
      as [Hidx Hdf].
    cbv beta iota. rewrite Hidx. cbv beta iota. rewrite Hdf.
    cbn [length]. rewrite List.length_map.
    replace (Z.of_nat (S (length (slice (columns sheet) s (e + 1)))) - 1)
      with (Z.of_nat (length (slice (columns sheet) s (e + 1)))) by lia.
    destruct (astype_int_column _ 0) as [df|e0|]; reflexivity.
  - cbv beta iota. cbn [List.map].
    pose proof (located_columns _ c [] Hnd Hin (List.Forall_nil _)) as Hloc.
    cbn [List.map] in Hloc. rewrite Hloc.
    destruct (projection_finished sheet c [] Hin Hc Hs) as [Hidx Hdf].
    cbn [List.map] in Hdf.
    cbv beta iota. rewrite Hidx. cbv beta iota. rewrite Hdf.
    destruct (astype_int_column _ 0) as [df|e0|]; reflexivity.
  - cbv beta iota. cbn [List.map].
    pose proof (located_columns _ c [] Hnd Hin (List.Forall_nil _)) as Hloc.
    cbn [List.map] in Hloc. rewrite Hloc.
    destruct (projection_finished sheet c [] Hin Hc Hs) as [Hidx Hdf].
    cbn [List.map] in Hdf.
    cbv beta iota. rewrite Hidx. cbv beta iota. rewrite Hdf.
    destruct (last_index (is_end db) (columns sheet));
      destruct (astype_int_column _ 0) as [df|e0|]; reflexivity.
Qed.

(** What [load_roll_data] returns and logs for such a sheet when its
    identifiers are plain. *)
Lemma load_roll_data_extracted (wb : workbook) (year : Z)
    (sheet : DataFrame) (c : str) :
  sheet_named wb (str_of_Z year) = Some sheet ->
  List.NoDup (columns sheet) ->
  identify_school_id_col db sheet = Some c ->
  ~ In c (band_between_last db (columns sheet)) ->
  ~ In (u "School_Id") (band_between_last db (columns sheet)) ->
  plain_identifiers to_numeric_text sheet c ->
  load_roll_data db to_numeric_text (Ok wb) year [] =
  (Ok (extracted db to_numeric_text sheet c),
   [LoadingRollData year;
    LoadedSheet (length (rows sheet)) (length (columns sheet));
    IdentifiedIdColumn (Some c);
    band_record db (columns sheet);
    LoadedSchools (length (rows (extracted db to_numeric_text sheet c)))]).
Proof.
  intros Hsheet Hnd Hid Hc Hs Hplain.
  rewrite (load_roll_data_projected wb year sheet c Hsheet Hnd Hid Hc Hs).
  cbv zeta. now rewrite (cast_extracted_plain sheet c Hplain).
Qed.

(** An identifier that reads as an infinity passes the removal of the rows
    without identifier and is refused by the cast. *)
Lemma load_roll_data_infinite (wb : workbook) (year : Z)
    (sheet : DataFrame) (c : str) (r : list cell) (negative : bool) :
  sheet_named wb (str_of_Z year) = Some sheet ->
  List.NoDup (columns sheet) ->
  identify_school_id_col db sheet = Some c ->
  ~ In c (band_between_last db (columns sheet)) ->
  ~ In (u "School_Id") (band_between_last db (columns sheet)) ->
  In r (rows sheet) ->
  to_numeric to_numeric_text (cell_at r (position_of (columns sheet) c))
  = CInf negative ->
  fst (load_roll_data db to_numeric_text (Ok wb) year [])
  = Raise (RollLoadFailure ValueError).
Proof.
  intros Hsheet Hnd Hid Hc Hs Hin Hinf.
  rewrite (load_roll_data_projected wb year sheet c Hsheet Hnd Hid Hc Hs).
  cbv zeta. now rewrite (cast_extracted_infinite sheet c r negative Hin Hinf).
Qed.

End ExtractorFacts.

(** C3 as worded fails: when the start label comes back after the end
    label, the loop keeps its last position, and the band between the first
    occurrences is not what is extracted. *)
Lemma first_band_not_extracted :
  ~ extracts_first_band plain_db (fun _ => None) repeated_label_sheet 2024.
Proof.
  intros H.
  assert (E : load_roll_data plain_db (fun _ => None)
                (Ok [(str_of_Z 2024, repeated_label_sheet)]) 2024 []
              = (Ok {| columns := [u "School_Id"]; rows := [[CInt 1]] |},
                 [LoadingRollData 2024; LoadedSheet 1 5;
                  IdentifiedIdColumn (Some (u "SchoolID"));
                  ExtractingBand 4 3 0; LoadedSchools 1]))
    by (vm_compute; reflexivity).
  apply H in E. vm_compute in E. discriminate.
Qed.

(** C3, amended: each column's letters are its alphabetic characters; the
    band runs from the last column whose letters are the start label,
    whatever the case, through the last column whose letters are the end
    label.  For a sheet with distinct headers whose identifier column is
    found and is not in the band, and whose identifiers are plain (each is
    missing or unreadable, or reads as an integer of magnitude at most
    [2 ^ 53]), the extractor returns the identifier column, named
    [School_Id], followed by the band columns in sheet order, for the rows
    whose identifier reads as a number.  For the headers
    [SchoolID, AX, AY, AZ, BM, BN] that is [School_Id, AY, AZ, BM]. *)
Theorem load_roll_data_selects_band (db : unicode_db)
    (to_numeric_text : str -> option number) (wb : workbook) (year : Z)
    (sheet : DataFrame) (c : str) :
  sheet_named wb (str_of_Z year) = Some sheet ->
  List.NoDup (columns sheet) ->
  identify_school_id_col db sheet = Some c ->
  ~ In c (band_between_last db (columns sheet)) ->
  ~ In (u "School_Id") (band_between_last db (columns sheet)) ->
  plain_identifiers to_numeric_text sheet c ->
  fst (load_roll_data db to_numeric_text (Ok wb) year [])
    = Ok (extracted db to_numeric_text sheet c) /\
  (forall col,
     is_start db col
       = str_eqb (upper db (List.filter (isalpha db) col)) (upper db (u "AY"))
     /\
     is_end db col
       = str_eqb (upper db (List.filter (isalpha db) col)) (upper db (u "BM")))
  /\
  (forall s e,
     last_index (is_start db) (columns sheet) = Some s ->
     last_index (is_end db) (columns sheet) = Some e ->
     band_between_last db (columns sheet) = slice (columns sheet) s (e + 1) /\
     (forall k col, (s < k)%nat -> nth_error (columns sheet) k = Some col ->
                    is_start db col = false) /\
     (forall k col, (e < k)%nat -> nth_error (columns sheet) k = Some col ->
                    is_end db col = false)) /\
  (forall r, In r (rows (extracted db to_numeric_text sheet c)) ->
     exists z, head r = Some (CInt z) /\ safe_int z = true) /\
  (forall rows0,
     plain_identifiers to_numeric_text (example_sheet rows0) (u "SchoolID") ->
     fst (load_roll_data db to_numeric_text
            (Ok [(str_of_Z year, example_sheet rows0)]) year [])
     = Ok {| columns := [u "School_Id"; u "AY"; u "AZ"; u "BM"];
             rows :=
               List.filter (fun r => negb (is_nan (cell_at r 0)))
                 (List.map
                    (fun r =>
                       to_numeric to_numeric_text (cell_at r 0)
                       :: List.map (cell_at r) [2; 3; 4]%nat)
                    rows0) |}).
Proof.
  intros Hsheet Hnd Hid Hc Hs Hplain.
  split.
  { now rewrite (load_roll_data_extracted db to_numeric_text wb year sheet c). }
  split; [intros col; split; reflexivity|].
  split.
  { intros s e Es Ee. split; [|split].
    - unfold band_between_last, band_positions. rewrite Es, Ee.
      symmetry. apply slice_nth.
    - apply (last_index_spec (is_start db) _ _ Es).
    - apply (last_index_spec (is_end db) _ _ Ee). }
  split.
  { intros r Hr. unfold extracted in Hr. cbn [rows] in Hr.
    apply List.filter_In in Hr as [Hr Hnan].
    apply List.in_map_iff in Hr as (r0 & <- & Hr0).
    change (negb (is_nan (to_numeric to_numeric_text
                            (cell_at r0 (position_of (columns sheet) c))))
            = true) in Hnan.
    cbn [head]. unfold plain_identifiers in Hplain.
    rewrite List.Forall_forall in Hplain. specialize (Hplain r0 Hr0).
    unfold plain_identifier in Hplain.
    destruct (to_numeric to_numeric_text
                (cell_at r0 (position_of (columns sheet) c)))
      as [z|neg|t|]; try discriminate.
    now exists z. }
  intros rows0 Hplain0.
  rewrite (load_roll_data_extracted db to_numeric_text
             [(str_of_Z year, example_sheet rows0)] year
             (example_sheet rows0) (u "SchoolID")).
  - reflexivity.
  - cbn [sheet_named]. now rewrite str_eqb_refl.
  - apply distinct_NoDup. reflexivity.
  - reflexivity.
  - vm_compute. intuition discriminate.
  - vm_compute. intuition discriminate.
  - exact Hplain0.
Qed.

Lemma load_roll_data_selects_band_witness :
  fst (load_roll_data plain_db (fun _ => None)
         (Ok [(u "2024", repeated_label_sheet)]) 2024 [])
  = Ok {| columns := [u "School_Id"]; rows := [[CInt 1]] |}.
Proof.
  destruct (load_roll_data_selects_band plain_db (fun _ => None)
              [(u "2024", repeated_label_sheet)] 2024 repeated_label_sheet
              (u "SchoolID")) as (Hrun & _).
  - reflexivity.
  - apply distinct_NoDup. reflexivity.
  - reflexivity.
  - vm_compute. tauto.
  - vm_compute. tauto.
  - repeat constructor.
  - rewrite Hrun. vm_compute. reflexivity.
Defined.

(** C7 as worded fails: for a sheet with a header row and no data, whose
    headers do not name the identifier, no identifier column is chosen,
    the projection raises [KeyError] and the extractor fails. *)
Lemma no_graceful_degradation_without_rows :
  ~ degrades_gracefully plain_db (fun _ => None) header_only_sheet 2024.
Proof.
  intros H. destruct H as (df & lg & E & _).
  - left. intros col [<-|[<-|[]]]; reflexivity.
  - vm_compute in E. discriminate.
Qed.

(** C7, amended: for a sheet with distinct headers in which the start label
    or the end label does not occur, and whose identifier column is found
    (a header holding both "school" and "id", or else the first column of
    a sheet that has data rows), the extractor logs a warning and no
    error.  When the identifiers are plain (each is missing or unreadable,
    or reads as an integer of magnitude at most [2 ^ 53]) it does not
    fail: it returns the identifier column alone, read as numbers, for the
    rows in which it reads as a number.  When an identifier reads as an
    infinity the cast to integers refuses it and the extractor fails. *)
Theorem load_roll_data_without_band (db : unicode_db)
    (to_numeric_text : str -> option number) (wb : workbook) (year : Z)
    (sheet : DataFrame) (c : str) :
  sheet_named wb (str_of_Z year) = Some sheet ->
  List.NoDup (columns sheet) ->
  identify_school_id_col db sheet = Some c ->
  (forall col, In col (columns sheet) -> is_start db col = false) \/
  (forall col, In col (columns sheet) -> is_end db col = false) ->
  let run := load_roll_data db to_numeric_text (Ok wb) year [] in
  (plain_identifiers to_numeric_text sheet c ->
   fst run =
     Ok {| columns := [u "School_Id"];
           rows :=
             List.filter (fun r => negb (is_nan (cell_at r 0)))
               (List.map
                  (fun r =>
                     [to_numeric to_numeric_text
                        (cell_at r (position_of (columns sheet) c))])
                  (rows sheet)) |}) /\
  In BandNotFound (snd run) /\
  level_of BandNotFound = WARNING /\
  Forall (fun r => level_of r <> ERROR) (snd run) /\
  (forall r negative,
     In r (rows sheet) ->
     to_numeric to_numeric_text (cell_at r (position_of (columns sheet) c))
     = CInf negative ->
     fst run = Raise (RollLoadFailure ValueError)).
Proof.
  intros Hsheet Hnd Hid Hmiss run.
  assert (Hpos : band_positions db (columns sheet) = []).
  { unfold band_positions. destruct Hmiss as [Hm|Hm];
      rewrite (last_index_none _ _ Hm); [reflexivity|].
    now destruct (last_index (is_start db) (columns sheet)). }
  assert (Hrec : band_record db (columns sheet) = BandNotFound).
  { unfold band_record. destruct Hmiss as [Hm|Hm];
      rewrite (last_index_none _ _ Hm); [reflexivity|].
    now destruct (last_index (is_start db) (columns sheet)). }
  assert (Hband : band_between_last db (columns sheet) = [])
    by (unfold band_between_last; now rewrite Hpos).
  assert (Hc : ~ In c (band_between_last db (columns sheet)))
    by (rewrite Hband; intros []).
  assert (Hs : ~ In (u "School_Id") (band_between_last db (columns sheet)))
    by (rewrite Hband; intros []).
  split; [|split; [|split; [reflexivity|split]]].
  - intros Hplain. subst run.
    rewrite (load_roll_data_extracted db to_numeric_text wb year sheet c
               Hsheet Hnd Hid Hc Hs Hplain).
    cbn [fst]. unfold extracted. now rewrite Hband, Hpos.
  - subst run.
    rewrite (load_roll_data_projected db to_numeric_text wb year sheet c
               Hsheet Hnd Hid Hc Hs).
    cbv zeta. rewrite Hrec.
    destruct (astype_int_column _ 0); cbn [snd]; simpl; tauto.
  - apply List.Forall_forall. intros r _. now destruct r.
  - intros r negative Hin Hinf. subst run.
    exact (load_roll_data_infinite db to_numeric_text wb year sheet c r
             negative Hsheet Hnd Hid Hc Hs Hin Hinf).
Qed.

Lemma load_roll_data_without_band_witness :
  let sheet := {| columns := [u "School ID"; u "Name"];
                  rows := [[CInt 7; CStr (u "Kea School")];
                           [CStr (u "n/a"); CStr (u "Total")]] |} in
  fst (load_roll_data plain_db (fun _ => None) (Ok [(u "2024", sheet)])
         2024 [])
  = Ok {| columns := [u "School_Id"]; rows := [[CInt 7]] |}.
Proof.
  intros sheet.
  destruct (load_roll_data_without_band plain_db (fun _ => None)
              [(u "2024", sheet)] 2024 sheet (u "School ID"))
    as (Hrun & _).
  - reflexivity.
  - apply distinct_NoDup. reflexivity.
  - reflexivity.
  - left. intros col [<-|[<-|[]]]; reflexivity.
  - rewrite Hrun; [vm_compute; reflexivity|]. repeat constructor.
Defined.

(* ===================================================================== *)
(** * Properties of the reconciler *)
(* ===================================================================== *)

Section ListFacts.
Context {A : Type}.

Lemma without_last (l : list A) (x : A) : without (length l) (l ++ [x]) = l.
Proof.
  unfold without. induction l as [|a l IH]; [reflexivity|].
  simpl. f_equal. exact IH.
Qed.

Lemma without_In (k : nat) (l : list A) (x : A) :
  In x (without k l) -> In x l.
Proof.
  unfold without. rewrite List.in_app_iff. intros [H|H].
  - rewrite <- (take_drop k l). apply List.in_app_iff. now left.
  - rewrite <- (take_drop (S k) l). apply List.in_app_iff. now right.
Qed.

Lemma length_without (k : nat) (l : list A) :
  (k < length l)%nat -> length (without k l) = (length l - 1)%nat.
Proof.
  intros Hk. unfold without.
  rewrite List.length_app, length_take, length_drop. lia.
Qed.

End ListFacts.

Lemma cell_eqb_eq (a b : cell) : cell_eqb a b = true <-> a = b.
Proof.
  destruct a, b; simpl; try (split; (discriminate || reflexivity)).
  - rewrite Z.eqb_eq. split; [now intros ->|now intros [= ->]].
  - rewrite Bool.eqb_true_iff. split; [now intros ->|now intros [= ->]].
  - rewrite str_eqb_eq. split; [now intros ->|now intros [= ->]].
Qed.

Lemma positions_In (cols : list str) (l : str) (i : nat) :
  In i (positions cols l) -> nth_error cols i = Some l.
Proof.
  unfold positions. intros H.
  apply List.in_map_iff in H as ([j c] & <- & H).
  apply List.filter_In in H as [H E]. simpl in *.
  apply str_eqb_eq in E. subst c.
  assert (G : forall k, In (j, l) (combine (seq k (length cols)) cols) ->
                        nth_error cols (j - k) = Some l /\ (k <= j)%nat).
  { clear H. induction cols as [|c cols IH]; intros k; simpl; [tauto|].
    intros [[= <- <-]|Hin].
    - rewrite Nat.sub_diag. now split.
    - destruct (IH (S k) Hin) as [Hn Hle].
      replace (j - k)%nat with (S (j - S k)) by lia. split; [exact Hn|lia]. }
  destruct (G 0%nat H) as [Hn _]. now rewrite Nat.sub_0_r in Hn.
Qed.

Lemma column_index_bound (df : DataFrame) (l : str) (i : nat) :
  column_index df l = Ok i -> (i < length (columns df))%nat.
Proof.
  unfold column_index.
  destruct (positions (columns df) l) as [|j [|? ?]] eqn:E; try discriminate.
  intros [= <-]. apply List.nth_error_Some.
  rewrite (positions_In (columns df) l j); [discriminate|].
  rewrite E. now left.
Qed.

Lemma filter_label_last (l : str) (cols : list str) :
  forall k,
    ~ In l cols ->
    List.map fst
      (List.filter (fun ic : nat * str => str_eqb (snd ic) l)
         (combine (seq k (length (cols ++ [l]))) (cols ++ [l])))
    = [(k + length cols)%nat].
Proof.
  induction cols as [|c cols IH]; intros k Hn; simpl.
  - rewrite str_eqb_refl. simpl. f_equal. lia.
  - assert (Hc : str_eqb c l = false).
    { apply str_eqb_neq. intros ->. apply Hn. now left. }
    rewrite Hc, IH; [f_equal; lia|].
    intros Hin. apply Hn. now right.
Qed.

(** A label that only the last column carries. *)
Lemma positions_last (cols : list str) (l : str) :
  ~ In l cols -> positions (cols ++ [l]) l = [length cols].
Proof.
  intros Hn. unfold positions. now rewrite filter_label_last.
Qed.

Lemma suffix_not_indicator (c sfx : str) :
  sfx = u "_x" \/ sfx = u "_y" -> c ++ sfx <> INDICATOR.
Proof.
  intros Hs E. apply (f_equal (@rev N)) in E.
  rewrite List.rev_app_distr in E.
  destruct Hs as [-> | ->]; simpl in E; discriminate.
Qed.

Lemma suffixed_not_indicator (key : str) (other : list str) (sfx c : str) :
  sfx = u "_x" \/ sfx = u "_y" ->
  c <> INDICATOR -> suffixed key other sfx c <> INDICATOR.
Proof.
  intros Hs Hc. unfold suffixed.
  destruct (negb (str_eqb c key) && existsb (str_eqb c) other);
    [now apply suffix_not_indicator|assumption].
Qed.

Lemma no_indicator (cols : list str) :
  existsb (str_eqb INDICATOR) cols = false ->
  forall c, In c cols -> c <> INDICATOR.
Proof.
  intros H c Hin ->. apply existsb_str_eqb in Hin. congruence.
Qed.

Section AstypeFacts.
Context (py_int : str -> option Z).

Lemma astype_int_ints (zs : list Z) :
  Forall (fun z => safe_int z = true) zs ->
  astype_int py_int (List.map CInt zs) = Ok zs.
Proof.
  induction 1 as [|z zs Hz _ IH]; [reflexivity|].
  cbn [List.map astype_int cell_as_int number_as_int].
  unfold mbind, outcome_bind. now rewrite IH, (wrap64_safe z Hz).
Qed.

Lemma text_keys_ints (zs : list Z) : text_keys (List.map CInt zs) = false.
Proof.
  unfold text_keys.
  assert (E : existsb is_text (List.map CInt zs) = false)
    by (induction zs as [|z zs IH]; [reflexivity|exact IH]).
  now rewrite E.
Qed.

Lemma keys_agree (xs ys : list Z) :
  keys_clash (List.map CInt xs) (List.map CInt ys) = false.
Proof.
  unfold keys_clash. rewrite !text_keys_ints.
  now rewrite andb_false_r.
Qed.

Lemma reserved_indicator (cols : list str) :
  existsb reserved cols = false ->
  existsb (str_eqb INDICATOR) cols = false.
Proof.
  induction cols as [|c cols IH]; cbn [existsb]; [reflexivity|].
  rewrite !orb_false_iff. intros [Hc Hcols]. split; [|now apply IH].
  apply str_eqb_neq. intros <-. now vm_compute in Hc.
Qed.

End AstypeFacts.

Section MergeFacts.
Context (registry rolls : DataFrame) (ia ir : nat).
Context (Hia : column_index registry (u "School_Id") = Ok ia).
Context (Hir : column_index rolls (u "School_Id") = Ok ir).
Context (Hna : existsb (str_eqb INDICATOR) (columns registry) = false).
Context (Hnr : existsb (str_eqb INDICATOR) (columns rolls) = false).
Context (Hwf : Forall (fun l => length l = length (columns registry))
                 (rows registry)).

Lemma reconciled_no_indicator :
  ~ In INDICATOR (columns (reconciled registry rolls ia ir)).
Proof.
  unfold reconciled. cbn [columns]. rewrite List.in_app_iff.
  intros [H|H].
  - apply List.in_map_iff in H as (c & E & Hc).
    revert E. apply suffixed_not_indicator; [now left|].
    now apply (no_indicator _ Hna).
  - apply without_In, List.in_map_iff in H as (c & E & Hc).
    revert E. apply suffixed_not_indicator; [now right|].
    now apply (no_indicator _ Hnr).
Qed.

Lemma reconciled_width :
  length (columns (reconciled registry rolls ia ir))
  = (length (columns registry) + (length (columns rolls) - 1))%nat.
Proof.
  unfold reconciled. cbn [columns].
  rewrite List.length_app, List.length_map, length_without;
    rewrite List.length_map; [reflexivity|].
  exact (column_index_bound _ _ _ Hir).
Qed.

(** The merge of the two tables, with its indicator column. *)
Lemma merge_left_reconciled :
  keys_clash (series registry ia) (series rolls ir) = false ->
  existsb reserved (columns registry) = false ->
  existsb reserved (columns rolls) = false ->
  suffixes_clash registry rolls ir = false ->
  merge_left registry rolls (u "School_Id") =
  Ok {| columns := columns (reconciled registry rolls ia ir) ++ [INDICATOR];
        rows :=
          List.flat_map
            (join_row ia ir (length (columns rolls)) (rows rolls))
            (rows registry) |}.
Proof.
  intros Hkeys Hra Hrr Hclash.
  unfold merge_left, mbind, outcome_bind. rewrite Hia, Hir, Hkeys.
  rewrite List.existsb_app, Hra, Hrr. cbn [orb]. cbv zeta.
  unfold suffixes_clash in Hclash. rewrite Hclash.
  unfold reconciled. cbn [columns]. now rewrite <- List.app_assoc.
Qed.

Lemma indicator_index :
  column_index
    {| columns := columns (reconciled registry rolls ia ir) ++ [INDICATOR];
       rows :=
         List.flat_map
           (join_row ia ir (length (columns rolls)) (rows rolls))
           (rows registry) |} INDICATOR
  = Ok (length (columns (reconciled registry rolls ia ir))).
Proof.
  unfold column_index. cbn [columns].
  now rewrite (positions_last _ _ reconciled_no_indicator).
Qed.

(** Dropping the indicator from the rows a registry row gives. *)
Lemma join_row_dropped (l : list cell) :
  length l = length (columns registry) ->
  List.map (without (length (columns (reconciled registry rolls ia ir))))
    (join_row ia ir (length (columns rolls)) (rows rolls) l)
  = joined rolls ia ir l.
Proof.
  intros Hl. unfold join_row, joined, matching_rolls.
  assert (Hdrop : forall X tag,
            length X = (length (columns rolls) - 1)%nat ->
            without (length (columns (reconciled registry rolls ia ir)))
              (l ++ X ++ [tag]) = l ++ X).
  { intros X tag HX. rewrite reconciled_width, <- Hl, <- HX.
    rewrite <- List.length_app, List.app_assoc. apply without_last. }
  destruct (List.filter
              (fun r => cell_eqb (cell_at r ir) (cell_at l ia)) (rows rolls))
    as [|r ms].
  - cbn [List.map]. unfold no_roll_cells.
    now rewrite Hdrop by apply length_replicate.
  - rewrite List.map_map. apply List.map_ext. intros r'.
    apply Hdrop. unfold roll_cells.
    rewrite length_without; rewrite List.length_map, List.length_seq;
      [reflexivity|].
    exact (column_index_bound _ _ _ Hir).
Qed.

Lemma merged_rows_dropped :
  List.map (without (length (columns (reconciled registry rolls ia ir))))
    (List.flat_map (join_row ia ir (length (columns rolls)) (rows rolls))
       (rows registry))
  = rows (reconciled registry rolls ia ir).
Proof.
  pose proof join_row_dropped as Hrow.
  set (w := length (columns (reconciled registry rolls ia ir))) in *.
  change (rows (reconciled registry rolls ia ir))
    with (List.flat_map (joined rolls ia ir) (rows registry)).
  revert Hwf. generalize (rows registry) as ls.
  induction ls as [|l ls IH]; intros Hls; [reflexivity|].
  apply List.Forall_cons_iff in Hls as [Hl Hls].
  cbn [List.flat_map]. rewrite List.map_app, (IH Hls). f_equal.
  now apply Hrow.
Qed.

End MergeFacts.

Section ReportFacts.

Lemma sorted_In (X : gset Z) (z : Z) : In z (sorted X) <-> z ∈ X.
Proof.
  unfold sorted. rewrite <- list_elem_of_In, merge_sort_Permutation.
  apply elem_of_elements.
Qed.

Lemma sorted_ordered (X : gset Z) : StronglySorted Z.le (sorted X).
Proof. apply StronglySorted_merge_sort; apply _. Qed.

Lemma is_nil_sorted (X : gset Z) : is_nil (elements X) = is_nil (sorted X).
Proof.
  pose proof (Permutation_length (merge_sort_Permutation Z.le (elements X)))
    as H.
  unfold sorted. destruct (elements X), (merge_sort Z.le _);
    simpl in *; (reflexivity || discriminate || lia).
Qed.

Lemma difference_In (a b : list Z) (z : Z) :
  z ∈ (list_to_set a ∖ list_to_set b : gset Z) <-> In z a /\ ~ In z b.
Proof.
  rewrite elem_of_difference, !elem_of_list_to_set, !list_elem_of_In.
  reflexivity.
Qed.

End ReportFacts.

Section KeyFacts.
Context (rolls : DataFrame) (ir : nat) (roll_ids : list Z).
Context (Hroll : series rolls ir = List.map CInt roll_ids).

Lemma matching_rolls_In (z : Z) (r : list cell) :
  In r (matching_rolls rolls ir (CInt z)) <->
  In r (rows rolls) /\ cell_at r ir = CInt z.
Proof.
  unfold matching_rolls. rewrite List.filter_In, cell_eqb_eq. reflexivity.
Qed.

(** A roll row has the identifier exactly when the identifier is among
    those of the roll table. *)
Lemma matching_rolls_nonempty (z : Z) :
  matching_rolls rolls ir (CInt z) <> [] <-> In z roll_ids.
Proof.
  split.
  - intros Hne.
    destruct (matching_rolls rolls ir (CInt z)) as [|r ms] eqn:E;
      [congruence|].
    assert (Hr : In r (matching_rolls rolls ir (CInt z)))
      by (rewrite E; now left).
    apply matching_rolls_In in Hr as [Hr Hk].
    assert (Hin : In (CInt z) (series rolls ir)).
    { unfold series. apply List.in_map_iff. now exists r. }
    rewrite Hroll in Hin. apply List.in_map_iff in Hin as (z' & [= ->] & Hz).
    exact Hz.
  - intros Hz.
    assert (Hin : In (CInt z) (series rolls ir)).
    { rewrite Hroll. now apply List.in_map. }
    unfold series in Hin. apply List.in_map_iff in Hin as (r & Hk & Hr).
    assert (Hm : In r (matching_rolls rolls ir (CInt z)))
      by (now apply matching_rolls_In).
    intros E. now rewrite E in Hm.
Qed.

Lemma filter_key_once (rs : list (list cell)) (k : cell) :
  List.NoDup (List.map (fun r => cell_at r ir) rs) ->
  (length (List.filter (fun r => cell_eqb (cell_at r ir) k) rs) <= 1)%nat.
Proof.
  induction rs as [|r rs IH]; simpl; intros Hnd; [lia|].
  apply List.NoDup_cons_iff in Hnd as [Hr Hnd].
  destruct (cell_eqb (cell_at r ir) k) eqn:E; [|now apply IH].
  apply cell_eqb_eq in E. subst k. simpl.
  assert (Hnone : List.filter
                    (fun r' => cell_eqb (cell_at r' ir) (cell_at r ir)) rs
                  = []).
  { destruct (List.filter _ rs) as [|r' ms] eqn:F; [reflexivity|].
    exfalso. apply Hr.
    assert (Hin : In r' (List.filter
                           (fun r' => cell_eqb (cell_at r' ir) (cell_at r ir))
                           rs))
      by (rewrite F; now left).
    apply List.filter_In in Hin as [Hin Hk]. apply cell_eqb_eq in Hk.
    rewrite <- Hk. now apply (List.in_map (fun r => cell_at r ir)). }
  rewrite Hnone. simpl. lia.
Qed.

Lemma matching_rolls_once (k : cell) :
  List.NoDup roll_ids -> (length (matching_rolls rolls ir k) <= 1)%nat.
Proof.
  intros Hnd. apply filter_key_once.
  change (List.map (fun r => cell_at r ir) (rows rolls))
    with (series rolls ir).
  rewrite Hroll. apply List.NoDup_map_inv with (f := fun c =>
    match c with CInt z => z | _ => 0 end).
  rewrite List.map_map. simpl. now rewrite List.map_id.
Qed.

End KeyFacts.

(** What the reconciler returns and logs for two tables with integer
    identifiers. *)
Lemma match_schools_run (py_int : str -> option Z)
    (registry rolls : DataFrame) (ia ir : nat) (api_ids roll_ids : list Z) :
  keyed registry ia api_ids ->
  keyed rolls ir roll_ids ->
  suffixes_clash registry rolls ir = false ->
  Forall (fun l => length l = length (columns registry)) (rows registry) ->
  exists m n,
    match_schools_with_rolls py_int registry rolls [] =
    (Ok (reconciled registry rolls ia ir),
     [Matching (length (rows registry)) (length (rows rolls))]
     ++ mismatch_report
          (sorted (list_to_set roll_ids ∖ list_to_set api_ids))
          (sorted (list_to_set api_ids ∖ list_to_set roll_ids))
     ++ [MatchCounts m n]).
Proof.
  intros (Hia & Hra & Hapi & Hsa) (Hir & Hrr & Hroll & Hsr) Hclash Hwf.
  pose proof (reserved_indicator _ Hra) as Hna.
  pose proof (reserved_indicator _ Hrr) as Hnr.
  unfold match_schools_with_rolls, mbind, prog_bind, mret, prog_ret, emit,
    lift.
  rewrite Hia, Hapi, (astype_int_ints py_int api_ids Hsa), Hir, Hroll,
    (astype_int_ints py_int roll_ids Hsr).
  cbv beta iota zeta.
  rewrite (merge_left_reconciled registry rolls ia ir Hia Hir)
    by (assumption || (rewrite Hapi, Hroll; apply keys_agree)).
  rewrite (indicator_index registry rolls ia ir Hna Hnr).
  unfold drop_column. cbn [columns rows].
  rewrite without_last.
  rewrite (merged_rows_dropped registry rolls ia ir Hir Hwf).
  unfold mismatch_report. rewrite <- !is_nil_sorted.
  eexists _, _.
  destruct (is_nil (elements (list_to_set roll_ids ∖ list_to_set api_ids)));
    destruct (is_nil (elements (list_to_set api_ids ∖ list_to_set roll_ids)));
    reflexivity.
Qed.

(** C2 as worded fails: with an identifier that comes twice in the roll
    table, the registry row with that identifier comes twice in the
    output. *)
Lemma repeated_roll_repeats_row :
  ~ joins_each_row_once (fun _ => None) scenario_registry repeated_rolls.
Proof.
  intros H.
  assert (E : match_schools_with_rolls (fun _ => None) scenario_registry
                repeated_rolls []
              = (Ok {| columns := [u "School_Id"; u "Org_Name"; u "AY"];
                       rows := [[CInt 1; CStr (u "a"); CNaN];
                                [CInt 2; CStr (u "b"); CInt 20];
                                [CInt 2; CStr (u "b"); CInt 21];
                                [CInt 3; CStr (u "c"); CInt 30]] |},
                 [Matching 3 3; OnlyInApi [1]; MatchCounts 3 1]))
    by (vm_compute; reflexivity).
  apply H in E. vm_compute in E. discriminate.
Qed.

(** C2, amended: for a registry table and a roll table that each have one
    [School_Id] column holding integers of magnitude at most [2 ^ 53] and
    no label that the indicator of the merge reserves, and whose shared
    labels, once suffixed, repeat no label of their table, the reconciler
    performs a left outer join on the identifier: the output
    follows the registry's row order; a registry row comes once for each
    roll row with its identifier, in roll order, with that roll row's
    other cells attached, and once with the empty marker in every roll
    column when no roll row has its identifier; so it comes exactly once
    when no identifier is repeated in the roll table.  Every output row
    starts with a registry row, so identifiers of the roll table alone give
    no row.  The two warnings list, in increasing order, the identifiers of
    the roll table missing from the registry and those of the registry
    missing from the roll table; a difference that is empty is not
    reported. *)
Theorem match_schools_left_join (py_int : str -> option Z)
    (registry rolls : DataFrame) (ia ir : nat) (api_ids roll_ids : list Z) :
  keyed registry ia api_ids ->
  keyed rolls ir roll_ids ->
  suffixes_clash registry rolls ir = false ->
  Forall (fun l => length l = length (columns registry)) (rows registry) ->
  let run := match_schools_with_rolls py_int registry rolls [] in
  fst run = Ok (reconciled registry rolls ia ir) /\
  (forall l,
     length (joined rolls ia ir l)
       = Nat.max 1 (length (matching_rolls rolls ir (cell_at l ia))) /\
     Forall (fun out => take (length l) out = l) (joined rolls ia ir l)) /\
  (List.NoDup roll_ids ->
   rows (reconciled registry rolls ia ir)
     = List.map (fun l => l ++ attached rolls ia ir l) (rows registry)) /\
  (forall l z,
     cell_at l ia = CInt z ->
     (In z roll_ids ->
      exists r, In r (rows rolls) /\ cell_at r ir = CInt z /\
                attached rolls ia ir l = roll_cells rolls ir r) /\
     (~ In z roll_ids -> attached rolls ia ir l = no_roll_cells rolls)) /\
  (forall out,
     In out (rows (reconciled registry rolls ia ir)) ->
     exists l, In l (rows registry) /\ take (length l) out = l) /\
  (exists only_roll only_api m n,
     snd run =
       [Matching (length (rows registry)) (length (rows rolls))]
       ++ mismatch_report only_roll only_api ++ [MatchCounts m n] /\
     StronglySorted Z.le only_roll /\ StronglySorted Z.le only_api /\
     (forall z, In z only_roll <-> In z roll_ids /\ ~ In z api_ids) /\
     (forall z, In z only_api <-> In z api_ids /\ ~ In z roll_ids)).
Proof.
  intros Hka Hkr Hclash Hwf run.
  destruct (match_schools_run py_int registry rolls ia ir api_ids roll_ids
              Hka Hkr Hclash Hwf) as (m & n & Hrun).
  destruct Hkr as (Hir & _ & Hroll & _).
  assert (Hjoined : forall l,
            length (joined rolls ia ir l)
              = Nat.max 1 (length (matching_rolls rolls ir (cell_at l ia))) /\
            Forall (fun out => take (length l) out = l) (joined rolls ia ir l)).
  { intros l. unfold joined.
    destruct (matching_rolls rolls ir (cell_at l ia)) as [|r ms].
    - split; [reflexivity|].
      constructor; [|constructor]. now rewrite take_app_length.
    - split; [rewrite List.length_map; simpl; lia|].
      apply List.Forall_forall. intros out Hout.
      apply List.in_map_iff in Hout as (r' & <- & _).
      now rewrite take_app_length. }
  subst run. rewrite Hrun. cbn [fst snd].
  split; [reflexivity|]. split; [exact Hjoined|]. split.
  { intros Hnd. unfold reconciled. cbn [rows].
    generalize (rows registry) as ls.
    induction ls as [|l ls IH]; [reflexivity|].
    cbn [List.flat_map List.map]. rewrite IH. clear IH.
    pose proof (matching_rolls_once rolls ir roll_ids Hroll (cell_at l ia) Hnd)
      as Hone.
    unfold joined, attached.
    destruct (matching_rolls rolls ir (cell_at l ia)) as [|r [|r' ms]];
      [reflexivity|reflexivity|simpl in Hone; lia]. }
  split.
  { intros l z Hz. unfold attached. rewrite Hz. split.
    - intros Hin.
      apply (matching_rolls_nonempty rolls ir roll_ids Hroll) in Hin.
      destruct (matching_rolls rolls ir (CInt z)) as [|r ms] eqn:E;
        [congruence|].
      assert (Hr : In r (matching_rolls rolls ir (CInt z)))
        by (rewrite E; now left).
      apply matching_rolls_In in Hr as [Hr Hk]. now exists r.
    - intros Hnot.
      destruct (matching_rolls rolls ir (CInt z)) as [|r ms] eqn:E;
        [reflexivity|].
      exfalso. apply Hnot.
      apply (matching_rolls_nonempty rolls ir roll_ids Hroll). congruence. }
  split.
  { intros out Hout. unfold reconciled in Hout. cbn [rows] in Hout.
    apply List.in_flat_map in Hout as (l & Hl & Hout).
    exists l. split; [exact Hl|].
    destruct (Hjoined l) as [_ Hpre].
    now apply (proj1 (List.Forall_forall _ _) Hpre). }
  exists (sorted (list_to_set roll_ids ∖ list_to_set api_ids)),
    (sorted (list_to_set api_ids ∖ list_to_set roll_ids)), m, n.
  split; [reflexivity|].
  split; [apply sorted_ordered|]. split; [apply sorted_ordered|].
  split; intros z; rewrite sorted_In; apply difference_In.
Qed.

Lemma match_schools_left_join_witness :
  let run :=
    match_schools_with_rolls (fun _ => None) scenario_registry scenario_rolls
      [] in
  fst run = Ok {| columns := [u "School_Id"; u "Org_Name"; u "AY"];
                  rows := [[CInt 1; CStr (u "a"); CNaN];
                           [CInt 2; CStr (u "b"); CInt 20];
                           [CInt 3; CStr (u "c"); CInt 30]] |} /\
  snd run = [Matching 3 3; OnlyInRoll [4]; OnlyInApi [1]; MatchCounts 2 1].
Proof.
  intros run.
  destruct (match_schools_left_join (fun _ => None) scenario_registry
              scenario_rolls 0%nat 0%nat [1; 2; 3] [2; 3; 4])
    as (Hrun & _).
  - repeat split; repeat constructor.
  - repeat split; repeat constructor.
  - reflexivity.
  - repeat constructor.
  - split.
    + subst run. rewrite Hrun. vm_compute. reflexivity.
    + vm_compute. reflexivity.
Defined.

(* ===================================================================== *)
(** * Further properties of the record normaliser *)
(* ===================================================================== *)

Lemma dict_lookup_map (g : str -> json) (keys : list str) (f : str) :
  dict_lookup (List.map (fun k => (k, g k)) keys) f =
  if existsb (str_eqb f) keys then Some (g f) else None.
Proof.
  induction keys as [|k keys IH]; simpl; [reflexivity|].
  destruct (str_eqb k f) eqn:E.
  - apply str_eqb_eq in E. subst k. now rewrite str_eqb_refl.
  - assert (E' : str_eqb f k = false).
    { apply str_eqb_neq. apply str_eqb_neq in E. congruence. }
    rewrite E'. exact IH.
Qed.

Lemma project_record_field (rec : dict) (f : str) :
  In f FIELDS ->
  dict_lookup (project_record rec) f
  = Some (normalize_value (dict_get rec f JNull)).
Proof.
  intros Hin. rewrite project_record_unfold, dict_lookup_map.
  apply existsb_str_eqb in Hin. now rewrite Hin.
Qed.

(** X1: Looking a key up in a projected record: a field gives the normalised
    raw value, which is ["-"] when the raw record lacks the field; any
    other key is absent, whatever the raw record holds for it. *)
Theorem project_record_lookup (rec : dict) (k : str) :
  (In k FIELDS ->
   dict_lookup (project_record rec) k
     = Some (normalize_value (dict_get rec k JNull)) /\
   (dict_lookup rec k = None ->
    dict_lookup (project_record rec) k = Some (JStr placeholder))) /\
  (~ In k FIELDS -> dict_lookup (project_record rec) k = None).
Proof.
  rewrite project_record_unfold, dict_lookup_map. split.
  - intros Hin. apply existsb_str_eqb in Hin. rewrite Hin.
    split; [reflexivity|]. intros Hnone. unfold dict_get. now rewrite Hnone.
  - intros Hnot. destruct (existsb (str_eqb k) FIELDS) eqn:E; [|reflexivity].
    apply existsb_str_eqb in E. contradiction.
Qed.

Lemma project_record_lookup_witness :
  let rec := [(u "Org_Name", JStr (u " Kea ")); (u "Comment", JInt 1)] in
  dict_lookup (project_record rec) (u "Org_Name") = Some (JStr (u "Kea")) /\
  dict_lookup (project_record rec) (u "Fax") = Some (JStr (u "-")) /\
  dict_lookup (project_record rec) (u "Comment") = None.
Proof.
  intros rec.
  assert (H1 : In (u "Org_Name") FIELDS) by (vm_compute; tauto).
  assert (H2 : In (u "Fax") FIELDS) by (vm_compute; tauto).
  assert (H3 : ~ In (u "Comment") FIELDS)
    by (vm_compute; intuition discriminate).
  split; [|split].
  - rewrite (proj1 (proj1 (project_record_lookup rec (u "Org_Name")) H1)).
    vm_compute. reflexivity.
  - apply (proj2 (proj1 (project_record_lookup rec (u "Fax")) H2)).
    vm_compute. reflexivity.
  - exact (proj2 (project_record_lookup rec (u "Comment")) H3).
Defined.

Lemma normalize_value_idempotent (v : json) :
  normalize_value (normalize_value v) = normalize_value v.
Proof.
  destruct v as [| | | | |s|l|d]; try reflexivity.
  - simpl. destruct (is_nil (strip s)) eqn:E; [reflexivity|].
    simpl. rewrite strip_idempotent. now rewrite E.
  - simpl. destruct l; reflexivity.
  - simpl. destruct d; reflexivity.
Qed.

(** X2: Normalising is idempotent: a normalised value, and a projected record,
    come back unchanged from a second pass. *)
Theorem project_record_idempotent (rec : dict) :
  project_record (project_record rec) = project_record rec /\
  forall v, normalize_value (normalize_value v) = normalize_value v.
Proof.
  split; [|apply normalize_value_idempotent].
  rewrite (project_record_unfold (project_record rec)).
  etransitivity; [|symmetry; apply project_record_unfold].
  apply List.map_ext_in. intros f Hf. f_equal.
  unfold dict_get at 1.
  rewrite (project_record_field rec f Hf). simpl.
  apply normalize_value_idempotent.
Qed.

(** X3: The projection reads the raw record through the fields only: two raw
    records that agree on the 34 fields have the same projection, whatever
    else they hold and in whatever order. *)
Theorem project_record_reads_fields_only (r1 r2 : dict) :
  (forall f, In f FIELDS -> dict_get r1 f JNull = dict_get r2 f JNull) ->
  project_record r1 = project_record r2.
Proof.
  intros H. rewrite !project_record_unfold.
  apply List.map_ext_in. intros f Hf. now rewrite (H f Hf).
Qed.

Lemma project_record_reads_fields_only_witness :
  project_record [(u "Fax", JInt 1); (u "Comment", JInt 2)]
  = project_record [(u "Other_Key", JNull); (u "Fax", JInt 1)].
Proof.
  apply project_record_reads_fields_only.
  intros f Hf. vm_compute in Hf.
  repeat (destruct Hf as [<-|Hf]; [vm_compute; reflexivity|]).
  contradiction.
Defined.

(* ===================================================================== *)
(** * Further properties of the paginated fetcher *)
(* ===================================================================== *)

Section PacingFacts.
Context (srv : server) (rid : str) (limit : Z) (pause : Q).

Lemma fetch_loop_paced total fuel :
  forall st tr r tr',
    fetch_loop srv rid limit pause fuel total st tr = (r, tr') ->
    exists offs,
      tr' = tr ++ List.flat_map
                    (fun off => [Sleep pause; Request rid off limit]) offs /\
      StronglySorted Z.lt offs /\
      Forall (fun off => offset st <= off) offs.
Proof.
  induction fuel as [|fuel IH]; intros st tr r tr' Hrun.
  - injection Hrun as <- <-. exists []. simpl. rewrite List.app_nil_r.
    repeat split; constructor.
  - rewrite fetch_loop_step in Hrun.
    pose proof (fetch_turn_outcome srv rid limit pause total st tr) as Ho.
    destruct (fetch_turn srv rid limit pause total st tr) as [r1 tr1].
    simpl in Ho. inversion Ho; subst;
      try (injection Hrun as <- <-;
           first [ exists []; simpl; rewrite List.app_nil_r;
                   repeat split; constructor
                 | exists [offset st]; simpl; repeat split;
                   [repeat constructor|constructor; [lia|constructor]] ]).
    destruct (IH _ _ _ _ Hrun) as (offs & -> & Hs & Hb). simpl in Hb.
    assert (Hn : 0 < Z.of_nat (length recs))
      by (destruct recs; [congruence|simpl; lia]).
    exists (offset st :: offs). split; [|split].
    + simpl. now rewrite <- List.app_assoc.
    + constructor; [exact Hs|].
      eapply List.Forall_impl; [|exact Hb]. simpl. intros; lia.
    + constructor; [lia|].
      eapply List.Forall_impl; [|exact Hb]. simpl. intros; lia.
Qed.

End PacingFacts.

Section StartFacts.
Context (srv : server) (rid : str) (limit : Z) (pause : Q).

Lemma iter_records_finishes (v : json) : iter_records v <> OutOfFuel.
Proof.
  destruct v as [| | | | |s0|l0|d0]; simpl; try discriminate.
  - destruct s0; discriminate.
  - induction l0 as [|v0 l0 IH]; simpl; [discriminate|].
    destruct v0; simpl; try discriminate.
    destruct (all_dicts l0); simpl; (discriminate || assumption).
  - destruct d0; discriminate.
Qed.

Lemma py_len_nonneg (v : json) (n : Z) : py_len v = Ok n -> 0 <= n.
Proof.
  destruct v; simpl; try discriminate; intros [= <-]; apply Nat2Z.is_nonneg.
Qed.

(** The first request of a fetch: it raises, with the error of the
    transport when there is one, or the loop starts at an offset that is
    not negative. *)
Lemma fetch_all_start (patience : nat) (tr : list event) :
  let rep := srv (requests_in tr) rid 0 limit in
  let tr1 := tr ++ [Request rid 0 limit] in
  (exists e,
     fetch_all_projected_records srv rid limit pause patience tr
     = (Raise e, tr1) /\
     (forall e', rep = Failed e' -> e = e')) \/
  (exists total st,
     transport_failure rep = None /\ 0 <= offset st /\
     fetch_all_projected_records srv rid limit pause patience tr
       = fetch_loop srv rid limit pause
           (S (remaining patience total (fetched st))) total st tr1).
Proof.
  intros rep tr1. subst rep tr1.
  unfold fetch_all_projected_records, mbind, prog_bind, mret, prog_ret, lift,
    raise, fetch_page.
  destruct (srv (requests_in tr) rid 0 limit) as [j|e]; cbv beta iota.
  2:{ left. exists e. split; [reflexivity|]. now intros e' [= ->]. }
  destruct j as [| | | | | | |d]; cbn [as_dict];
    try solve [left; eexists; split; [reflexivity|discriminate]].
  destruct (truthy (dict_get d (u "success") JNull)); cbn [negb];
    [|left; eexists; split; [reflexivity|discriminate]].
  destruct (dict_get d (u "result") (JObj [])) as [| | | | | | |res];
    cbn [as_dict];
    try solve [left; eexists; split; [reflexivity|discriminate]].
  cbv zeta.
  set (records := py_or (dict_get res (u "records") (JList [])) (JList [])).
  pose proof (iter_records_finishes records) as Hfin.
  destruct (iter_records records) as [ds|e|] eqn:Hit;
    [|left; eexists; split; [reflexivity|discriminate]|congruence].
  destruct (py_len records) as [n|e|] eqn:Hn;
    [|left; eexists; split; [reflexivity|discriminate]
     |destruct records; discriminate].
  right. eexists _, (mkProgress n n _).
  split; [reflexivity|]. split; [exact (py_len_nonneg _ _ Hn)|reflexivity].
Qed.

End StartFacts.

(** X4: Whatever the server answers, a fetch asks for the first page at offset
    0 and puts a pause of the configured length right before every later
    request; every request names the same resource and the same limit, and
    the offsets of the later requests grow strictly, so no page is asked
    for twice by the loop. *)
Theorem fetch_is_paced (srv : server) (rid : str) (limit : Z) (pause : Q)
    (patience : nat) :
  exists offs,
    snd (fetch_all_projected_records srv rid limit pause patience [])
      = paced rid limit pause offs /\
    StronglySorted Z.lt offs /\
    Forall (fun off => 0 <= off) offs /\
    requests_in
      (snd (fetch_all_projected_records srv rid limit pause patience []))
      = S (length offs).
Proof.
  assert (Hcount : forall offs,
            requests_in (paced rid limit pause offs) = S (length offs)).
  { intros offs. unfold paced, requests_in. simpl. f_equal.
    induction offs as [|o offs IH]; simpl; [reflexivity|now rewrite IH]. }
  destruct (fetch_all_start srv rid limit pause patience [])
    as [(e & E & _)|(total & st & _ & H0 & E)].
  - exists []. rewrite E. simpl. repeat split; constructor.
  - rewrite E.
    destruct (fetch_loop srv rid limit pause
                (S (remaining patience total (fetched st)))
                total st ([] ++ [Request rid 0 limit])) as [r tr] eqn:Hrun.
    destruct (fetch_loop_paced srv rid limit pause total _ _ _ _ _ Hrun)
      as (offs & -> & Hs & Hb).
    exists offs. cbn [snd]. split; [reflexivity|].
    split; [exact Hs|]. split; [|apply (Hcount offs)].
    eapply List.Forall_impl; [|exact Hb]. simpl. intros; lia.
Qed.

Section TransportFacts.
Context (srv : server) (rid : str) (limit : Z) (pause : Q).

(** One turn and the transport: the turn issues no request, or it issues
    one and raises the failure of the transport if there is one. *)
Lemma fetch_turn_transport total st tr :
  (snd (fetch_turn srv rid limit pause total st tr) = tr /\
   forall st', fst (fetch_turn srv rid limit pause total st tr)
               <> Ok (inl st')) \/
  (snd (fetch_turn srv rid limit pause total st tr)
     = tr ++ [Sleep pause; Request rid (offset st) limit] /\
   forall e, srv (requests_in tr) rid (offset st) limit = Failed e ->
             fst (fetch_turn srv rid limit pause total st tr) = Raise e).
Proof.
  unfold fetch_turn, mbind, prog_bind, mret, prog_ret, lift, raise, sleep,
    fetch_page.
  destruct (int_lt (fetched st) total) as [[|]| |]; cbv beta iota;
    try (left; split; [reflexivity|discriminate]).
  destruct (Qle_bool (0 # 1) pause); cbv beta iota;
    [|left; split; [reflexivity|discriminate]].
  right.
  replace (requests_in (tr ++ [Sleep pause])) with (requests_in tr)
    by (rewrite requests_in_app; unfold requests_in; simpl; lia).
  replace ((tr ++ [Sleep pause]) ++ [Request rid (offset st) limit])
    with (tr ++ [Sleep pause; Request rid (offset st) limit])
    by (now rewrite <- List.app_assoc).
  destruct (srv (requests_in tr) rid (offset st) limit) as [j|e0];
    cbv beta iota.
  2:{ split; [reflexivity|]. now intros e [= ->]. }
  split; [|discriminate].
  destruct j as [| | | | | | |d]; cbn [as_dict]; try reflexivity.
  destruct (truthy (dict_get d (u "success") JNull)); cbn [negb];
    [|reflexivity].
  destruct (dict_get d (u "result") (JObj [])) as [| | | | | | |res];
    cbn [as_dict]; try reflexivity.
  cbv zeta.
  destruct (truthy (py_or (dict_get res (u "records") (JList [])) (JList [])));
    cbn [negb]; [|reflexivity].
  destruct (iter_records
              (py_or (dict_get res (u "records") (JList [])) (JList [])));
    try reflexivity.
  destruct (py_len
              (py_or (dict_get res (u "records") (JList [])) (JList [])));
    reflexivity.
Qed.

Lemma all_delivered_turn tr p off :
  all_delivered srv tr ->
  transport_failure (srv (requests_in tr) rid off limit) = None ->
  all_delivered srv (tr ++ [Sleep p; Request rid off limit]).
Proof.
  intros Hc Hf k rid' o l Hk.
  apply (nth_request_turn rid limit) in Hk as [Hk|[-> [= -> -> ->]]]; eauto.
Qed.

Lemma fetch_loop_transport total fuel :
  forall st tr r tr',
    all_delivered srv tr ->
    fetch_loop srv rid limit pause fuel total st tr = (r, tr') ->
    forall k rid' off lim e,
      nth_error (requests_of tr') k = Some (Request rid' off lim) ->
      srv k rid' off lim = Failed e ->
      r = Raise e /\ length (requests_of tr') = S k.
Proof.
  induction fuel as [|fuel IH];
    intros st tr r tr' Hc Hrun k rid' off lim e Hk Hf.
  - injection Hrun as <- <-. specialize (Hc _ _ _ _ Hk).
    rewrite Hf in Hc. discriminate.
  - rewrite fetch_loop_step in Hrun.
    destruct (fetch_turn_transport total st tr) as [[Htr Hr]|[Htr Hr]];
      destruct (fetch_turn srv rid limit pause total st tr) as [r1 tr1];
      cbn [fst snd] in *; subst tr1.
    + assert (tr' = tr) as ->.
      { destruct r1 as [[st'|res]|e0|]; try (now injection Hrun).
        now elim (Hr st'). }
      specialize (Hc _ _ _ _ Hk). rewrite Hf in Hc. discriminate.
    + destruct (srv (requests_in tr) rid (offset st) limit) as [j|e0] eqn:Hrep.
      * assert (Hc' : all_delivered srv
                        (tr ++ [Sleep pause; Request rid (offset st) limit])).
        { apply all_delivered_turn; [exact Hc|]. now rewrite Hrep. }
        destruct r1 as [[st'|res]|e1|].
        -- exact (IH _ _ _ _ Hc' Hrun _ _ _ _ _ Hk Hf).
        -- injection Hrun as <- <-. specialize (Hc' _ _ _ _ Hk).
           rewrite Hf in Hc'. discriminate.
        -- injection Hrun as <- <-. specialize (Hc' _ _ _ _ Hk).
           rewrite Hf in Hc'. discriminate.
        -- injection Hrun as <- <-. specialize (Hc' _ _ _ _ Hk).
           rewrite Hf in Hc'. discriminate.
      * rewrite (Hr e0 eq_refl) in Hrun. injection Hrun as <- <-.
        apply (nth_request_turn rid limit) in Hk as [Hk|[-> [= -> -> ->]]].
        -- specialize (Hc _ _ _ _ Hk). rewrite Hf in Hc. discriminate.
        -- rewrite Hrep in Hf. injection Hf as ->.
           split; [reflexivity|].
           rewrite (requests_of_turn rid limit), List.length_app. simpl.
           rewrite requests_in_length. lia.
Qed.

End TransportFacts.

(** X5: A failure of the transport (an HTTP error status, a connection error,
    a timeout, a body that is not JSON) at any request of a fetch reaches
    the caller as that same exception, not wrapped, and no request follows
    it. *)
Theorem transport_failure_reaches_caller (srv : server) (rid : str)
    (limit : Z) (pause : Q) (patience : nat) (r : outcome (list dict))
    (tr : list event) (k : nat) (rid' : str) (off lim : Z) (e : exn) :
  fetch_all_projected_records srv rid limit pause patience [] = (r, tr) ->
  nth_error (requests_of tr) k = Some (Request rid' off lim) ->
  srv k rid' off lim = Failed e ->
  r = Raise e /\ length (requests_of tr) = S k.
Proof.
  intros Hrun Hk Hf.
  destruct (fetch_all_start srv rid limit pause patience [])
    as [(e0 & E & He)|(total & st & Hnf & _ & E)];
    rewrite E in Hrun; change (requests_in []) with 0%nat in *.
  - injection Hrun as <- <-.
    destruct k as [|[|k]]; try discriminate Hk.
    injection Hk as <- <- <-. split; [|reflexivity].
    f_equal. now apply He.
  - assert (Hc : all_delivered srv ([] ++ [Request rid 0 limit])).
    { intros [|[|n]] rid0 o l Hn; try discriminate Hn.
      now injection Hn as <- <- <-. }
    exact (fetch_loop_transport srv rid limit pause total _ _ _ _ _ Hc Hrun
             _ _ _ _ _ Hk Hf).
Qed.

Lemma transport_failure_reaches_caller_witness :
  let r1 := [(u "School_Id", JInt 1)] in
  let srv : server := fun n _ _ _ =>
    match n with
    | O => Body (page_body 5 [r1])
    | _ => Failed Timeout
    end in
  fst (fetch_all_projected_records srv (u "r") 1000 (1 # 5) 0 [])
  = Raise Timeout.
Proof.
  intros r1 srv.
  destruct (fetch_all_projected_records srv (u "r") 1000 (1 # 5) 0 [])
    as [r tr] eqn:E.
  assert (Htr : tr = [Request (u "r") 0 1000; Sleep (1 # 5);
                      Request (u "r") 1 1000]).
  { apply (f_equal snd) in E. simpl in E. rewrite <- E. vm_compute.
    reflexivity. }
  subst tr.
  destruct (transport_failure_reaches_caller srv (u "r") 1000 (1 # 5) 0 r _
              1%nat (u "r") 1 1000 Timeout E eq_refl eq_refl) as (-> & _).
  reflexivity.
Defined.

Section OffsetFacts.
Context (srv : server) (rid : str) (limit : Z) (pause : Q).


End OffsetFacts.



(** X7: When the first response gives no total (the key is absent, null or 0,
    and there is no [records_total]), the number of records of the first
    page stands for it: the fetch returns that page, normalised, after a
    single request. *)
Theorem fetch_without_total (srv : server) (rid : str) (limit : Z)
    (pause : Q) (patience : nat) (d res : dict) (p : list dict) :
  srv 0%nat rid 0 limit = Body (JObj d) ->
  truthy (dict_get d (u "success") JNull) = true ->
  dict_get d (u "result") (JObj []) = JObj res ->
  truthy (dict_get res (u "total") JNull) = false ->
  dict_get res (u "records_total") JNull = JNull ->
  dict_get res (u "records") (JList []) = JList (List.map JObj p) ->
  fetch_all_projected_records srv rid limit pause patience []
  = (Ok (List.map project_record p), [Request rid 0 limit]).
Proof.
  intros Hsrv Hs Hres Htot Hrt Hrec.
  rewrite (fetch_all_first srv rid limit pause patience d res p
             Hsrv Hs Hres Hrec).
  cbv zeta. unfold py_or. rewrite Htot, Hrt.
  now rewrite fetch_loop_step, fetch_turn_exit
    by (cbn [int_lt fetched]; f_equal; apply Z.ltb_irrefl).
Qed.

Lemma fetch_without_total_witness :
  let r1 := [(u "School_Id", JInt 1)] in
  let body :=
    JObj [(u "success", JBool true);
          (u "result", JObj [(u "records", JList [JObj r1; JObj r1])])] in
  fetch_all_projected_records (fun _ _ _ _ => Body body) (u "r") 1000
    (1 # 5) 0 []
  = (Ok [project_record r1; project_record r1], [Request (u "r") 0 1000]).
Proof.
  intros r1 body.
  exact (fetch_without_total (fun _ _ _ _ => Body body) (u "r") 1000 (1 # 5)
           0 _ _ [r1; r1] eq_refl eq_refl eq_refl eq_refl eq_refl eq_refl).
Defined.



(* ===================================================================== *)
(** * Further properties of the roll-band extractor *)
(* ===================================================================== *)

Section ExtractorFailures.
Context (db : unicode_db) (to_numeric_text : str -> option number).

Lemma locate_finishes (cols : list str) (labels : list (option str)) :
  locate cols labels <> OutOfFuel.
Proof.
  induction labels as [|[l|] labels IH]; simpl; try discriminate.
  destruct (positions cols l); [discriminate|].
  destruct (locate cols labels); simpl; (discriminate || congruence).
Qed.

Lemma column_index_finishes (df : DataFrame) (l : str) :
  column_index df l <> OutOfFuel.
Proof.
  unfold column_index. destruct (positions (columns df) l) as [|? [|? ?]];
    discriminate.
Qed.

Lemma load_roll_data_body_finishes (wb : workbook) (year : Z) lg :
  fst (load_roll_data_body db to_numeric_text (Ok wb) year lg) <> OutOfFuel.
Proof.
  unfold load_roll_data_body, read_excel, select,
    mbind, prog_bind, outcome_bind, mret, prog_ret, emit, lift.
  destruct (sheet_named wb (str_of_Z year)) as [sheet|]; cbv beta iota zeta;
    [|discriminate].
  destruct (band_loop db 0 (columns sheet) None None) as [[s|] [e|]];
    cbv beta iota.
  all: match goal with
       | |- context [locate ?c ?l] =>
           pose proof (locate_finishes c l); destruct (locate c l)
       end; cbv beta iota; try discriminate; try congruence.
  all: match goal with
       | |- context [column_index ?d ?l] =>
           pose proof (column_index_finishes d l); destruct (column_index d l)
       end; cbv beta iota; try discriminate; try congruence.
  all: unfold astype_int_column, mbind, outcome_bind;
       match goal with
       | |- context [cast_rows ?i ?rs] =>
           pose proof (cast_rows_finishes i rs); destruct (cast_rows i rs)
       end; cbv beta iota; try discriminate; congruence.
Qed.

End ExtractorFailures.

(** X9: Whatever goes wrong while loading the roll data reaches the caller as
    the loader's [RuntimeError] wrapping the cause: a file that cannot be
    opened, a workbook without a sheet named after the year (which is where
    a year offered by the year list but absent from the workbook fails),
    and any later failure.  In the first two cases nothing but the opening
    line has been logged. *)
Theorem load_roll_data_failures (db : unicode_db)
    (to_numeric_text : str -> option number) (year : Z) :
  (forall e,
     load_roll_data db to_numeric_text (Raise e) year []
     = (Raise (RollLoadFailure e), [LoadingRollData year])) /\
  (forall wb,
     sheet_named wb (str_of_Z year) = None ->
     load_roll_data db to_numeric_text (Ok wb) year []
     = (Raise (RollLoadFailure ValueError), [LoadingRollData year])) /\
  (forall wb,
     (exists df,
        fst (load_roll_data db to_numeric_text (Ok wb) year []) = Ok df) \/
     (exists e,
        fst (load_roll_data db to_numeric_text (Ok wb) year [])
        = Raise (RollLoadFailure e))).
Proof.
  split; [reflexivity|]. split.
  - intros wb Hnone.
    unfold load_roll_data, load_roll_data_body, read_excel,
      mbind, prog_bind, outcome_bind, mret, prog_ret, emit, lift.
    now rewrite Hnone.
  - intros wb. unfold load_roll_data.
    pose proof (load_roll_data_body_finishes db to_numeric_text wb year [])
      as Hfin.
    destruct (load_roll_data_body db to_numeric_text (Ok wb) year [])
      as [[df|e|] lg]; simpl in *; [left|right|congruence]; eauto.
Qed.

Lemma load_roll_data_failures_witness :
  load_roll_data plain_db (fun _ => None)
    (Ok [(u "2024", example_sheet [])]) 2031 []
  = (Raise (RollLoadFailure ValueError), [LoadingRollData 2031]).
Proof.
  apply (proj1 (proj2 (load_roll_data_failures plain_db (fun _ => None) 2031))).
  reflexivity.
Defined.

Section BandFacts.
Context (db : unicode_db) (to_numeric_text : str -> option number).

Lemma filter_label_present (l : str) (cols : list str) :
  forall k,
    In l cols ->
    List.filter (fun ic : nat * str => str_eqb (snd ic) l)
      (combine (seq k (length cols)) cols) <> [].
Proof.
  induction cols as [|c cols IH]; intros k Hin; simpl; [contradiction|].
  destruct (str_eqb c l) eqn:E; [discriminate|].
  destruct Hin as [->|Hin]; [now rewrite str_eqb_refl in E|].
  now apply IH.
Qed.

(** A label carried by the first column and by another one. *)
Lemma column_index_repeated (c : str) (cols : list str)
    (rows0 : list (list cell)) :
  In c cols ->
  column_index {| columns := c :: cols; rows := rows0 |} c = Raise TypeError.
Proof.
  intros Hin. unfold column_index, positions. cbn [columns length seq combine].
  cbn [List.filter snd]. rewrite str_eqb_refl. cbn [List.map fst].
  pose proof (filter_label_present c cols 1 Hin) as Hne.
  destruct (List.filter _ (combine (seq 1 (length cols)) cols));
    [congruence|reflexivity].
Qed.

End BandFacts.

(** X10: When the identifier column lies inside the band (as happens when no
    header names the identifier and the first column of the sheet is the
    start of the band), the projection holds the identifier twice, the
    numeric conversion of [School_Id] is refused and the loader fails,
    after logging the band and before logging any school count. *)
Theorem identifier_inside_band_fails (db : unicode_db)
    (to_numeric_text : str -> option number) (wb : workbook) (year : Z)
    (sheet : DataFrame) (c : str) :
  sheet_named wb (str_of_Z year) = Some sheet ->
  List.NoDup (columns sheet) ->
  identify_school_id_col db sheet = Some c ->
  In c (band_between_last db (columns sheet)) ->
  load_roll_data db to_numeric_text (Ok wb) year [] =
  (Raise (RollLoadFailure TypeError),
   [LoadingRollData year;
    LoadedSheet (length (rows sheet)) (length (columns sheet));
    IdentifiedIdColumn (Some c);
    band_record db (columns sheet)]).
Proof.
  intros Hsheet Hnd Hid Hc.
  pose proof (identify_school_id_col_In db sheet c Hid) as Hin.
  unfold band_record.
  unfold band_between_last, band_positions in Hc.
  unfold load_roll_data, load_roll_data_body, read_excel, select,
    mbind, prog_bind, outcome_bind, mret, prog_ret, emit, lift.
  rewrite Hsheet. cbv beta iota zeta. rewrite Hid, band_loop_last.
  destruct (last_index (is_start db) (columns sheet)) as [s|] eqn:Es;
    [|contradiction].
  destruct (last_index (is_end db) (columns sheet)) as [e|] eqn:Ee;
    [|contradiction].
  cbv beta iota. cbn [Nat.add app].
  rewrite (slice_nth (columns sheet) s (e + 1)) at 1.
  rewrite (located_columns to_numeric_text _ c _ Hnd Hin (slice_bound _ s (e + 1))).
  cbv beta iota.
  unfold rename_column, take_columns. cbn [columns rows List.map].
  rewrite (List.nth_error_nth _ _ [] (position_of_nth to_numeric_text _ c Hin)).
  rewrite str_eqb_refl.
  rewrite column_index_repeated.
  - cbn [length]. rewrite List.length_map.
    replace (Z.of_nat (S (length (slice (columns sheet) s (e + 1)))) - 1)
      with (Z.of_nat (length (slice (columns sheet) s (e + 1)))) by lia.
    reflexivity.
  - apply List.in_map_iff. exists c. split; [now rewrite str_eqb_refl|].
    exact Hc.
Qed.

Lemma identifier_inside_band_fails_witness :
  let sheet := {| columns := [u "AY"; u "AZ"; u "BM"];
                  rows := [[CInt 1; CInt 2; CInt 3]] |} in
  fst (load_roll_data plain_db (fun _ => None) (Ok [(u "2024", sheet)])
         2024 [])
  = Raise (RollLoadFailure TypeError).
Proof.
  intros sheet.
  rewrite (identifier_inside_band_fails plain_db (fun _ => None)
             [(u "2024", sheet)] 2024 sheet (u "AY")).
  - reflexivity.
  - reflexivity.
  - apply distinct_NoDup. reflexivity.
  - reflexivity.
  - vm_compute. tauto.
Defined.

Section LoaderInvariants.
Context (db : unicode_db) (to_numeric_text : str -> option number).

Lemma locate_bound (cols : list str) (labels : list (option str)) :
  forall idx,
    locate cols labels = Ok idx ->
    Forall (fun i => (i < length cols)%nat) idx.
Proof.
  induction labels as [|[l|] labels IH]; intros idx; cbn [locate].
  - intros [= <-]. constructor.
  - destruct (positions cols l) as [|p ps] eqn:E; [discriminate|].
    destruct (locate cols labels) as [rest| |]; cbn; try discriminate.
    intros [= <-]. change (p :: ps ++ rest) with ((p :: ps) ++ rest).
    apply List.Forall_app. split; [|now apply IH].
    apply List.Forall_forall. intros i Hi. apply List.nth_error_Some.
    rewrite (positions_In cols l i); [discriminate|]. now rewrite E.
  - discriminate.
Qed.

(** How a successful run of the body comes about. *)
Lemma load_roll_data_body_shape (wb : workbook) (year : Z) (df : DataFrame)
    (lg : list log_record) :
  load_roll_data_body db to_numeric_text (Ok wb) year [] = (Ok df, lg) ->
  exists sheet i idx,
    sheet_named wb (str_of_Z year) = Some sheet /\
    Forall (fun j => (j < length (columns sheet))%nat) idx /\
    let df_roll :=
      rename_column (identify_school_id_col db sheet) (u "School_Id")
        (take_columns sheet idx) in
    column_index df_roll (u "School_Id") = Ok i /\
    columns df = columns df_roll /\
    cast_rows i
      (rows (dropna (set_series df_roll i (to_numeric to_numeric_text)) i))
    = Ok (rows df) /\
    List.last lg (LoadingRollData year) = LoadedSchools (length (rows df)).
Proof.
  unfold load_roll_data_body, read_excel, select,
    mbind, prog_bind, outcome_bind, mret, prog_ret, emit, lift.
  destruct (sheet_named wb (str_of_Z year)) as [sheet|]; cbv beta iota zeta;
    [|discriminate].
  destruct (band_loop db 0 (columns sheet) None None) as [[s|] [e|]];
    cbv beta iota.
  all: match goal with
       | |- context [locate ?c ?l] =>
           pose proof (locate_bound c l) as Hb; destruct (locate c l) as [idx| |]
       end; cbv beta iota; try discriminate.
  all: match goal with
       | |- context [column_index ?d ?l] =>
           destruct (column_index d l) as [i| |] eqn:Hi
       end; cbv beta iota; try discriminate.
  all: unfold astype_int_column, mbind, outcome_bind;
       match goal with
       | |- context [cast_rows ?j ?rs] =>
           destruct (cast_rows j rs) as [rs'| |] eqn:Hcast
       end; cbv beta iota; try discriminate.
  all: intros [= <- <-]; exists sheet, i, idx.
  all: split; [reflexivity|]; split; [now apply Hb|].
  all: cbv zeta; split; [exact Hi|]; split; [reflexivity|].
  all: split; [exact Hcast|reflexivity].
Qed.

Lemma load_roll_data_shape (wb : workbook) (year : Z) (df : DataFrame)
    (lg : list log_record) :
  load_roll_data db to_numeric_text (Ok wb) year [] = (Ok df, lg) ->
  load_roll_data_body db to_numeric_text (Ok wb) year [] = (Ok df, lg).
Proof.
  unfold load_roll_data.
  destruct (load_roll_data_body db to_numeric_text (Ok wb) year [])
    as [[d|e|] l]; intros H; (exact H || discriminate).
Qed.

Lemma taken_column (sheet : DataFrame) (idx : list nat) (x : str) :
  Forall (fun j => (j < length (columns sheet))%nat) idx ->
  In x (columns (take_columns sheet idx)) -> In x (columns sheet).
Proof.
  intros Hidx Hx. unfold take_columns in Hx. cbn [columns] in Hx.
  apply List.in_map_iff in Hx as (j & <- & Hj).
  apply List.nth_In. rewrite List.Forall_forall in Hidx. now apply Hidx.
Qed.

Lemma renamed_column (old : option str) (df0 : DataFrame) (x : str) :
  In x (columns (rename_column old (u "School_Id") df0)) ->
  x = u "School_Id" \/ In x (columns df0).
Proof.
  unfold rename_column. cbn [columns]. intros Hx.
  apply List.in_map_iff in Hx as (c & <- & Hc).
  destruct old as [o|]; [|now right].
  destruct (str_eqb c o); [now left|now right].
Qed.

End LoaderInvariants.

(** X11: Whatever table the loader returns is keyed: it has exactly one column
    labelled [School_Id], every row carries an integer there (the rows
    whose identifier does not read as a number are gone), its other labels
    are labels of the sheet, it has no more rows than the sheet, and the
    last line logged is the count of its rows. *)
Theorem loaded_rolls_are_keyed (db : unicode_db)
    (to_numeric_text : str -> option number) (wb : workbook) (year : Z)
    (df : DataFrame) (lg : list log_record) :
  load_roll_data db to_numeric_text (Ok wb) year [] = (Ok df, lg) ->
  exists sheet i ids,
    sheet_named wb (str_of_Z year) = Some sheet /\
    column_index df (u "School_Id") = Ok i /\
    series df i = List.map CInt ids /\
    (forall x, In x (columns df) ->
               x = u "School_Id" \/ In x (columns sheet)) /\
    (length (rows df) <= length (rows sheet))%nat /\
    List.last lg (LoadingRollData year) = LoadedSchools (length (rows df)).
Proof.
  intros Hrun. apply load_roll_data_shape in Hrun.
  apply load_roll_data_body_shape in Hrun
    as (sheet & i & idx & Hsheet & Hidx & Hi & Hcols & Hcast & Hlog).
  destruct (cast_rows_cells i _ _ Hcast) as (Hlen & ids & Hids).
  exists sheet, i, ids.
  split; [exact Hsheet|]. split.
  { unfold column_index in *. now rewrite Hcols. }
  split; [exact Hids|].
  split; [|split; [|exact Hlog]].
  - intros x Hx. rewrite Hcols in Hx.
    apply renamed_column in Hx as [Hx|Hx]; [now left|right].
    now apply (taken_column sheet idx).
  - rewrite Hlen.
    unfold dropna, set_series, rename_column, take_columns. cbn [rows].
    etransitivity; [apply List.filter_length_le|].
    now rewrite !List.length_map.
Qed.

Lemma loaded_rolls_are_keyed_witness :
  let df := {| columns := [u "School_Id"; u "AY"; u "AZ"; u "BM"];
               rows := [[CInt 7; CInt 2; CInt 3; CInt 4]] |} in
  exists sheet i ids,
    sheet_named
      [(u "2024",
        example_sheet [[CInt 7; CInt 1; CInt 2; CInt 3; CInt 4; CInt 5];
                       [CNaN; CInt 1; CInt 2; CInt 3; CInt 4; CInt 5]])]
      (str_of_Z 2024) = Some sheet /\
    column_index df (u "School_Id") = Ok i /\
    series df i = List.map CInt ids /\
    (forall x, In x (columns df) ->
               x = u "School_Id" \/ In x (columns sheet)) /\
    (length (rows df) <= length (rows sheet))%nat /\
    List.last
      [LoadingRollData 2024; LoadedSheet 2 6;
       IdentifiedIdColumn (Some (u "SchoolID")); ExtractingBand 2 4 3;
       LoadedSchools 1]
      (LoadingRollData 2024) = LoadedSchools (length (rows df)).
Proof.
  intros df.
  apply (loaded_rolls_are_keyed plain_db (fun _ => None)).
  vm_compute. reflexivity.
Defined.

(* ===================================================================== *)
(** * Further properties of the reconciler *)
(* ===================================================================== *)

Section CastFacts.
Context (py_int : str -> option Z).




End CastFacts.



Section CountFacts.
Context (registry rolls : DataFrame) (ia ir : nat).
Context (Hia : column_index registry (u "School_Id") = Ok ia).
Context (Hir : column_index rolls (u "School_Id") = Ok ir).
Context (Hna : existsb (str_eqb INDICATOR) (columns registry) = false).
Context (Hnr : existsb (str_eqb INDICATOR) (columns rolls) = false).
Context (Hwf : Forall (fun l => length l = length (columns registry))
                 (rows registry)).

Local Abbreviation width := (length (columns rolls)).
Local Abbreviation im := (length (columns (reconciled registry rolls ia ir))).
Local Abbreviation merged_rows :=
  (List.flat_map (join_row ia ir width (rows rolls)) (rows registry)).

Lemma roll_cells_length (r : list cell) :
  length (roll_cells rolls ir r) = (width - 1)%nat.
Proof.
  unfold roll_cells.
  rewrite length_without; rewrite List.length_map, List.length_seq;
    [reflexivity|].
  exact (column_index_bound _ _ _ Hir).
Qed.

(** The indicator of a merged row. *)
Lemma indicator_cell (l X : list cell) (tag : cell) :
  length l = length (columns registry) ->
  length X = (width - 1)%nat ->
  cell_at (l ++ X ++ [tag]) im = tag.
Proof.
  intros Hl HX. rewrite (reconciled_width registry rolls ia ir Hir).
  rewrite <- Hl, <- HX, <- List.length_app, List.app_assoc.
  unfold cell_at. rewrite List.app_nth2 by lia. now rewrite Nat.sub_diag.
Qed.

Lemma filter_map_all {A B} (P : B -> bool) (f : A -> B) (l : list A) :
  (forall x, P (f x) = true) ->
  List.filter P (List.map f l) = List.map f l.
Proof.
  intros H. induction l as [|x l IH]; [reflexivity|].
  cbn [List.map List.filter]. now rewrite H, IH.
Qed.

Lemma filter_map_none {A B} (P : B -> bool) (f : A -> B) (l : list A) :
  (forall x, P (f x) = false) -> List.filter P (List.map f l) = [].
Proof.
  intros H. induction l as [|x l IH]; [reflexivity|].
  cbn [List.map List.filter]. now rewrite H, IH.
Qed.

(** The indicators of the rows one registry row gives. *)
Lemma join_row_tags (l : list cell) :
  length l = length (columns registry) ->
  let out := join_row ia ir width (rows rolls) l in
  let ms := matching_rolls rolls ir (cell_at l ia) in
  length (List.filter (fun r => cell_eqb (cell_at r im) BOTH) out)
    = length ms /\
  length (List.filter (fun r => cell_eqb (cell_at r im) LEFT_ONLY) out)
    = (if is_nil ms then 1 else 0)%nat /\
  length out = Nat.max 1 (length ms).
Proof.
  intros Hl out ms. subst out ms. unfold join_row, matching_rolls.
  destruct (List.filter
              (fun r => cell_eqb (cell_at r ir) (cell_at l ia)) (rows rolls))
    as [|r ms].
  - cbn [List.filter is_nil].
    rewrite (indicator_cell l _ LEFT_ONLY Hl) by apply length_replicate.
    now split.
  - cbn [is_nil].
    rewrite (filter_map_all (fun r => cell_eqb (cell_at r im) BOTH)).
    2:{ intros r'.
        pose proof (indicator_cell l _ BOTH Hl (roll_cells_length r')) as H.
        unfold roll_cells in H. now rewrite H. }
    rewrite (filter_map_none (fun r => cell_eqb (cell_at r im) LEFT_ONLY)).
    2:{ intros r'.
        pose proof (indicator_cell l _ BOTH Hl (roll_cells_length r')) as H.
        unfold roll_cells in H. now rewrite H. }
    rewrite List.length_map. cbn [length]. repeat split; lia.
Qed.

(** The two counts over the merged rows. *)
Lemma merged_counts :
  let both :=
    length (List.filter (fun r => cell_eqb (cell_at r im) BOTH)
              merged_rows) in
  let left_only :=
    length (List.filter (fun r => cell_eqb (cell_at r im) LEFT_ONLY)
              merged_rows) in
  (both + left_only = length merged_rows)%nat /\
  left_only
    = length
        (List.filter
           (fun l => is_nil (matching_rolls rolls ir (cell_at l ia)))
           (rows registry)) /\
  (length (rows registry) <= length merged_rows)%nat.
Proof.
  cbv zeta. revert Hwf. generalize (rows registry) as ls.
  induction ls as [|l ls IH]; intros Hls; [cbn; repeat split; lia|].
  apply List.Forall_cons_iff in Hls as [Hl Hls].
  destruct (IH Hls) as (Hsum & Hleft & Hlen).
  destruct (join_row_tags l Hl) as (Hb & Hl1 & Hout).
  cbv zeta in Hb, Hl1, Hout.
  cbn [List.flat_map List.filter].
  rewrite !List.filter_app, !List.length_app, Hb, Hl1, Hout.
  destruct (matching_rolls rolls ir (cell_at l ia)) as [|r ms];
    cbn [is_nil length] in *; repeat split; lia.
Qed.

Lemma merged_length :
  length (rows (reconciled registry rolls ia ir)) = length merged_rows.
Proof.
  rewrite <- (merged_rows_dropped registry rolls ia ir Hir Hwf).
  apply List.length_map.
Qed.

(** Every row of the reconciled table is as wide as its header. *)
Lemma reconciled_rectangular :
  Forall (fun out => length out = im)
    (rows (reconciled registry rolls ia ir)).
Proof.
  rewrite (reconciled_width registry rolls ia ir Hir).
  unfold reconciled. cbn [rows]. apply List.Forall_forall. intros out Hout.
  apply List.in_flat_map in Hout as (l & Hl & Hout).
  rewrite List.Forall_forall in Hwf. specialize (Hwf l Hl).
  unfold joined in Hout.
  destruct (matching_rolls rolls ir (cell_at l ia)) as [|r ms].
  - destruct Hout as [<-|[]]. unfold no_roll_cells.
    rewrite List.length_app, length_replicate. lia.
  - apply List.in_map_iff in Hout as (r' & <- & _).
    rewrite List.length_app, roll_cells_length. lia.
Qed.

End CountFacts.

Section IdFacts.
Context (rolls : DataFrame) (ir : nat) (roll_ids : list Z).
Context (Hroll : series rolls ir = List.map CInt roll_ids).

Lemma unmatched_id (z : Z) :
  is_nil (matching_rolls rolls ir (CInt z))
  = negb (existsb (Z.eqb z) roll_ids).
Proof.
  pose proof (matching_rolls_nonempty rolls ir roll_ids Hroll z) as H.
  destruct (existsb (Z.eqb z) roll_ids) eqn:E; cbn [negb].
  - apply List.existsb_exists in E as (x & Hx & Ex).
    apply Z.eqb_eq in Ex. subst x. apply H in Hx.
    now destruct (matching_rolls rolls ir (CInt z)).
  - destruct (matching_rolls rolls ir (CInt z)) as [|r ms]; [reflexivity|].
    assert (Hz : In z roll_ids) by (now apply H).
    assert (existsb (Z.eqb z) roll_ids = true); [|congruence].
    apply List.existsb_exists. exists z. split; [exact Hz|apply Z.eqb_refl].
Qed.

Lemma unmatched_ids (ia : nat) (ls : list (list cell)) :
  forall api_ids,
    List.map (fun l => cell_at l ia) ls = List.map CInt api_ids ->
    length
      (List.filter (fun l => is_nil (matching_rolls rolls ir (cell_at l ia)))
         ls)
    = length (without_roll api_ids roll_ids).
Proof.
  unfold without_roll.
  induction ls as [|l ls IH]; intros [|z zs]; cbn [List.map];
    try discriminate; [reflexivity|].
  intros [= Hl Hls]. cbn [List.filter]. rewrite Hl, unmatched_id.
  destruct (negb (existsb (Z.eqb z) roll_ids)); cbn [length];
    now rewrite (IH zs Hls).
Qed.

End IdFacts.

(** What the reconciler returns and logs for two tables with integer
    identifiers, with the two counts as it takes them. *)
Lemma match_schools_counted (py_int : str -> option Z)
    (registry rolls : DataFrame) (ia ir : nat) (api_ids roll_ids : list Z) :
  keyed registry ia api_ids ->
  keyed rolls ir roll_ids ->
  suffixes_clash registry rolls ir = false ->
  Forall (fun l => length l = length (columns registry)) (rows registry) ->
  exists matched unmatched,
    match_schools_with_rolls py_int registry rolls [] =
    (Ok (reconciled registry rolls ia ir),
     [Matching (length (rows registry)) (length (rows rolls))]
     ++ mismatch_report
          (sorted (list_to_set roll_ids ∖ list_to_set api_ids))
          (sorted (list_to_set api_ids ∖ list_to_set roll_ids))
     ++ [MatchCounts matched unmatched]) /\
    (matched + unmatched
     = length (rows (reconciled registry rolls ia ir)))%nat /\
    unmatched = length (without_roll api_ids roll_ids).
Proof.
  intros (Hia & Hra & Hapi & Hsa) (Hir & Hrr & Hroll & Hsr) Hclash Hwf.
  pose proof (reserved_indicator _ Hra) as Hna.
  pose proof (reserved_indicator _ Hrr) as Hnr.
  unfold match_schools_with_rolls, mbind, prog_bind, mret, prog_ret, emit,
    lift.
  rewrite Hia, Hapi, (astype_int_ints py_int api_ids Hsa), Hir, Hroll,
    (astype_int_ints py_int roll_ids Hsr).
  cbv beta iota zeta.
  rewrite (merge_left_reconciled registry rolls ia ir Hia Hir)
    by (assumption || (rewrite Hapi, Hroll; apply keys_agree)).
  rewrite (indicator_index registry rolls ia ir Hna Hnr).
  unfold drop_column, count_where. cbn [columns rows].
  rewrite without_last.
  rewrite (merged_rows_dropped registry rolls ia ir Hir Hwf).
  destruct (merged_counts registry rolls ia ir Hir Hwf)
    as (Hsum & Hleft & _).
  cbv zeta in Hsum, Hleft.
  rewrite (merged_length registry rolls ia ir Hir Hwf).
  rewrite (unmatched_ids rolls ir roll_ids Hroll ia (rows registry) api_ids
             Hapi) in Hleft.
  unfold mismatch_report. rewrite <- !is_nil_sorted.
  eexists _, _.
  split; [|split; [exact Hsum|exact Hleft]].
  destruct (is_nil (elements (list_to_set roll_ids ∖ list_to_set api_ids)));
    destruct (is_nil (elements (list_to_set api_ids ∖ list_to_set roll_ids)));
    reflexivity.
Qed.

(** X13: For a well-formed registry and a roll table that each have one
    [School_Id] column holding integers of magnitude at most [2 ^ 53] and
    no label that the indicator of the merge reserves, and whose shared
    labels, once suffixed, repeat no label of their table, the two counts
    of the last line logged split the rows of the output: they add up to
    its number of rows, and the unmatched count is the number of registry
    rows whose identifier no roll row carries.  The output has at least
    as many rows as the registry.  The counts are of rows, where the
    warnings list identifiers. *)
Theorem match_counts_split_rows (py_int : str -> option Z)
    (registry rolls : DataFrame) (ia ir : nat) (api_ids roll_ids : list Z) :
  keyed registry ia api_ids ->
  keyed rolls ir roll_ids ->
  suffixes_clash registry rolls ir = false ->
  Forall (fun l => length l = length (columns registry)) (rows registry) ->
  let run := match_schools_with_rolls py_int registry rolls [] in
  exists df matched unmatched,
    fst run = Ok df /\
    List.last (snd run) (Matching 0 0) = MatchCounts matched unmatched /\
    (matched + unmatched = length (rows df))%nat /\
    unmatched = length (without_roll api_ids roll_ids) /\
    (length (rows registry) <= length (rows df))%nat.
Proof.
  intros Hka Hkr Hclash Hwf run.
  destruct (match_schools_counted py_int registry rolls ia ir api_ids
              roll_ids Hka Hkr Hclash Hwf)
    as (m & n & Hrun & Hsum & Hn).
  destruct Hkr as (Hir & _).
  subst run. rewrite Hrun. cbn [fst snd].
  exists (reconciled registry rolls ia ir), m, n.
  split; [reflexivity|]. split.
  - rewrite List.app_assoc. apply List.last_last.
  - split; [exact Hsum|]. split; [exact Hn|].
    rewrite (merged_length registry rolls ia ir Hir Hwf).
    now destruct (merged_counts registry rolls ia ir Hir Hwf) as (_ & _ & H).
Qed.

Lemma match_counts_split_rows_witness :
  let run :=
    match_schools_with_rolls (fun _ => None) scenario_registry repeated_rolls
      [] in
  exists df matched unmatched,
    fst run = Ok df /\
    List.last (snd run) (Matching 0 0) = MatchCounts matched unmatched /\
    (matched + unmatched = length (rows df))%nat /\
    unmatched = length (without_roll [1; 2; 3] [2; 3; 2]) /\
    (length (rows scenario_registry) <= length (rows df))%nat.
Proof.
  apply (match_counts_split_rows (fun _ => None) scenario_registry
           repeated_rolls 0%nat 0%nat [1; 2; 3] [2; 3; 2]).
  - repeat split; repeat constructor.
  - repeat split; repeat constructor.
  - reflexivity.
  - repeat constructor.
Defined.

(** X14: For a well-formed registry and a roll table that each have one
    [School_Id] column holding integers of magnitude at most [2 ^ 53] and
    no label that the indicator of the merge reserves, and whose shared
    labels, once suffixed, repeat no label of their table, the reconciled
    table is rectangular: its header has one label per column of the
    registry and one per column of the roll table but the identifier,
    every row has one cell per label, and the indicator column is gone. *)
Theorem reconciled_table_is_rectangular (py_int : str -> option Z)
    (registry rolls : DataFrame) (ia ir : nat) (api_ids roll_ids : list Z) :
  keyed registry ia api_ids ->
  keyed rolls ir roll_ids ->
  suffixes_clash registry rolls ir = false ->
  Forall (fun l => length l = length (columns registry)) (rows registry) ->
  exists df,
    fst (match_schools_with_rolls py_int registry rolls []) = Ok df /\
    length (columns df)
      = (length (columns registry) + (length (columns rolls) - 1))%nat /\
    Forall (fun out => length out = length (columns df)) (rows df) /\
    ~ In INDICATOR (columns df).
Proof.
  intros Hka Hkr Hclash Hwf.
  destruct (match_schools_counted py_int registry rolls ia ir api_ids
              roll_ids Hka Hkr Hclash Hwf)
    as (m & n & Hrun & _).
  destruct Hka as (_ & Hra & _). destruct Hkr as (Hir & Hrr & _).
  pose proof (reserved_indicator _ Hra) as Hna.
  pose proof (reserved_indicator _ Hrr) as Hnr.
  rewrite Hrun. cbn [fst].
  exists (reconciled registry rolls ia ir).
  split; [reflexivity|]. split; [|split].
  - exact (reconciled_width registry rolls ia ir Hir).
  - exact (reconciled_rectangular registry rolls ia ir Hir Hwf).
  - exact (reconciled_no_indicator registry rolls ia ir Hna Hnr).
Qed.

Lemma reconciled_table_is_rectangular_witness :
  exists df,
    fst (match_schools_with_rolls (fun _ => None) scenario_registry
           scenario_rolls []) = Ok df /\
    length (columns df) = 3%nat /\
    Forall (fun out => length out = length (columns df)) (rows df) /\
    ~ In INDICATOR (columns df).
Proof.
  apply (reconciled_table_is_rectangular (fun _ => None) scenario_registry
           scenario_rolls 0%nat 0%nat [1; 2; 3] [2; 3; 4]).
  - repeat split; repeat constructor.
  - repeat split; repeat constructor.
  - reflexivity.
  - repeat constructor.
Defined.

(** X15: The table the loader returns is one the reconciler accepts: with a
    registry keyed by safe integers, a sheet without a label that the
    indicator reserves, loaded identifiers that are safe integers and
    suffixed labels that do not clash, the reconciliation of the loader's
    output returns the joined table. *)
Theorem loaded_rolls_reconcile (db : unicode_db)
    (to_numeric_text : str -> option number) (py_int : str -> option Z)
    (wb : workbook) (year : Z) (sheet df_rolls : DataFrame)
    (lg : list log_record) (registry : DataFrame) (ia : nat)
    (api_ids : list Z) :
  load_roll_data db to_numeric_text (Ok wb) year [] = (Ok df_rolls, lg) ->
  sheet_named wb (str_of_Z year) = Some sheet ->
  existsb reserved (columns sheet) = false ->
  (forall ir z,
     column_index df_rolls (u "School_Id") = Ok ir ->
     In (CInt z) (series df_rolls ir) -> safe_int z = true) ->
  (forall ir,
     column_index df_rolls (u "School_Id") = Ok ir ->
     suffixes_clash registry df_rolls ir = false) ->
  keyed registry ia api_ids ->
  Forall (fun l => length l = length (columns registry)) (rows registry) ->
  exists ir roll_ids,
    keyed df_rolls ir roll_ids /\
    fst (match_schools_with_rolls py_int registry df_rolls [])
    = Ok (reconciled registry df_rolls ia ir).
Proof.
  intros Hrun Hsheet Hns Hsafe Hclash Hka Hwf.
  apply load_roll_data_shape in Hrun.
  apply load_roll_data_body_shape in Hrun
    as (sheet' & ir & idx & Hsheet' & Hidx & Hir & Hcols & Hcast & _).
  rewrite Hsheet in Hsheet'. injection Hsheet' as <-.
  destruct (cast_rows_cells ir _ _ Hcast) as (_ & roll_ids & Hids).
  assert (Hir' : column_index df_rolls (u "School_Id") = Ok ir)
    by (unfold column_index in *; now rewrite Hcols).
  assert (Hkr : keyed df_rolls ir roll_ids).
  { split; [exact Hir'|]. split; [|split; [exact Hids|]].
    - destruct (existsb reserved (columns df_rolls)) eqn:E; [|reflexivity].
      apply List.existsb_exists in E as (x & Hx & Hres).
      rewrite Hcols in Hx.
      apply renamed_column in Hx as [->|Hx]; [discriminate Hres|].
      apply (taken_column sheet idx _ Hidx) in Hx.
      assert (existsb reserved (columns sheet) = true); [|congruence].
      apply List.existsb_exists. now exists x.
    - apply List.Forall_forall. intros z Hz. apply (Hsafe ir z Hir').
      unfold series. rewrite Hids. now apply List.in_map. }
  exists ir, roll_ids. split; [exact Hkr|].
  destruct (match_schools_run py_int registry df_rolls ia ir api_ids
              roll_ids Hka Hkr (Hclash ir Hir') Hwf) as (m & n & Hm).
  now rewrite Hm.
Qed.

Lemma loaded_rolls_reconcile_witness :
  let rolls := {| columns := [u "School_Id"; u "AY"; u "AZ"; u "BM"];
                  rows := [[CInt 2; CInt 2; CInt 3; CInt 4]] |} in
  exists ir roll_ids,
    keyed rolls ir roll_ids /\
    fst (match_schools_with_rolls (fun _ => None) scenario_registry rolls [])
    = Ok (reconciled scenario_registry rolls 0 ir).
Proof.
  intros rolls.
  apply (loaded_rolls_reconcile plain_db (fun _ => None) (fun _ => None)
           [(u "2024",
             example_sheet [[CInt 2; CInt 1; CInt 2; CInt 3; CInt 4; CInt 5];
                            [CNaN; CInt 1; CInt 2; CInt 3; CInt 4; CInt 5]])]
           2024
           (example_sheet [[CInt 2; CInt 1; CInt 2; CInt 3; CInt 4; CInt 5];
                           [CNaN; CInt 1; CInt 2; CInt 3; CInt 4; CInt 5]])
           rolls
           [LoadingRollData 2024; LoadedSheet 2 6;
            IdentifiedIdColumn (Some (u "SchoolID")); ExtractingBand 2 4 3;
            LoadedSchools 1]
           scenario_registry 0%nat [1; 2; 3]).
  - vm_compute. reflexivity.
  - reflexivity.
  - reflexivity.
  - intros ir z [= <-] [[= <-]|[]]. reflexivity.
  - intros ir [= <-]. reflexivity.
  - repeat split; repeat constructor.
  - repeat constructor.
Defined.

(* ===================================================================== *)
(** * Further properties of the exporters *)
(* ===================================================================== *)

Section ExportRuns.
Context {FS : Type}.
Context (makedirs : str -> FS -> outcome unit * FS).
Context (write_file : str -> file_content -> FS -> outcome unit * FS).
Context (path_join : str -> str -> str).

Local Abbreviation exportM := (prog (@world FS)).

Lemma bind_ok {A B} (m : exportM A) (f : A -> exportM B) (a : A) w w' :
  m w = (Ok a, w') -> (m ≫= f) w = f a w'.
Proof. intros H. unfold mbind, prog_bind. now rewrite H. Qed.

Lemma bind_raise {A B} (m : exportM A) (f : A -> exportM B) (e : exn) w w' :
  m w = (Raise e, w') -> (m ≫= f) w = (Raise e, w').
Proof. intros H. unfold mbind, prog_bind. now rewrite H. Qed.

Lemma bind_fuel {A B} (m : exportM A) (f : A -> exportM B) w w' :
  m w = (OutOfFuel, w') -> (m ≫= f) w = (OutOfFuel, w').
Proof. intros H. unfold mbind, prog_bind. now rewrite H. Qed.

(** The copy of the table, renamed, as the exporters prepare it: two new
    frame objects, the second of which is what gets written. *)
Lemma prepared (df : positive) (d : DataFrame) (w : @world FS) :
  frames w !! df = Some d ->
  exists w',
    files w' = files w /\ exported w' = exported w /\
    forall B (k : DataFrame -> exportM B),
      (df_export ← df_copy df;
       df_export ← df_rename_aliases df_export;
       d' ← deref df_export;
       k d') w
      = k (aliased d) w'.
Proof.
  intros Hdf.
  pose (l1 := fresh (dom (frames w))).
  pose (w1 := {| frames := <[l1 := d]> (frames w); files := files w;
                 exported := exported w |}).
  pose (l2 := fresh (dom (frames w1))).
  pose (w2 := {| frames := <[l2 := aliased d]> (frames w1);
                 files := files w; exported := exported w |}).
  exists w2. split; [reflexivity|]. split; [reflexivity|].
  intros B k.
  assert (Hcopy : df_copy df w = (Ok l1, w1)).
  { unfold df_copy, deref, alloc, mbind, prog_bind. now rewrite Hdf. }
  assert (Hren : df_rename_aliases l1 w1 = (Ok l2, w2)).
  { unfold df_rename_aliases, deref, alloc, mbind, prog_bind.
    cbn [frames w1]. now rewrite lookup_insert_eq. }
  assert (Hget : deref l2 w2 = (Ok (aliased d), w2)).
  { unfold deref. cbn [frames w2]. now rewrite lookup_insert_eq. }
  rewrite (bind_ok _ _ _ _ _ Hcopy), (bind_ok _ _ _ _ _ Hren).
  now rewrite (bind_ok _ _ _ _ _ Hget).
Qed.

Lemma not_prepared (df : positive) (w : @world FS) :
  frames w !! df = None ->
  forall B (k : positive -> exportM B),
    (df_export ← df_copy df; k df_export) w = (Raise AttributeError, w).
Proof.
  intros Hdf B k. apply bind_raise.
  unfold df_copy, deref, mbind, prog_bind. now rewrite Hdf.
Qed.

(** The log of the export after the table is prepared and written. *)
Lemma finish_logged (path : str) (entry : export_log)
    (f : FS -> outcome unit * FS) (w0 w : @world FS) :
  exported w = exported w0 ->
  let run := (on_files f;; log_export entry;; mret path) w in
  match fst run with
  | Ok p => p = path /\ exported (snd run) = exported w0 ++ [entry]
  | _ => exported (snd run) = exported w0
  end.
Proof.
  intros Hlog. unfold mbind, prog_bind, on_files, log_export, mret, prog_ret.
  destruct (f (files w)) as [[[]|e|] fs2]; cbn [fst snd exported];
    rewrite Hlog; auto.
Qed.

Lemma export_csv_logged (df : positive) (out_dir base_name : str)
    (w : @world FS) :
  let run := export_csv makedirs write_file path_join df out_dir base_name w in
  match fst run with
  | Ok p => exported (snd run) = exported w ++ [CsvSaved p]
  | _ => exported (snd run) = exported w
  end.
Proof.
  unfold export_csv. cbv zeta.
  destruct (makedirs out_dir (files w)) as [[[]|e|] fs1] eqn:Hmk.
  2: erewrite bind_raise by (unfold on_files; rewrite Hmk; reflexivity);
     reflexivity.
  2: erewrite bind_fuel by (unfold on_files; rewrite Hmk; reflexivity);
     reflexivity.
  erewrite bind_ok by (unfold on_files; rewrite Hmk; reflexivity).
  destruct (frames w !! df) as [d|] eqn:Hdf.
  - destruct (prepared df d
                {| frames := frames w; files := fs1; exported := exported w |}
                Hdf) as (w' & Hfiles & Hlog & Hrun).
    rewrite Hrun.
    pose proof (finish_logged
                  (path_join out_dir
                     (str_or (strip (re_sub_illegal base_name))
                        (u "schools_filtered") ++ u ".csv"))
                  (CsvSaved
                     (path_join out_dir
                        (str_or (strip (re_sub_illegal base_name))
                           (u "schools_filtered") ++ u ".csv")))
                  (write_file
                     (path_join out_dir
                        (str_or (strip (re_sub_illegal base_name))
                           (u "schools_filtered") ++ u ".csv"))
                     (CsvFile (aliased d)))
                  w w' Hlog) as Hfin.
    cbv zeta in Hfin.
    destruct (fst _) as [p| |]; [|exact Hfin..].
    destruct Hfin as [-> Hfin]. exact Hfin.
  - rewrite (not_prepared df
               {| frames := frames w; files := fs1; exported := exported w |}
               Hdf).
    reflexivity.
Qed.

Lemma export_excel_logged (xlsxwriter_installed : bool) (df : positive)
    (out_dir base_name : str) (w : @world FS) :
  let run :=
    export_excel_table makedirs write_file path_join xlsxwriter_installed df
      out_dir base_name w in
  match fst run with
  | Ok p => exported (snd run) = exported w ++ [ExcelSaved p]
  | _ => exported (snd run) = exported w
  end.
Proof.
  unfold export_excel_table. cbv zeta.
  destruct xlsxwriter_installed; cbn [negb]; [|reflexivity].
  destruct (makedirs out_dir (files w)) as [[[]|e|] fs1] eqn:Hmk.
  2: erewrite bind_raise by (unfold on_files; rewrite Hmk; reflexivity);
     reflexivity.
  2: erewrite bind_fuel by (unfold on_files; rewrite Hmk; reflexivity);
     reflexivity.
  erewrite bind_ok by (unfold on_files; rewrite Hmk; reflexivity).
  destruct (frames w !! df) as [d|] eqn:Hdf.
  - destruct (prepared df d
                {| frames := frames w; files := fs1; exported := exported w |}
                Hdf) as (w' & Hfiles & Hlog & Hrun).
    rewrite Hrun.
    match goal with
    | |- context [(on_files ?f;; log_export ?entry;; mret ?path) w'] =>
        pose proof (finish_logged path entry f w w' Hlog) as Hfin
    end.
    cbv zeta in Hfin.
    destruct (fst _) as [p| |]; [|exact Hfin..].
    destruct Hfin as [-> Hfin]. exact Hfin.
  - rewrite (not_prepared df
               {| frames := frames w; files := fs1; exported := exported w |}
               Hdf).
    reflexivity.
Qed.

End ExportRuns.

(** X16: When the folder can be made and the file written, [export_csv] writes
    one file, at the sanitised path: the table under its export headers,
    with the rows it was given; it logs the path and returns it. *)
Theorem export_csv_writes_aliased_table {FS : Type}
    (makedirs : str -> FS -> outcome unit * FS)
    (write_file : str -> file_content -> FS -> outcome unit * FS)
    (path_join : str -> str -> str)
    (df : positive) (d : DataFrame) (out_dir base_name : str)
    (w : @world FS) (fs1 fs2 : FS) :
  frames w !! df = Some d ->
  makedirs out_dir (files w) = (Ok tt, fs1) ->
  let path := path_join out_dir (sanitized_base base_name ++ u ".csv") in
  write_file path (CsvFile (aliased d)) fs1 = (Ok tt, fs2) ->
  let run := export_csv makedirs write_file path_join df out_dir base_name w in
  fst run = Ok path /\ files (snd run) = fs2 /\
  exported (snd run) = exported w ++ [CsvSaved path].
Proof.
  intros Hdf Hmk path Hwr run. subst run. unfold export_csv.
  erewrite bind_ok by (unfold on_files; rewrite Hmk; reflexivity).
  destruct (prepared df d
              {| frames := frames w; files := fs1; exported := exported w |}
              Hdf) as (w' & Hfiles & Hlog & Hrun).
  rewrite Hrun. cbn [files exported] in Hfiles, Hlog.
  erewrite bind_ok
    by (unfold on_files; rewrite Hfiles; fold (sanitized_base base_name);
        fold path; rewrite Hwr; reflexivity).
  unfold mbind, prog_bind, log_export, mret, prog_ret.
  cbn [fst snd files exported]. rewrite Hlog. now repeat split.
Qed.

Lemma export_csv_writes_aliased_table_witness :
  let d := {| columns := [u "School_Id"; u "AY"];
              rows := [[CInt 1; CInt 20]] |} in
  let w := {| frames := {[ 1%positive := d ]};
              files := @nil (str * file_content); exported := [] |} in
  let run := export_csv toy_makedirs toy_write_file toy_path_join 1%positive
               (u "out") (u "a:b") w in
  fst run = Ok (toy_path_join (u "out") (sanitized_base (u "a:b") ++ u ".csv"))
  /\ files (snd run)
     = [(toy_path_join (u "out") (sanitized_base (u "a:b") ++ u ".csv"),
         CsvFile (aliased d))]
  /\ exported (snd run)
     = exported w
       ++ [CsvSaved
             (toy_path_join (u "out") (sanitized_base (u "a:b") ++ u ".csv"))].
Proof.
  intros d w.
  apply (export_csv_writes_aliased_table toy_makedirs toy_write_file
           toy_path_join 1%positive d (u "out") (u "a:b") w []).
  - vm_compute. reflexivity.
  - reflexivity.
  - reflexivity.
Defined.

(** X17: When XlsxWriter is there, the folder can be made and the writer
    succeeds, [export_excel_table] opens one writer at the sanitised path
    and makes three calls on it, in this order: [to_excel] of the table
    under its export headers on a sheet named Schools; [freeze_panes(1, 0)];
    [add_table] over rows 0 to the number of data rows and columns 0 to the
    number of columns less one, with the aliases of the registry fields as
    its list of headers, whatever the columns of the table are.  It returns
    the path and logs it.  The property is about the calls, not about the
    cells XlsxWriter leaves in the workbook. *)
Theorem export_excel_table_writes {FS : Type}
    (makedirs : str -> FS -> outcome unit * FS)
    (write_file : str -> file_content -> FS -> outcome unit * FS)
    (path_join : str -> str -> str)
    (df : positive) (d : DataFrame) (out_dir base_name : str)
    (w : @world FS) (fs1 fs2 : FS) :
  frames w !! df = Some d ->
  makedirs out_dir (files w) = (Ok tt, fs1) ->
  let path := path_join out_dir (sanitized_base base_name ++ u ".xlsx") in
  write_file path
    (XlsxCalls
       [to_excel (u "Schools") (aliased d);
        freeze_panes 1 0;
        add_table 0 0 (Z.of_nat (length (rows d)))
          (Z.of_nat (length (columns d)) - 1) (List.map alias FIELDS)])
    fs1 = (Ok tt, fs2) ->
  let run :=
    export_excel_table makedirs write_file path_join true df out_dir
      base_name w in
  fst run = Ok path /\ files (snd run) = fs2 /\
  exported (snd run) = exported w ++ [ExcelSaved path].
Proof.
  intros Hdf Hmk path Hwr run. subst run. unfold export_excel_table.
  cbn [negb].
  erewrite bind_ok by (unfold on_files; rewrite Hmk; reflexivity).
  destruct (prepared df d
              {| frames := frames w; files := fs1; exported := exported w |}
              Hdf) as (w' & Hfiles & Hlog & Hrun).
  rewrite Hrun. cbn [files exported] in Hfiles, Hlog.
  cbv zeta. change (rows (aliased d)) with (rows d).
  change (columns (aliased d)) with (List.map alias (columns d)).
  rewrite List.length_map.
  erewrite bind_ok
    by (unfold on_files; rewrite Hfiles; fold (sanitized_base base_name);
        fold path; rewrite Hwr; reflexivity).
  unfold mbind, prog_bind, log_export, mret, prog_ret.
  cbn [fst snd files exported]. rewrite Hlog. now repeat split.
Qed.

Lemma export_excel_table_writes_witness :
  let d := {| columns := [u "School_Id"; u "AY"];
              rows := [[CInt 1; CInt 20]] |} in
  let w := {| frames := {[ 1%positive := d ]};
              files := @nil (str * file_content); exported := [] |} in
  let path :=
    toy_path_join (u "out") (sanitized_base (u "a:b") ++ u ".xlsx") in
  let run := export_excel_table toy_makedirs toy_write_file toy_path_join
               true 1%positive (u "out") (u "a:b") w in
  fst run = Ok path /\
  files (snd run)
  = [(path,
      XlsxCalls
        [to_excel (u "Schools") (aliased d);
         freeze_panes 1 0;
         add_table 0 0 (Z.of_nat (length (rows d)))
           (Z.of_nat (length (columns d)) - 1) (List.map alias FIELDS)])] /\
  exported (snd run) = exported w ++ [ExcelSaved path].
Proof.
  intros d w path.
  apply (export_excel_table_writes toy_makedirs toy_write_file toy_path_join
           1%positive d (u "out") (u "a:b") w []).
  - vm_compute. reflexivity.
  - reflexivity.
  - reflexivity.
Defined.

(** X18: The exporters log a path exactly when they return it: a run that
    returns has added one line, with the path returned, and a run that
    raises (no XlsxWriter, the folder or the file refused) has added
    none. *)
Theorem export_log_tells_success {FS : Type}
    (makedirs : str -> FS -> outcome unit * FS)
    (write_file : str -> file_content -> FS -> outcome unit * FS)
    (path_join : str -> str -> str) (xlsxwriter_installed : bool)
    (df : positive) (out_dir base_name : str) (w : @world FS) :
  let csv := export_csv makedirs write_file path_join df out_dir base_name w in
  let xlsx :=
    export_excel_table makedirs write_file path_join xlsxwriter_installed df
      out_dir base_name w in
  match fst csv with
  | Ok p => exported (snd csv) = exported w ++ [CsvSaved p]
  | _ => exported (snd csv) = exported w
  end /\
  match fst xlsx with
  | Ok p => exported (snd xlsx) = exported w ++ [ExcelSaved p]
  | _ => exported (snd xlsx) = exported w
  end.
Proof.
  split; [apply export_csv_logged|apply export_excel_logged].
Qed.

(** X19: A folder that cannot be made stops both exporters with the error of
    the file system as it is, not wrapped: no frame object is created, no
    file is written and nothing is logged.  Without XlsxWriter the Excel
    exporter raises [ImportError] before it touches the folder. *)
Theorem export_failures_pass_through {FS : Type}
    (makedirs : str -> FS -> outcome unit * FS)
    (write_file : str -> file_content -> FS -> outcome unit * FS)
    (path_join : str -> str -> str)
    (df : positive) (out_dir base_name : str) (w : @world FS)
    (e : exn) (fs1 : FS) :
  makedirs out_dir (files w) = (Raise e, fs1) ->
  let w1 := {| frames := frames w; files := fs1; exported := exported w |} in
  export_csv makedirs write_file path_join df out_dir base_name w
    = (Raise e, w1) /\
  export_excel_table makedirs write_file path_join true df out_dir base_name w
    = (Raise e, w1) /\
  export_excel_table makedirs write_file path_join false df out_dir
    base_name w
    = (Raise ImportError, w).
Proof.
  intros Hmk w1. split; [|split].
  - unfold export_csv. apply bind_raise. unfold on_files. now rewrite Hmk.
  - unfold export_excel_table. cbn [negb]. apply bind_raise.
    unfold on_files. now rewrite Hmk.
  - reflexivity.
Qed.

Lemma export_failures_pass_through_witness :
  let w := {| frames := ∅; files := @nil (str * file_content);
              exported := [] |} in
  export_csv (fun _ fs => (Raise OSError, fs)) toy_write_file toy_path_join
    1%positive (u "out") (u "x") w
  = (Raise OSError, w).
Proof.
  intros w.
  apply (export_failures_pass_through (fun _ fs => (Raise OSError, fs))
           toy_write_file toy_path_join 1%positive (u "out") (u "x") w
           OSError []).
  reflexivity.
Defined.

Lemma alias_cases (c : str) :
  alias c = if str_eqb (u "School_Id") c then u "MoEID" else c.
Proof. reflexivity. Qed.

Lemma alias_injective (cols : list str) (a b : str) :
  ~ In (u "MoEID") cols -> In a cols -> In b cols ->
  alias a = alias b -> a = b.
Proof.
  intros Hn Ha Hb. rewrite !alias_cases.
  destruct (str_eqb (u "School_Id") a) eqn:Ea;
    destruct (str_eqb (u "School_Id") b) eqn:Eb.
  - apply str_eqb_eq in Ea, Eb. congruence.
  - intros <-. contradiction.
  - intros ->. contradiction.
  - trivial.
Qed.

(** X20: The export headers: only [School_Id] changes, to [MoEID].  The headers
    of a table stay distinct unless it already has a column [MoEID]; a
    table with both columns is exported with two columns headed [MoEID]. *)
Theorem export_headers_stay_distinct (d : DataFrame) :
  List.NoDup (columns d) ->
  (forall c, In c (columns d) ->
             alias c = if str_eqb c (u "School_Id") then u "MoEID" else c) /\
  (~ In (u "MoEID") (columns d) -> List.NoDup (columns (aliased d))) /\
  (In (u "MoEID") (columns d) -> In (u "School_Id") (columns d) ->
   ~ List.NoDup (columns (aliased d))).
Proof.
  intros Hnd. split; [|split].
  - intros c _. rewrite alias_cases.
    destruct (str_eqb c (u "School_Id")) eqn:E.
    + apply str_eqb_eq in E. now subst c.
    + assert (E' : str_eqb (u "School_Id") c = false).
      { apply str_eqb_neq. apply str_eqb_neq in E. congruence. }
      now rewrite E'.
  - intros Hn. unfold aliased. cbn [columns].
    assert (Hinj : forall a b, In a (columns d) -> In b (columns d) ->
                               alias a = alias b -> a = b)
      by (intros a b; now apply alias_injective).
    revert Hnd Hinj. generalize (columns d) as cols.
    induction cols as [|c cols IH]; intros Hnd Hinj; cbn [List.map];
      [constructor|].
    apply List.NoDup_cons_iff in Hnd as [Hc Hnd].
    apply List.NoDup_cons.
    + intros Hin. apply List.in_map_iff in Hin as (b & Hb & Hin).
      apply Hc. rewrite <- (Hinj b c); [exact Hin|now right|now left|exact Hb].
    + apply IH; [exact Hnd|]. intros a b Ha Hb. apply Hinj; now right.
  - intros Hm Hs Hnd'. unfold aliased in Hnd'. cbn [columns] in Hnd'.
    apply List.in_split in Hm as (l1 & l2 & Hcols).
    rewrite Hcols in Hs, Hnd'. rewrite List.map_app in Hnd'.
    cbn [List.map] in Hnd'.
    change (alias (u "MoEID")) with (u "MoEID") in Hnd'.
    apply List.NoDup_remove_2 in Hnd'. apply Hnd'.
    rewrite <- List.map_app. apply List.in_map_iff.
    exists (u "School_Id"). split; [reflexivity|].
    apply List.in_app_iff. apply List.in_app_iff in Hs as [Hs|Hs];
      [now left|right].
    destruct Hs as [Hs|Hs]; [discriminate|exact Hs].
Qed.

Lemma export_headers_stay_distinct_witness :
  ~ List.NoDup
      (columns (aliased {| columns := [u "MoEID"; u "School_Id"];
                           rows := [] |})).
Proof.
  apply (export_headers_stay_distinct
           {| columns := [u "MoEID"; u "School_Id"]; rows := [] |}).
  - apply distinct_NoDup. reflexivity.
  - left. reflexivity.
  - right. left. reflexivity.
Defined.

(* ===================================================================== *)
(** * The year list *)
(* ===================================================================== *)

Lemma py_range_In (a b y : Z) : In y (py_range a b) <-> a <= y < b.
Proof.
  unfold py_range. rewrite List.in_map_iff. split.
  - intros (i & <- & Hi). apply List.in_seq in Hi. lia.
  - intros Hy. exists (Z.to_nat (y - a)). split; [lia|].
    apply List.in_seq. lia.
Qed.

Lemma range_sorted (a : Z) (n : nat) :
  forall s,
    StronglySorted Z.lt (List.map (fun i => a + Z.of_nat i) (seq s n)).
Proof.
  induction n as [|n IH]; intros s; cbn [seq List.map]; constructor.
  - apply IH.
  - apply List.Forall_forall. intros y Hy.
    apply List.in_map_iff in Hy as (i & <- & Hi).
    apply List.in_seq in Hi. lia.
Qed.

(** X21: The years offered are exactly those from 2010 to the current year, in
    increasing order, none when the clock is set before 2010; the list
    depends on the clock only, not on the sheets of any workbook, and is
    logged as returned. *)
Theorem available_years_cover (current_year : Z) (lg : list years_log) :
  exists years,
    get_available_years current_year lg
    = (Ok years, lg ++ [AvailableYears years]) /\
    (forall y, In y years <-> 2010 <= y <= current_year) /\
    StronglySorted Z.lt years /\
    length years = Z.to_nat (current_year - 2009).
Proof.
  exists (py_range ROLL_DATA_START_YEAR (current_year + 1)).
  split; [reflexivity|]. split; [|split].
  - intros y. rewrite py_range_In. unfold ROLL_DATA_START_YEAR. lia.
  - apply range_sorted.
  - unfold py_range. rewrite List.length_map, List.length_seq.
    unfold ROLL_DATA_START_YEAR. lia.
Qed.

(* ===================================================================== *)
(** * The logger *)
(* ===================================================================== *)

Lemma handler_eqb_refl (h : TextHandler) : handler_eqb h h = true.
Proof.
  unfold handler_eqb. now rewrite Z.eqb_refl, Pos.eqb_refl.
Qed.

(** Removing every handler of a copy of the list empties it. *)
Lemma handlers_cleared (hs : list TextHandler) :
  fold_left (fun hs h => removeHandler h hs) hs hs = [].
Proof.
  induction hs as [|h hs IH]; [reflexivity|].
  cbn [fold_left removeHandler]. now rewrite handler_eqb_refl.
Qed.

(** X22: [make_logger] leaves the logger with one handler, the new one,
    however many it had: calling it at every run does not multiply the
    lines shown.  The logger itself lets every level through; the handler
    has the level asked for, and [INFO] for a name that is none of the
    four. *)
Theorem make_logger_single_handler (text_widget : positive)
    (level_name : str) (st : logging_state) :
  let st' := make_logger text_widget level_name st in
  logger_level st' = 10 /\
  widgets st' = widgets st /\
  (exists l,
     handlers st' = [{| handler_level := levelno l; widget := text_widget |}]
     /\ (forall l', level_name = levelname l' -> l = l')
     /\ ((forall l', level_name <> levelname l') -> l = INFO)).
Proof.
  cbv zeta. unfold make_logger. cbn [logger_level widgets handlers].
  rewrite handlers_cleared. split; [reflexivity|]. split; [reflexivity|].
  exists (level_map_get level_map level_name INFO).
  split; [reflexivity|]. split.
  - intros l' ->. now destruct l'.
  - intros Hn. unfold level_map. cbn [level_map_get].
    destruct (str_eqb (u "INFO") level_name) eqn:E1; [reflexivity|].
    destruct (str_eqb (u "WARNING") level_name) eqn:E2;
      [apply str_eqb_eq in E2; now elim (Hn WARNING)|].
    destruct (str_eqb (u "ERROR") level_name) eqn:E3;
      [apply str_eqb_eq in E3; now elim (Hn ERROR)|].
    destruct (str_eqb (u "DEBUG") level_name) eqn:E4;
      [apply str_eqb_eq in E4; now elim (Hn DEBUG)|].
    reflexivity.
Qed.

Lemma make_logger_single_handler_witness :
  handlers
    (make_logger 1%positive (u "verbose")
       {| logger_level := 0;
          handlers := [{| handler_level := 10; widget := 1%positive |};
                       {| handler_level := 30; widget := 2%positive |}];
          widgets := ∅ |})
  = [{| handler_level := 20; widget := 1%positive |}].
Proof.
  destruct (make_logger_single_handler 1%positive (u "verbose")
              {| logger_level := 0;
                 handlers := [{| handler_level := 10; widget := 1%positive |};
                              {| handler_level := 30; widget := 2%positive |}];
                 widgets := ∅ |})
    as (_ & _ & l & Hh & _ & Hdefault).
  rewrite Hh, Hdefault; [reflexivity|].
  intros l'. destruct l'; discriminate.
Defined.

(** X23: After [make_logger], a record at or above the level asked for is
    appended to the widget as one formatted line, whether the widget was
    taking edits or not, the end of the text is brought into view and the
    widget is left read-only; a record below the level leaves the widget
    as it was. *)
Theorem log_line_reaches_widget (text_widget : positive) (level_name : str)
    (st : logging_state) (t : ScrolledText) (record : LogRecord) :
  widgets st !! text_widget = Some t ->
  let l := level_map_get level_map level_name INFO in
  let st' := log record (make_logger text_widget level_name st) in
  widgets st' !! text_widget
  = Some (if levelno l <=? levelno (record_level record)
          then {| state := disabled;
                  text := text t ++ format record ++ [10%N];
                  seen :=
                    Some (length (text t ++ format record ++ [10%N])) |}
          else t) /\
  (forall other, other <> text_widget ->
                 widgets st' !! other = widgets st !! other) /\
  handlers st' = handlers (make_logger text_widget level_name st).
Proof.
  intros Ht l st'. subst st'. unfold log, make_logger.
  cbn [logger_level widgets handlers]. rewrite handlers_cleared.
  assert (Hlog : (levelno DEBUG <=? levelno (record_level record)) = true)
    by (now destruct (record_level record)).
  rewrite Hlog. cbn [logger_level widgets handlers addHandler existsb].
  cbn [app fold_left handler_level]. fold l.
  destruct (levelno l <=? levelno (record_level record)).
  - unfold TextHandler_emit. cbn [widget].
    split; [|split; [|reflexivity]].
    + rewrite lookup_alter_eq, Ht. cbn [fmap option_fmap option_map].
      reflexivity.
    + intros other Hother. now rewrite lookup_alter_ne.
  - split; [exact Ht|]. split; [reflexivity|reflexivity].
Qed.

Lemma log_line_reaches_widget_witness :
  let st := {| logger_level := 0; handlers := [];
               widgets := {[ 1%positive :=
                               {| state := disabled; text := u "a";
                                  seen := None |} ]} |} in
  let record := {| asctime := u "t"; record_level := WARNING;
                   message := u "m" |} in
  widgets (log record (make_logger 1%positive (u "INFO") st)) !! 1%positive
  = Some {| state := disabled;
            text := u "a" ++ format record ++ [10%N];
            seen := Some (length (u "a" ++ format record ++ [10%N])) |}.
Proof.
  intros st record.
  destruct (log_line_reaches_widget 1%positive (u "INFO") st
              {| state := disabled; text := u "a"; seen := None |} record)
    as (H & _).
  - vm_compute. reflexivity.
  - exact H.
Defined.

(* ===================================================================== *)
(** * The generate action *)
(* ===================================================================== *)

(** X24: The files checked before the run are the files the run writes: a path
    an exporter returns, when its export is chosen, is among the files
    checked, and every file checked is the path of a chosen export. *)
Theorem overwrite_check_covers_exports {FS : Type}
    (makedirs : str -> FS -> outcome unit * FS)
    (write_file : str -> file_content -> FS -> outcome unit * FS)
    (path_join : str -> str -> str) (xlsxwriter_installed : bool)
    (df : positive) (out_dir base_name : str) (var_csv var_excel : bool)
    (w1 w2 : @world FS) :
  let checked := files_to_check path_join out_dir base_name var_csv var_excel in
  (forall p,
     var_csv = true ->
     fst (export_csv makedirs write_file path_join df out_dir base_name w1)
       = Ok p ->
     In p checked) /\
  (forall p,
     var_excel = true ->
     fst (export_excel_table makedirs write_file path_join
            xlsxwriter_installed df out_dir base_name w2) = Ok p ->
     In p checked) /\
  (forall p,
     In p checked ->
     var_csv = true /\
       p = path_join out_dir (sanitized_base base_name ++ u ".csv") \/
     var_excel = true /\
       p = path_join out_dir (sanitized_base base_name ++ u ".xlsx")) /\
  length checked = (Nat.b2n var_csv + Nat.b2n var_excel)%nat.
Proof.
  cbv zeta. unfold files_to_check. fold (sanitized_base base_name).
  split; [|split; [|split]].
  - intros p -> Hp. apply export_csv_path in Hp. subst p.
    apply List.in_app_iff. left. now left.
  - intros p -> Hp. apply export_excel_table_path in Hp. subst p.
    apply List.in_app_iff. right. now left.
  - intros p Hp. apply List.in_app_iff in Hp as [Hp|Hp].
    + destruct var_csv; [|contradiction]. destruct Hp as [<-|[]]. now left.
    + destruct var_excel; [|contradiction]. destruct Hp as [<-|[]].
      now right.
  - rewrite List.length_app. now destruct var_csv, var_excel.
Qed.

Lemma overwrite_check_covers_exports_witness :
  let w := {| frames := {[ 1%positive :=
                             {| columns := [u "School_Id"];
                                rows := [[CInt 1]] |} ]};
              files := @nil (str * file_content); exported := [] |} in
  In (u "out/a_b.csv")
    (files_to_check toy_path_join (u "out") (u "a:b") true false).
Proof.
  intros w.
  destruct (overwrite_check_covers_exports toy_makedirs toy_write_file
              toy_path_join true 1%positive (u "out") (u "a:b") true false
              w w) as (Hcsv & _).
  apply Hcsv; [reflexivity|vm_compute; reflexivity].
Defined.

(** X25: Whatever makes the roll loader fail, the generate action reports it
    under the general error, also when the cause is a missing import or a
    failure of the network, since the loader wraps its cause; the missing
    XlsxWriter of the Excel exporter is reported as a dependency error. *)
Theorem roll_failure_shown_as_error {FS : Type} (db : unicode_db)
    (to_numeric_text : str -> option number) (roll_file : outcome workbook)
    (year : Z) (lg : list log_record) (e : exn) :
  fst (load_roll_data db to_numeric_text roll_file year lg) = Raise e ->
  on_generate_except e = (u "Error.", ErrorDialog) /\
  (exists cause, e = RollLoadFailure cause) /\
  forall (makedirs : str -> FS -> outcome unit * FS)
         (write_file : str -> file_content -> FS -> outcome unit * FS)
         (path_join : str -> str -> str) df out_dir base_name
         (w : @world FS) e',
    fst (export_excel_table makedirs write_file path_join false df out_dir
           base_name w) = Raise e' ->
    on_generate_except e' = (u "Dependency error.", DependencyErrorDialog).
Proof.
  intros Hrun.
  assert (Hcause : exists cause, e = RollLoadFailure cause).
  { unfold load_roll_data in Hrun.
    destruct (load_roll_data_body db to_numeric_text roll_file year lg)
      as [[d|e0|] lg']; cbn [fst] in Hrun; try discriminate.
    injection Hrun as <-. now exists e0. }
  split; [|split; [exact Hcause|]].
  - destruct Hcause as [cause ->]. reflexivity.
  - intros makedirs write_file path_join df out_dir base_name w e'.
    unfold export_excel_table. cbn [negb fst raise lift].
    now intros [= <-].
Qed.

Lemma roll_failure_shown_as_error_witness :
  on_generate_except (RollLoadFailure ImportError)
  = (u "Error.", ErrorDialog).
Proof.
  apply (roll_failure_shown_as_error (FS := unit) plain_db (fun _ => None)
           (Raise ImportError) 2024 [] (RollLoadFailure ImportError)).
  reflexivity.
Defined.

(* ===================================================================== *)
(** * The year list of the window *)
(* ===================================================================== *)

Lemma py_range_last (a b : Z) :
  a < b -> List.last (List.map str_of_Z (py_range a b)) [] = str_of_Z (b - 1).
Proof.
  intros Hab. unfold py_range.
  destruct (Z.to_nat (b - a)) as [|n] eqn:E; [lia|].
  rewrite List.seq_S, !List.map_app. cbn [List.map Nat.add].
  rewrite List.last_last. f_equal. lia.
Qed.

(** X26: Choosing a roll file fills the year list with the years from 2010
    to the current year and shows the current year, without an error
    dialog; before 2010 the list is empty and what the combobox shows
    stays.  The handler is made anew at level INFO, so the line about the
    available years, logged at level DEBUG, never reaches the log
    widget. *)
Theorem year_list_shows_current_year (txt_logs : positive)
    (current_year : Z) (now : str) (cbo_roll_year : Combobox)
    (st : logging_state) :
  let '(cbo, failed, st') :=
    update_year_combobox txt_logs current_year now cbo_roll_year st in
  failed = false /\
  values cbo = List.map str_of_Z (py_range 2010 (current_year + 1)) /\
  (2010 <= current_year -> current cbo = str_of_Z current_year) /\
  (current_year < 2010 ->
   values cbo = [] /\ current cbo = current cbo_roll_year) /\
  widgets st' = widgets st /\
  handlers st' = [{| handler_level := 20; widget := txt_logs |}].
Proof.
  unfold update_year_combobox, get_available_years.
  cbn [app fold_left years_record]. unfold ROLL_DATA_START_YEAR.
  split; [reflexivity|].
  assert (Hquiet : forall r : LogRecord,
            record_level r = DEBUG ->
            log r (make_logger txt_logs (u "INFO") st)
            = make_logger txt_logs (u "INFO") st).
  { intros r Hr. unfold log, make_logger.
    cbn [logger_level handlers widgets]. rewrite handlers_cleared, Hr.
    reflexivity. }
  rewrite Hquiet by reflexivity.
  destruct (Z.lt_ge_cases current_year 2010) as [Hlt|Hge].
  - assert (Hnone : py_range 2010 (current_year + 1) = []).
    { unfold py_range.
      replace (Z.to_nat (current_year + 1 - 2010)) with 0%nat by lia.
      reflexivity. }
    rewrite Hnone. cbn [List.map is_nil values current].
    split; [reflexivity|]. split; [lia|]. split; [now split|].
    split; [reflexivity|].
    unfold make_logger. cbn [handlers]. now rewrite handlers_cleared.
  - pose proof (py_range_last 2010 (current_year + 1) ltac:(lia)) as Hlast.
    replace (current_year + 1 - 1) with current_year in Hlast by lia.
    destruct (List.map str_of_Z (py_range 2010 (current_year + 1)))
      as [|y ys] eqn:Eys.
    + exfalso. apply List.map_eq_nil in Eys. unfold py_range in Eys.
      apply List.map_eq_nil in Eys.
      destruct (Z.to_nat (current_year + 1 - 2010)) eqn:E;
        [lia|discriminate].
    + cbn [is_nil values current].
      split; [reflexivity|]. split; [intros _; exact Hlast|].
      split; [lia|]. split; [reflexivity|].
      unfold make_logger. cbn [handlers]. now rewrite handlers_cleared.
Qed.

Lemma year_list_shows_current_year_witness :
  let st := {| logger_level := 0; handlers := []; widgets := ∅ |} in
  current
    (fst (fst (update_year_combobox 1%positive 2012 (u "t")
                 {| values := []; current := [] |} st)))
  = str_of_Z 2012.
Proof.
  intros st.
  pose proof (year_list_shows_current_year 1%positive 2012 (u "t")
                {| values := []; current := [] |} st) as H.
  destruct (update_year_combobox 1%positive 2012 (u "t")
              {| values := []; current := [] |} st) as [[cbo failed] st'].
  destruct H as (_ & _ & H & _). cbn [fst]. apply H. lia.
Defined.
